(** * pymia: confusion matrix, surface distances and voxel-wise indexing

    A shallow embedding of [pymia/evaluation/metric/base.py]
    ([ConfusionMatrix], [Distances]) and of
    [miapy/data/extraction/indexing.py] ([VoxelWiseIndexing],
    [SliceIndexing]).

    Python exceptions are an error monad, numpy arrays are a shape together
    with the row-major list of their elements, and numpy's [float64] is
    Rocq's primitive binary64 float. *)

From Stdlib Require Import String List ZArith Bool Lia Floats PeanoNat.
From Stdlib Require Import Sorting.Sorted Sorting.Permutation.
Import ListNotations.

Set Implicit Arguments.

(* ================================================================== *)
(** ** Python exceptions *)

Module Py.

(** The exceptions the modelled code paths can raise, one constructor per
    raising site. *)
Inductive exn : Type :=
| ValueError_broadcast      (* operands could not be broadcast together *)
| ValueError_zero_size      (* zero-size array to reduction operation *)
| ValueError_setitem        (* could not broadcast input array into shape *)
| AxisError                 (* axis is out of bounds for array *)
| IndexError_tuple          (* tuple index out of range *)
| IndexError_too_many       (* too many indices for array *)
| RuntimeError_sequence     (* sequence argument must have length equal to input rank *)
| TypeError_not_integer.    (* 'numpy.float64' object cannot be interpreted as an integer *)

Inductive result (A : Type) : Type :=
| Ok (a : A)
| Raise (e : exn).
Arguments Ok {A} a.
Arguments Raise {A} e.

Definition bind {A B} (c : result A) (k : A -> result B) : result B :=
  match c with
  | Ok a => k a
  | Raise e => Raise e
  end.

Definition returns {A} (c : result A) : bool :=
  match c with Ok _ => true | Raise _ => false end.

(** [t[i]] on a tuple. *)
Definition tuple_get {A} (t : list A) (i : nat) : result A :=
  match nth_error t i with
  | Some x => Ok x
  | None => Raise IndexError_tuple
  end.

End Py.
Import Py.

Notation "x <- c ;; k" := (Py.bind c (fun x => k))
  (at level 61, c at next level, right associativity).

(* ================================================================== *)
(** ** numpy arrays *)

Module Np.

Record ndarray (A : Type) : Type := mk_ndarray {
  shape : list nat;
  data : list A     (* C order *)
}.

Definition size_of (sh : list nat) : nat := fold_right Nat.mul 1 sh.

Section Generic.
Context {A : Type}.

Definition ndim (a : ndarray A) : nat := length (shape a).
Definition size (a : ndarray A) : nat := size_of (shape a).

(** The invariant numpy maintains for every array. *)
Definition wf (a : ndarray A) : Prop := length (data a) = size a.

(** Multi-index of a flat position, and back. *)
Fixpoint unravel (sh : list nat) (n : nat) : list nat :=
  match sh with
  | [] => []
  | _ :: sh' => n / size_of sh' :: unravel sh' (n mod size_of sh')
  end.

Fixpoint ravel (sh idx : list nat) : nat :=
  match sh, idx with
  | _ :: sh', i :: idx' => i * size_of sh' + ravel sh' idx'
  | _, _ => 0
  end.

Definition get (d : A) (a : ndarray A) (idx : list nat) : A :=
  nth (ravel (shape a) idx) (data a) d.

Definition tabulate (sh : list nat) (f : list nat -> A) : ndarray A :=
  {| shape := sh;
     data := map (fun n => f (unravel sh n)) (seq 0 (size_of sh)) |}.

(** Broadcasting: shapes are aligned on their last axis, an axis of
    length 1 is stretched. *)
Fixpoint broadcast_rev (s1 s2 : list nat) : option (list nat) :=
  match s1, s2 with
  | [], _ => Some s2
  | _, [] => Some s1
  | d1 :: r1, d2 :: r2 =>
      match broadcast_rev r1 r2 with
      | None => None
      | Some r =>
          if d1 =? d2 then Some (d1 :: r)
          else if d1 =? 1 then Some (d2 :: r)
          else if d2 =? 1 then Some (d1 :: r)
          else None
      end
  end.

Definition broadcast_shapes (s1 s2 : list nat) : option (list nat) :=
  option_map (@rev nat) (broadcast_rev (rev s1) (rev s2)).

Fixpoint stretch (src idx : list nat) : list nat :=
  match src, idx with
  | d :: src', i :: idx' => (if d =? 1 then 0 else i) :: stretch src' idx'
  | _, _ => []
  end.

(** The index of the source element that lands at [idx] of the
    broadcast array. *)
Definition broadcast_index (src idx : list nat) : list nat :=
  stretch src (skipn (length idx - length src) idx).

Definition broadcast_to (d : A) (a : ndarray A) (sh : list nat) : ndarray A :=
  tabulate sh (fun idx => get d a (broadcast_index (shape a) idx)).

(** [np.expand_dims(a, -1)] *)
Definition expand_dims_last (a : ndarray A) : ndarray A :=
  {| shape := shape a ++ [1]; data := data a |}.

(** [a[mask]] for a boolean mask of the shape of [a]: the selected
    elements in C order. *)
Definition boolean_index (a : ndarray A) (mask : ndarray bool) : list A :=
  map snd (filter fst (combine (data mask) (data a))).

End Generic.

(** An elementwise binary ufunc. *)
Definition ufunc2 {A B C} (da : A) (db : B) (f : A -> B -> C)
    (a : ndarray A) (b : ndarray B) : result (ndarray C) :=
  match broadcast_shapes (shape a) (shape b) with
  | None => Raise ValueError_broadcast
  | Some sh =>
      Ok {| shape := sh;
            data := map (fun p => f (fst p) (snd p))
                      (combine (data (broadcast_to da a sh))
                               (data (broadcast_to db b sh))) |}
  end.

(** An elementwise unary ufunc, or a comparison with a scalar. *)
Definition ufunc1 {A B} (f : A -> B) (a : ndarray A) : ndarray B :=
  {| shape := shape a; data := map f (data a) |}.

(** [np.sum] of a boolean array. *)
Definition sum_bool (a : ndarray bool) : nat :=
  length (filter (fun b : bool => b) (data a)).

(** [a.any()] *)
Definition any (a : ndarray bool) : bool := existsb (fun b : bool => b) (data a).

Definition remove_at {A} (k : nat) (l : list A) : list A :=
  firstn k l ++ skipn (S k) l.

Definition insert_at {A} (k : nat) (x : A) (l : list A) : list A :=
  firstn k l ++ x :: skipn k l.

(** [np.max(a, axis=axis)] on an integer array. *)
Definition amax (a : ndarray Z) (axis : nat) : result (ndarray Z) :=
  match nth_error (shape a) axis with
  | None => Raise AxisError
  | Some 0 => Raise ValueError_zero_size
  | Some (S n) =>
      Ok (tabulate (remove_at axis (shape a))
            (fun idx =>
               fold_left Z.max
                 (map (fun t => get 0%Z a (insert_at axis t idx)) (seq 1 n))
                 (get 0%Z a (insert_at axis 0 idx))))
  end.

(** [np.nonzero(a)[0]]: the first coordinate of every non-zero element. *)
Definition nonzero_0 (a : ndarray Z) : list nat :=
  map (fun n => hd 0 (unravel (shape a) n))
      (filter (fun n => negb (nth n (data a) 0 =? 0)%Z) (seq 0 (size a))).

(** [np.min] and [np.max] of a one-dimensional index array. *)
Definition min_1d (l : list nat) : result nat :=
  match l with
  | [] => Raise ValueError_zero_size
  | x :: l' => Ok (fold_left Nat.min l' x)
  end.

Definition max_1d (l : list nat) : result nat :=
  match l with
  | [] => Raise ValueError_zero_size
  | x :: l' => Ok (fold_left Nat.max l' x)
  end.

End Np.
Import Np.

(* ================================================================== *)
(** ** ConfusionMatrix *)

Record ConfusionMatrix : Type := {
  tp : nat;
  tn : nat;
  fp : nat;
  fn : nat;
  n : nat
}.

(** [np.sum(np.logical_and(prediction == x, label == y))] *)
Definition count_and (prediction label : ndarray Z) (x y : Z) : result nat :=
  both <- ufunc2 false false andb
            (ufunc1 (fun v => (v =? x)%Z) prediction)
            (ufunc1 (fun v => (v =? y)%Z) label) ;;
  Ok (sum_bool both).

(** [ConfusionMatrix.__init__] *)
Definition ConfusionMatrix_init (prediction label : ndarray Z)
    : result ConfusionMatrix :=
  tp <- count_and prediction label 1 1 ;;
  tn <- count_and prediction label 0 0 ;;
  fp <- count_and prediction label 1 0 ;;
  fn <- count_and prediction label 0 1 ;;
  Ok {| tp := tp; tn := tn; fp := fp; fn := fn; n := size prediction |}.

(* ================================================================== *)
(** ** float64 and Python's ordering of tuples *)

Module F64.

Local Open Scope float_scope.

(** [astype(np.float64)] of an integer (of a difference of two indices,
    far below 2^63). *)
Definition of_Z (z : Z) : float :=
  if (z <? 0)%Z then - of_uint63 (Uint63.of_Z (- z))
  else of_uint63 (Uint63.of_Z z).

(** [np.add.reduce]: left to right, starting from the first term. *)
Definition add_reduce (l : list float) : float :=
  match l with
  | [] => 0
  | x :: l' => fold_left PrimFloat.add l' x
  end.

(** [np.linalg.norm] of a vector: the square root of its dot product
    with itself, the products summed from the left. *)
Definition norm (v : list float) : float :=
  sqrt (add_reduce (map (fun x => x * x) v)).

(** [p < q] on tuples of two floats: the first position where the items
    are not [==] decides. *)
Definition tuple_lt (p q : float * float) : bool :=
  if negb (fst p =? fst q) then fst p <? fst q
  else if negb (snd p =? snd q) then snd p <? snd q
  else false.

(** [sorted]: a stable sort that only ever asks [<]. *)
Fixpoint insert (x : float * float) (l : list (float * float))
    : list (float * float) :=
  match l with
  | [] => [x]
  | y :: l' => if tuple_lt y x then y :: insert x l' else x :: l
  end.

Definition sorted (l : list (float * float)) : list (float * float) :=
  fold_right insert [] l.

End F64.

(* ================================================================== *)
(** ** scipy.ndimage *)

Module Ndimage.

Definition uint8 (z : Z) : Z := (z mod 256)%Z.

(** Reading with [mode="constant", cval=0]: zero outside the array. *)
Definition get_constant (a : ndarray Z) (idx : list Z) : Z :=
  if forallb (fun p => (0 <=? fst p)%Z && (fst p <? Z.of_nat (snd p))%Z)
             (combine idx (shape a))
  then get 0%Z a (map Z.to_nat idx)
  else 0%Z.

(** [correlate(input, weights, mode="constant", cval=0)] with the default
    origin: the centre of the weights along an axis of length [k] is at
    [k / 2].  The output has the dtype of the input, here [uint8]; for a
    0/1 input and the kernel of [_calculate] the sum is below 256 and the
    cast changes nothing. *)
Definition correlate (input weights : ndarray Z) : ndarray Z :=
  tabulate (shape input)
    (fun idx =>
       uint8
         (fold_left Z.add
            (map (fun m =>
                    let w := unravel (shape weights) m in
                    (get_constant input
                       (map (fun t => (Z.of_nat (fst (fst t)) + Z.of_nat (snd (fst t))
                                       - Z.of_nat (snd t / 2))%Z)
                            (combine (combine idx w) (shape weights)))
                     * nth m (data weights) 0)%Z)
                 (seq 0 (size weights)))
            0%Z)).

(** For a voxel at [p] and a background voxel at [q]:
    the sum over the axes of [((q - p) * sampling) ** 2]. *)
Definition sq_distance (sampling : list float) (p q : list nat) : float :=
  F64.add_reduce
    (map (fun t =>
            let x :=
              (F64.of_Z (Z.of_nat (snd (fst t)) - Z.of_nat (fst (fst t))) * snd t)%float in
            (x * x)%float)
         (combine (combine p q) sampling)).

(** [distance_transform_edt(input, sampling=sampling)]: for every element,
    the distance to the nearest zero element of [input], the difference
    of the indices scaled by [sampling] axis by axis. *)
Definition distance_transform_edt (input : ndarray bool) (sampling : list float)
    : result (ndarray float) :=
  if negb (length sampling =? ndim input) then Raise RuntimeError_sequence
  else
    let background :=
      map (unravel (shape input))
          (filter (fun m => negb (nth m (data input) true)) (seq 0 (size input))) in
    Ok (tabulate (shape input)
          (fun p =>
             sqrt (fold_left
                     (fun best q =>
                        let d := sq_distance sampling p q in
                        if (d <? best)%float then d else best)
                     background infinity))).

End Ndimage.

(* ================================================================== *)
(** ** Distances *)

Definition normal : Type := float * float * float.

(** What the early exit of [_calculate] returns. *)
Definition dict : Type := list (string * list float).

Record Distances : Type := {
  distances_gt_to_pred : option (list float);
  distances_pred_to_gt : option (list float);
  surfel_areas_gt : option (list float);
  surfel_areas_pred : option (list float);
  _neighbour_code_to_normals : list (list normal)
}.

Definition neighbour_code_to_normals : list (list normal) :=
  Eval cbv in
  ([
    [(0, 0, 0)];
    [(0.125, 0.125, 0.125)];
    [(-0.125, -0.125, 0.125)];
    [(-0.25, -0.25, 0); (0.25, 0.25, -0.0)];
    [(0.125, -0.125, 0.125)];
    [(-0.25, -0.0, -0.25); (0.25, 0, 0.25)];
    [(0.125, -0.125, 0.125); (-0.125, -0.125, 0.125)];
    [(0.5, 0, -0.0); (0.25, 0.25, 0.25); (0.125, 0.125, 0.125)];
    [(-0.125, 0.125, 0.125)];
    [(0.125, 0.125, 0.125); (-0.125, 0.125, 0.125)];
    [(-0.25, 0, 0.25); (-0.25, 0, 0.25)];
    [(0.5, 0, 0); (-0.25, -0.25, 0.25); (-0.125, -0.125, 0.125)];
    [(0.25, -0.25, 0); (0.25, -0.25, 0)];
    [(0.5, 0, 0); (0.25, -0.25, 0.25); (-0.125, 0.125, -0.125)];
    [(-0.5, 0, 0); (-0.25, 0.25, 0.25); (-0.125, 0.125, 0.125)];
    [(0.5, 0, 0); (0.5, 0, 0)];
    [(0.125, -0.125, -0.125)];
    [(0, -0.25, -0.25); (0, 0.25, 0.25)];
    [(-0.125, -0.125, 0.125); (0.125, -0.125, -0.125)];
    [(0, -0.5, 0); (0.25, 0.25, 0.25); (0.125, 0.125, 0.125)];
    [(0.125, -0.125, 0.125); (0.125, -0.125, -0.125)];
    [(0, 0, -0.5); (0.25, 0.25, 0.25); (-0.125, -0.125, -0.125)];
    [(-0.125, -0.125, 0.125); (0.125, -0.125, 0.125); (0.125, -0.125, -0.125)];
    [(-0.125, -0.125, -0.125); (-0.25, -0.25, -0.25); (0.25, 0.25, 0.25); (0.125, 0.125, 0.125)];
    [(-0.125, 0.125, 0.125); (0.125, -0.125, -0.125)];
    [(0, -0.25, -0.25); (0, 0.25, 0.25); (-0.125, 0.125, 0.125)];
    [(-0.25, 0, 0.25); (-0.25, 0, 0.25); (0.125, -0.125, -0.125)];
    [(0.125, 0.125, 0.125); (0.375, 0.375, 0.375); (0, -0.25, 0.25); (-0.25, 0, 0.25)];
    [(0.125, -0.125, -0.125); (0.25, -0.25, 0); (0.25, -0.25, 0)];
    [(0.375, 0.375, 0.375); (0, 0.25, -0.25); (-0.125, -0.125, -0.125); (-0.25, 0.25, 0)];
    [(-0.5, 0, 0); (-0.125, -0.125, -0.125); (-0.25, -0.25, -0.25); (0.125, 0.125, 0.125)];
    [(-0.5, 0, 0); (-0.125, -0.125, -0.125); (-0.25, -0.25, -0.25)];
    [(0.125, -0.125, 0.125)];
    [(0.125, 0.125, 0.125); (0.125, -0.125, 0.125)];
    [(0, -0.25, 0.25); (0, 0.25, -0.25)];
    [(0, -0.5, 0); (0.125, 0.125, -0.125); (0.25, 0.25, -0.25)];
    [(0.125, -0.125, 0.125); (0.125, -0.125, 0.125)];
    [(0.125, -0.125, 0.125); (-0.25, -0.0, -0.25); (0.25, 0, 0.25)];
    [(0, -0.25, 0.25); (0, 0.25, -0.25); (0.125, -0.125, 0.125)];
    [(-0.375, -0.375, 0.375); (-0.0, 0.25, 0.25); (0.125, 0.125, -0.125); (-0.25, -0.0, -0.25)];
    [(-0.125, 0.125, 0.125); (0.125, -0.125, 0.125)];
    [(0.125, 0.125, 0.125); (0.125, -0.125, 0.125); (-0.125, 0.125, 0.125)];
    [(-0.0, 0, 0.5); (-0.25, -0.25, 0.25); (-0.125, -0.125, 0.125)];
    [(0.25, 0.25, -0.25); (0.25, 0.25, -0.25); (0.125, 0.125, -0.125); (-0.125, -0.125, 0.125)];
    [(0.125, -0.125, 0.125); (0.25, -0.25, 0); (0.25, -0.25, 0)];
    [(0.5, 0, 0); (0.25, -0.25, 0.25); (-0.125, 0.125, -0.125); (0.125, -0.125, 0.125)];
    [(0, 0.25, -0.25); (0.375, -0.375, -0.375); (-0.125, 0.125, 0.125); (0.25, 0.25, 0)];
    [(-0.5, 0, 0); (-0.25, -0.25, 0.25); (-0.125, -0.125, 0.125)];
    [(0.25, -0.25, 0); (-0.25, 0.25, 0)];
    [(0, 0.5, 0); (-0.25, 0.25, 0.25); (0.125, -0.125, -0.125)];
    [(0, 0.5, 0); (0.125, -0.125, 0.125); (-0.25, 0.25, -0.25)];
    [(0, 0.5, 0); (0, -0.5, 0)];
    [(0.25, -0.25, 0); (-0.25, 0.25, 0); (0.125, -0.125, 0.125)];
    [(-0.375, -0.375, -0.375); (-0.25, 0, 0.25); (-0.125, -0.125, -0.125); (-0.25, 0.25, 0)];
    [(0.125, 0.125, 0.125); (0, -0.5, 0); (-0.25, -0.25, -0.25); (-0.125, -0.125, -0.125)];
    [(0, -0.5, 0); (-0.25, -0.25, -0.25); (-0.125, -0.125, -0.125)];
    [(-0.125, 0.125, 0.125); (0.25, -0.25, 0); (-0.25, 0.25, 0)];
    [(0, 0.5, 0); (0.25, 0.25, -0.25); (-0.125, -0.125, 0.125); (-0.125, -0.125, 0.125)];
    [(-0.375, 0.375, -0.375); (-0.25, -0.25, 0); (-0.125, 0.125, -0.125); (-0.25, 0, 0.25)];
    [(0, 0.5, 0); (0.25, 0.25, -0.25); (-0.125, -0.125, 0.125)];
    [(0.25, -0.25, 0); (-0.25, 0.25, 0); (0.25, -0.25, 0); (0.25, -0.25, 0)];
    [(-0.25, -0.25, 0); (-0.25, -0.25, 0); (-0.125, -0.125, 0.125)];
    [(0.125, 0.125, 0.125); (-0.25, -0.25, 0); (-0.25, -0.25, 0)];
    [(-0.25, -0.25, 0); (-0.25, -0.25, 0)];
    [(-0.125, -0.125, 0.125)];
    [(0.125, 0.125, 0.125); (-0.125, -0.125, 0.125)];
    [(-0.125, -0.125, 0.125); (-0.125, -0.125, 0.125)];
    [(-0.125, -0.125, 0.125); (-0.25, -0.25, 0); (0.25, 0.25, -0.0)];
    [(0, -0.25, 0.25); (0, -0.25, 0.25)];
    [(0, 0, 0.5); (0.25, -0.25, 0.25); (0.125, -0.125, 0.125)];
    [(0, -0.25, 0.25); (0, -0.25, 0.25); (-0.125, -0.125, 0.125)];
    [(0.375, -0.375, 0.375); (0, -0.25, -0.25); (-0.125, 0.125, -0.125); (0.25, 0.25, 0)];
    [(-0.125, -0.125, 0.125); (-0.125, 0.125, 0.125)];
    [(0.125, 0.125, 0.125); (-0.125, -0.125, 0.125); (-0.125, 0.125, 0.125)];
    [(-0.125, -0.125, 0.125); (-0.25, 0, 0.25); (-0.25, 0, 0.25)];
    [(0.5, 0, 0); (-0.25, -0.25, 0.25); (-0.125, -0.125, 0.125); (-0.125, -0.125, 0.125)];
    [(-0.0, 0.5, 0); (-0.25, 0.25, -0.25); (0.125, -0.125, 0.125)];
    [(-0.25, 0.25, -0.25); (-0.25, 0.25, -0.25); (-0.125, 0.125, -0.125); (-0.125, 0.125, -0.125)];
    [(-0.25, 0, -0.25); (0.375, -0.375, -0.375); (0, 0.25, -0.25); (-0.125, 0.125, 0.125)];
    [(0.5, 0, 0); (-0.25, 0.25, -0.25); (0.125, -0.125, 0.125)];
    [(-0.25, 0, 0.25); (0.25, 0, -0.25)];
    [(-0.0, 0, 0.5); (-0.25, 0.25, 0.25); (-0.125, 0.125, 0.125)];
    [(-0.125, -0.125, 0.125); (-0.25, 0, 0.25); (0.25, 0, -0.25)];
    [(-0.25, -0.0, -0.25); (-0.375, 0.375, 0.375); (-0.25, -0.25, 0); (-0.125, 0.125, 0.125)];
    [(0, 0, -0.5); (0.25, 0.25, -0.25); (-0.125, -0.125, 0.125)];
    [(-0.0, 0, 0.5); (0, 0, 0.5)];
    [(0.125, 0.125, 0.125); (0.125, 0.125, 0.125); (0.25, 0.25, 0.25); (0, 0, 0.5)];
    [(0.125, 0.125, 0.125); (0.25, 0.25, 0.25); (0, 0, 0.5)];
    [(-0.25, 0, 0.25); (0.25, 0, -0.25); (-0.125, 0.125, 0.125)];
    [(-0.0, 0, 0.5); (0.25, -0.25, 0.25); (0.125, -0.125, 0.125); (0.125, -0.125, 0.125)];
    [(-0.25, 0, 0.25); (-0.25, 0, 0.25); (-0.25, 0, 0.25); (0.25, 0, -0.25)];
    [(0.125, -0.125, 0.125); (0.25, 0, 0.25); (0.25, 0, 0.25)];
    [(0.25, 0, 0.25); (-0.375, -0.375, 0.375); (-0.25, 0.25, 0); (-0.125, -0.125, 0.125)];
    [(-0.0, 0, 0.5); (0.25, -0.25, 0.25); (0.125, -0.125, 0.125)];
    [(0.125, 0.125, 0.125); (0.25, 0, 0.25); (0.25, 0, 0.25)];
    [(0.25, 0, 0.25); (0.25, 0, 0.25)];
    [(-0.125, -0.125, 0.125); (0.125, -0.125, 0.125)];
    [(0.125, 0.125, 0.125); (-0.125, -0.125, 0.125); (0.125, -0.125, 0.125)];
    [(-0.125, -0.125, 0.125); (0, -0.25, 0.25); (0, 0.25, -0.25)];
    [(0, -0.5, 0); (0.125, 0.125, -0.125); (0.25, 0.25, -0.25); (-0.125, -0.125, 0.125)];
    [(0, -0.25, 0.25); (0, -0.25, 0.25); (0.125, -0.125, 0.125)];
    [(0, 0, 0.5); (0.25, -0.25, 0.25); (0.125, -0.125, 0.125); (0.125, -0.125, 0.125)];
    [(0, -0.25, 0.25); (0, -0.25, 0.25); (0, -0.25, 0.25); (0, 0.25, -0.25)];
    [(0, 0.25, 0.25); (0, 0.25, 0.25); (0.125, -0.125, -0.125)];
    [(-0.125, 0.125, 0.125); (0.125, -0.125, 0.125); (-0.125, -0.125, 0.125)];
    [(-0.125, 0.125, 0.125); (0.125, -0.125, 0.125); (-0.125, -0.125, 0.125); (0.125, 0.125, 0.125)];
    [(-0.0, 0, 0.5); (-0.25, -0.25, 0.25); (-0.125, -0.125, 0.125); (-0.125, -0.125, 0.125)];
    [(0.125, 0.125, 0.125); (0.125, -0.125, 0.125); (0.125, -0.125, -0.125)];
    [(-0.0, 0.5, 0); (-0.25, 0.25, -0.25); (0.125, -0.125, 0.125); (0.125, -0.125, 0.125)];
    [(0.125, 0.125, 0.125); (-0.125, -0.125, 0.125); (0.125, -0.125, -0.125)];
    [(0, -0.25, -0.25); (0, 0.25, 0.25); (0.125, 0.125, 0.125)];
    [(0.125, 0.125, 0.125); (0.125, -0.125, -0.125)];
    [(0.5, 0, -0.0); (0.25, -0.25, -0.25); (0.125, -0.125, -0.125)];
    [(-0.25, 0.25, 0.25); (-0.125, 0.125, 0.125); (-0.25, 0.25, 0.25); (0.125, -0.125, -0.125)];
    [(0.375, -0.375, 0.375); (0, 0.25, 0.25); (-0.125, 0.125, -0.125); (-0.25, 0, 0.25)];
    [(0, -0.5, 0); (-0.25, 0.25, 0.25); (-0.125, 0.125, 0.125)];
    [(-0.375, -0.375, 0.375); (0.25, -0.25, 0); (0, 0.25, 0.25); (-0.125, -0.125, 0.125)];
    [(-0.125, 0.125, 0.125); (-0.25, 0.25, 0.25); (0, 0, 0.5)];
    [(0.125, 0.125, 0.125); (0, 0.25, 0.25); (0, 0.25, 0.25)];
    [(0, 0.25, 0.25); (0, 0.25, 0.25)];
    [(0.5, 0, -0.0); (0.25, 0.25, 0.25); (0.125, 0.125, 0.125); (0.125, 0.125, 0.125)];
    [(0.125, -0.125, 0.125); (-0.125, -0.125, 0.125); (0.125, 0.125, 0.125)];
    [(-0.25, -0.0, -0.25); (0.25, 0, 0.25); (0.125, 0.125, 0.125)];
    [(0.125, 0.125, 0.125); (0.125, -0.125, 0.125)];
    [(-0.25, -0.25, 0); (0.25, 0.25, -0.0); (0.125, 0.125, 0.125)];
    [(0.125, 0.125, 0.125); (-0.125, -0.125, 0.125)];
    [(0.125, 0.125, 0.125); (0.125, 0.125, 0.125)];
    [(0.125, 0.125, 0.125)];
    [(0.125, 0.125, 0.125)];
    [(0.125, 0.125, 0.125); (0.125, 0.125, 0.125)];
    [(0.125, 0.125, 0.125); (-0.125, -0.125, 0.125)];
    [(-0.25, -0.25, 0); (0.25, 0.25, -0.0); (0.125, 0.125, 0.125)];
    [(0.125, 0.125, 0.125); (0.125, -0.125, 0.125)];
    [(-0.25, -0.0, -0.25); (0.25, 0, 0.25); (0.125, 0.125, 0.125)];
    [(0.125, -0.125, 0.125); (-0.125, -0.125, 0.125); (0.125, 0.125, 0.125)];
    [(0.5, 0, -0.0); (0.25, 0.25, 0.25); (0.125, 0.125, 0.125); (0.125, 0.125, 0.125)];
    [(0, 0.25, 0.25); (0, 0.25, 0.25)];
    [(0.125, 0.125, 0.125); (0, 0.25, 0.25); (0, 0.25, 0.25)];
    [(-0.125, 0.125, 0.125); (-0.25, 0.25, 0.25); (0, 0, 0.5)];
    [(-0.375, -0.375, 0.375); (0.25, -0.25, 0); (0, 0.25, 0.25); (-0.125, -0.125, 0.125)];
    [(0, -0.5, 0); (-0.25, 0.25, 0.25); (-0.125, 0.125, 0.125)];
    [(0.375, -0.375, 0.375); (0, 0.25, 0.25); (-0.125, 0.125, -0.125); (-0.25, 0, 0.25)];
    [(-0.25, 0.25, 0.25); (-0.125, 0.125, 0.125); (-0.25, 0.25, 0.25); (0.125, -0.125, -0.125)];
    [(0.5, 0, -0.0); (0.25, -0.25, -0.25); (0.125, -0.125, -0.125)];
    [(0.125, 0.125, 0.125); (0.125, -0.125, -0.125)];
    [(0, -0.25, -0.25); (0, 0.25, 0.25); (0.125, 0.125, 0.125)];
    [(0.125, 0.125, 0.125); (-0.125, -0.125, 0.125); (0.125, -0.125, -0.125)];
    [(-0.0, 0.5, 0); (-0.25, 0.25, -0.25); (0.125, -0.125, 0.125); (0.125, -0.125, 0.125)];
    [(0.125, 0.125, 0.125); (0.125, -0.125, 0.125); (0.125, -0.125, -0.125)];
    [(-0.0, 0, 0.5); (-0.25, -0.25, 0.25); (-0.125, -0.125, 0.125); (-0.125, -0.125, 0.125)];
    [(-0.125, 0.125, 0.125); (0.125, -0.125, 0.125); (-0.125, -0.125, 0.125); (0.125, 0.125, 0.125)];
    [(-0.125, 0.125, 0.125); (0.125, -0.125, 0.125); (-0.125, -0.125, 0.125)];
    [(0, 0.25, 0.25); (0, 0.25, 0.25); (0.125, -0.125, -0.125)];
    [(0, -0.25, -0.25); (0, 0.25, 0.25); (0, 0.25, 0.25); (0, 0.25, 0.25)];
    [(0, 0, 0.5); (0.25, -0.25, 0.25); (0.125, -0.125, 0.125); (0.125, -0.125, 0.125)];
    [(0, -0.25, 0.25); (0, -0.25, 0.25); (0.125, -0.125, 0.125)];
    [(0, -0.5, 0); (0.125, 0.125, -0.125); (0.25, 0.25, -0.25); (-0.125, -0.125, 0.125)];
    [(-0.125, -0.125, 0.125); (0, -0.25, 0.25); (0, 0.25, -0.25)];
    [(0.125, 0.125, 0.125); (-0.125, -0.125, 0.125); (0.125, -0.125, 0.125)];
    [(-0.125, -0.125, 0.125); (0.125, -0.125, 0.125)];
    [(0.25, 0, 0.25); (0.25, 0, 0.25)];
    [(0.125, 0.125, 0.125); (0.25, 0, 0.25); (0.25, 0, 0.25)];
    [(-0.0, 0, 0.5); (0.25, -0.25, 0.25); (0.125, -0.125, 0.125)];
    [(0.25, 0, 0.25); (-0.375, -0.375, 0.375); (-0.25, 0.25, 0); (-0.125, -0.125, 0.125)];
    [(0.125, -0.125, 0.125); (0.25, 0, 0.25); (0.25, 0, 0.25)];
    [(-0.25, -0.0, -0.25); (0.25, 0, 0.25); (0.25, 0, 0.25); (0.25, 0, 0.25)];
    [(-0.0, 0, 0.5); (0.25, -0.25, 0.25); (0.125, -0.125, 0.125); (0.125, -0.125, 0.125)];
    [(-0.25, 0, 0.25); (0.25, 0, -0.25); (-0.125, 0.125, 0.125)];
    [(0.125, 0.125, 0.125); (0.25, 0.25, 0.25); (0, 0, 0.5)];
    [(0.125, 0.125, 0.125); (0.125, 0.125, 0.125); (0.25, 0.25, 0.25); (0, 0, 0.5)];
    [(-0.0, 0, 0.5); (0, 0, 0.5)];
    [(0, 0, -0.5); (0.25, 0.25, -0.25); (-0.125, -0.125, 0.125)];
    [(-0.25, -0.0, -0.25); (-0.375, 0.375, 0.375); (-0.25, -0.25, 0); (-0.125, 0.125, 0.125)];
    [(-0.125, -0.125, 0.125); (-0.25, 0, 0.25); (0.25, 0, -0.25)];
    [(-0.0, 0, 0.5); (-0.25, 0.25, 0.25); (-0.125, 0.125, 0.125)];
    [(-0.25, 0, 0.25); (0.25, 0, -0.25)];
    [(0.5, 0, 0); (-0.25, 0.25, -0.25); (0.125, -0.125, 0.125)];
    [(-0.25, 0, -0.25); (0.375, -0.375, -0.375); (0, 0.25, -0.25); (-0.125, 0.125, 0.125)];
    [(-0.25, 0.25, -0.25); (-0.25, 0.25, -0.25); (-0.125, 0.125, -0.125); (-0.125, 0.125, -0.125)];
    [(-0.0, 0.5, 0); (-0.25, 0.25, -0.25); (0.125, -0.125, 0.125)];
    [(0.5, 0, 0); (-0.25, -0.25, 0.25); (-0.125, -0.125, 0.125); (-0.125, -0.125, 0.125)];
    [(-0.125, -0.125, 0.125); (-0.25, 0, 0.25); (-0.25, 0, 0.25)];
    [(0.125, 0.125, 0.125); (-0.125, -0.125, 0.125); (-0.125, 0.125, 0.125)];
    [(-0.125, -0.125, 0.125); (-0.125, 0.125, 0.125)];
    [(0.375, -0.375, 0.375); (0, -0.25, -0.25); (-0.125, 0.125, -0.125); (0.25, 0.25, 0)];
    [(0, -0.25, 0.25); (0, -0.25, 0.25); (-0.125, -0.125, 0.125)];
    [(0, 0, 0.5); (0.25, -0.25, 0.25); (0.125, -0.125, 0.125)];
    [(0, -0.25, 0.25); (0, -0.25, 0.25)];
    [(-0.125, -0.125, 0.125); (-0.25, -0.25, 0); (0.25, 0.25, -0.0)];
    [(-0.125, -0.125, 0.125); (-0.125, -0.125, 0.125)];
    [(0.125, 0.125, 0.125); (-0.125, -0.125, 0.125)];
    [(-0.125, -0.125, 0.125)];
    [(-0.25, -0.25, 0); (-0.25, -0.25, 0)];
    [(0.125, 0.125, 0.125); (-0.25, -0.25, 0); (-0.25, -0.25, 0)];
    [(-0.25, -0.25, 0); (-0.25, -0.25, 0); (-0.125, -0.125, 0.125)];
    [(-0.25, -0.25, 0); (-0.25, -0.25, 0); (-0.25, -0.25, 0); (0.25, 0.25, -0.0)];
    [(0, 0.5, 0); (0.25, 0.25, -0.25); (-0.125, -0.125, 0.125)];
    [(-0.375, 0.375, -0.375); (-0.25, -0.25, 0); (-0.125, 0.125, -0.125); (-0.25, 0, 0.25)];
    [(0, 0.5, 0); (0.25, 0.25, -0.25); (-0.125, -0.125, 0.125); (-0.125, -0.125, 0.125)];
    [(-0.125, 0.125, 0.125); (0.25, -0.25, 0); (-0.25, 0.25, 0)];
    [(0, -0.5, 0); (-0.25, -0.25, -0.25); (-0.125, -0.125, -0.125)];
    [(0.125, 0.125, 0.125); (0, -0.5, 0); (-0.25, -0.25, -0.25); (-0.125, -0.125, -0.125)];
    [(-0.375, -0.375, -0.375); (-0.25, 0, 0.25); (-0.125, -0.125, -0.125); (-0.25, 0.25, 0)];
    [(0.25, -0.25, 0); (-0.25, 0.25, 0); (0.125, -0.125, 0.125)];
    [(0, 0.5, 0); (0, -0.5, 0)];
    [(0, 0.5, 0); (0.125, -0.125, 0.125); (-0.25, 0.25, -0.25)];
    [(0, 0.5, 0); (-0.25, 0.25, 0.25); (0.125, -0.125, -0.125)];
    [(0.25, -0.25, 0); (-0.25, 0.25, 0)];
    [(-0.5, 0, 0); (-0.25, -0.25, 0.25); (-0.125, -0.125, 0.125)];
    [(0, 0.25, -0.25); (0.375, -0.375, -0.375); (-0.125, 0.125, 0.125); (0.25, 0.25, 0)];
    [(0.5, 0, 0); (0.25, -0.25, 0.25); (-0.125, 0.125, -0.125); (0.125, -0.125, 0.125)];
    [(0.125, -0.125, 0.125); (0.25, -0.25, 0); (0.25, -0.25, 0)];
    [(0.25, 0.25, -0.25); (0.25, 0.25, -0.25); (0.125, 0.125, -0.125); (-0.125, -0.125, 0.125)];
    [(-0.0, 0, 0.5); (-0.25, -0.25, 0.25); (-0.125, -0.125, 0.125)];
    [(0.125, 0.125, 0.125); (0.125, -0.125, 0.125); (-0.125, 0.125, 0.125)];
    [(-0.125, 0.125, 0.125); (0.125, -0.125, 0.125)];
    [(-0.375, -0.375, 0.375); (-0.0, 0.25, 0.25); (0.125, 0.125, -0.125); (-0.25, -0.0, -0.25)];
    [(0, -0.25, 0.25); (0, 0.25, -0.25); (0.125, -0.125, 0.125)];
    [(0.125, -0.125, 0.125); (-0.25, -0.0, -0.25); (0.25, 0, 0.25)];
    [(0.125, -0.125, 0.125); (0.125, -0.125, 0.125)];
    [(0, -0.5, 0); (0.125, 0.125, -0.125); (0.25, 0.25, -0.25)];
    [(0, -0.25, 0.25); (0, 0.25, -0.25)];
    [(0.125, 0.125, 0.125); (0.125, -0.125, 0.125)];
    [(0.125, -0.125, 0.125)];
    [(-0.5, 0, 0); (-0.125, -0.125, -0.125); (-0.25, -0.25, -0.25)];
    [(-0.5, 0, 0); (-0.125, -0.125, -0.125); (-0.25, -0.25, -0.25); (0.125, 0.125, 0.125)];
    [(0.375, 0.375, 0.375); (0, 0.25, -0.25); (-0.125, -0.125, -0.125); (-0.25, 0.25, 0)];
    [(0.125, -0.125, -0.125); (0.25, -0.25, 0); (0.25, -0.25, 0)];
    [(0.125, 0.125, 0.125); (0.375, 0.375, 0.375); (0, -0.25, 0.25); (-0.25, 0, 0.25)];
    [(-0.25, 0, 0.25); (-0.25, 0, 0.25); (0.125, -0.125, -0.125)];
    [(0, -0.25, -0.25); (0, 0.25, 0.25); (-0.125, 0.125, 0.125)];
    [(-0.125, 0.125, 0.125); (0.125, -0.125, -0.125)];
    [(-0.125, -0.125, -0.125); (-0.25, -0.25, -0.25); (0.25, 0.25, 0.25); (0.125, 0.125, 0.125)];
    [(-0.125, -0.125, 0.125); (0.125, -0.125, 0.125); (0.125, -0.125, -0.125)];
    [(0, 0, -0.5); (0.25, 0.25, 0.25); (-0.125, -0.125, -0.125)];
    [(0.125, -0.125, 0.125); (0.125, -0.125, -0.125)];
    [(0, -0.5, 0); (0.25, 0.25, 0.25); (0.125, 0.125, 0.125)];
    [(-0.125, -0.125, 0.125); (0.125, -0.125, -0.125)];
    [(0, -0.25, -0.25); (0, 0.25, 0.25)];
    [(0.125, -0.125, -0.125)];
    [(0.5, 0, 0); (0.5, 0, 0)];
    [(-0.5, 0, 0); (-0.25, 0.25, 0.25); (-0.125, 0.125, 0.125)];
    [(0.5, 0, 0); (0.25, -0.25, 0.25); (-0.125, 0.125, -0.125)];
    [(0.25, -0.25, 0); (0.25, -0.25, 0)];
    [(0.5, 0, 0); (-0.25, -0.25, 0.25); (-0.125, -0.125, 0.125)];
    [(-0.25, 0, 0.25); (-0.25, 0, 0.25)];
    [(0.125, 0.125, 0.125); (-0.125, 0.125, 0.125)];
    [(-0.125, 0.125, 0.125)];
    [(0.5, 0, -0.0); (0.25, 0.25, 0.25); (0.125, 0.125, 0.125)];
    [(0.125, -0.125, 0.125); (-0.125, -0.125, 0.125)];
    [(-0.25, -0.0, -0.25); (0.25, 0, 0.25)];
    [(0.125, -0.125, 0.125)];
    [(-0.25, -0.25, 0); (0.25, 0.25, -0.0)];
    [(-0.125, -0.125, 0.125)];
    [(0.125, 0.125, 0.125)];
    [(0, 0, 0)]
   ])%float.

Fixpoint mapM {A B} (f : A -> result B) (l : list A) : result (list B) :=
  match l with
  | [] => Ok []
  | x :: l' => y <- f x ;; ys <- mapM f l' ;; Ok (y :: ys)
  end.

(** The body of the inner loop: the area of one scaled normal. *)
Definition normal_area (spacing : list float) (nrm : normal) : result float :=
  s1 <- tuple_get spacing 1 ;;
  s2 <- tuple_get spacing 2 ;;
  let n0 := (fst (fst nrm) * s1 * s2)%float in
  s0 <- tuple_get spacing 0 ;;
  s2 <- tuple_get spacing 2 ;;
  let n1 := (snd (fst nrm) * s0 * s2)%float in
  s0 <- tuple_get spacing 0 ;;
  s1 <- tuple_get spacing 1 ;;
  let n2 := (snd nrm * s0 * s1)%float in
  Ok (F64.norm [n0; n1; n2]).

(** The outer loop: [neighbour_code_to_surface_area], entry by entry. *)
Definition neighbour_code_to_surface_area (table : list (list normal))
    (spacing : list float) : result (list float) :=
  mapM (fun normals =>
          areas <- mapM (normal_area spacing) normals ;;
          Ok (fold_left PrimFloat.add areas 0%float))
       table.

Definition kernel : ndarray Z :=
  {| shape := [2; 2; 2]; data := [128; 64; 32; 16; 8; 4; 2; 1]%Z |}.

(** [a[r0, r1, ...]] with one [start:stop] per leading axis. *)
Fixpoint slice_shape (r : list (nat * nat)) (sh : list nat) : list nat :=
  match r, sh with
  | (a, b) :: r', d :: sh' => (Nat.min b d - Nat.min a d) :: slice_shape r' sh'
  | _, _ => sh
  end.

Fixpoint slice_index (r : list (nat * nat)) (idx : list nat) : list nat :=
  match r, idx with
  | (a, _) :: r', i :: idx' => (a + i) :: slice_index r' idx'
  | _, _ => idx
  end.

Definition basic_slice (a : ndarray Z) (r : list (nat * nat)) : result (ndarray Z) :=
  if ndim a <? length r then Raise IndexError_too_many
  else Ok (tabulate (slice_shape r (shape a))
             (fun idx => get 0%Z a (slice_index r idx))).

(** Assignment into a view of shape [dst]: leading axes of length 1 that
    the value has in excess are dropped, then the value is broadcast. *)
Fixpoint strip_units (excess : nat) (sh : list nat) : list nat :=
  match excess, sh with
  | S e, 1 :: sh' => strip_units e sh'
  | _, _ => sh
  end.

Fixpoint fits_rev (src dst : list nat) : bool :=
  match src, dst with
  | [], _ => true
  | _ :: _, [] => false
  | s :: src', d :: dst' => ((s =? d) || (s =? 1)) && fits_rev src' dst'
  end.

Definition assign_broadcast (value : ndarray Z) (dst : list nat)
    : result (ndarray Z) :=
  let src := strip_units (ndim value - length dst) (shape value) in
  if fits_rev (rev src) (rev dst)
  then Ok (broadcast_to 0%Z {| shape := src; data := data value |} dst)
  else Raise ValueError_setitem.

(** [cropmask = np.zeros((bbox_max - bbox_min) + 2, np.uint8)] followed by
    [cropmask[0:-1, 0:-1, 0:-1] = arr[bbox_min[0]:bbox_max[0] + 1, ...]]. *)
Definition cropmask (arr : ndarray Z) (bbox_min bbox_max : list nat)
    : result (ndarray Z) :=
  let extent := map (fun p => snd p - fst p + 2) (combine bbox_min bbox_max) in
  let inner := map (fun e => e - 1) extent in
  value <- basic_slice arr
             (map (fun p => (fst p, snd p + 1)) (combine bbox_min bbox_max)) ;;
  view <- assign_broadcast value inner ;;
  Ok (tabulate extent
        (fun idx =>
           if forallb (fun p => fst p <? snd p) (combine idx inner)
           then Ndimage.uint8 (get 0%Z view idx)
           else 0%Z)).

Definition is_border (code : Z) : bool :=
  negb (code =? 0)%Z && negb (code =? 255)%Z.

Definition distmap (borders : ndarray bool) (spacing : list float)
    : result (ndarray float) :=
  if any borders
  then Ndimage.distance_transform_edt (ufunc1 negb borders) spacing
  else Ok (ufunc1 (fun _ => (infinity * 1)%float) borders).

(** The last step on one side: sort the pairs and split the columns. *)
Definition sort_surfels (distances areas : list float) : list float * list float :=
  if negb (length distances =? 0) then
    let sorted_surfels := F64.sorted (combine distances areas) in
    (map fst sorted_surfels, map snd sorted_surfels)
  else (distances, areas).

Definition empty_result : dict :=
  [("distances_gt_to_pred", []); ("distances_pred_to_gt", []);
   ("surfel_areas_gt", []); ("surfel_areas_pred", [])]%string.

(** The first statement of [_calculate]: 2-D inputs become 3-D ones with a
    last axis of length 1, and the spacing gets a third component 1.0. *)
Definition promote (segmentation_arr ground_truth_arr : ndarray Z)
    (spacing : list float) : ndarray Z * ndarray Z * list float :=
  if (ndim segmentation_arr =? 2) && (ndim ground_truth_arr =? 2)
     && (length spacing =? 2)
  then (expand_dims_last segmentation_arr, expand_dims_last ground_truth_arr,
        spacing ++ [1%float])
  else (segmentation_arr, ground_truth_arr, spacing).

(** [Distances._calculate]: the object after the call and the value the
    call returns. *)
Definition _calculate (self : Distances)
    (segmentation_arr ground_truth_arr : ndarray Z) (spacing : list float)
    : result (Distances * option dict) :=
  let '(segmentation_arr, ground_truth_arr, spacing) :=
    promote segmentation_arr ground_truth_arr spacing in
  neighbour_code_to_surface_area <-
    neighbour_code_to_surface_area (_neighbour_code_to_normals self) spacing ;;
  mask_all <- ufunc2 0%Z 0%Z Z.lor ground_truth_arr segmentation_arr ;;
  max_2 <- amax mask_all 2 ;;
  proj_0 <- amax max_2 1 ;;
  let idx_nonzero_0 := nonzero_0 proj_0 in
  if length idx_nonzero_0 =? 0 then Ok (self, Some empty_result)
  else
    bbox_min_0 <- min_1d idx_nonzero_0 ;;
    bbox_max_0 <- max_1d idx_nonzero_0 ;;
    max_2 <- amax mask_all 2 ;;
    proj_1 <- amax max_2 0 ;;
    let idx_nonzero_1 := nonzero_0 proj_1 in
    bbox_min_1 <- min_1d idx_nonzero_1 ;;
    bbox_max_1 <- max_1d idx_nonzero_1 ;;
    max_1 <- amax mask_all 1 ;;
    proj_2 <- amax max_1 0 ;;
    let idx_nonzero_2 := nonzero_0 proj_2 in
    bbox_min_2 <- min_1d idx_nonzero_2 ;;
    bbox_max_2 <- max_1d idx_nonzero_2 ;;
    let bbox_min := [bbox_min_0; bbox_min_1; bbox_min_2] in
    let bbox_max := [bbox_max_0; bbox_max_1; bbox_max_2] in
    cropmask_gt <- cropmask ground_truth_arr bbox_min bbox_max ;;
    cropmask_pred <- cropmask segmentation_arr bbox_min bbox_max ;;
    let neighbour_code_map_gt := Ndimage.correlate cropmask_gt kernel in
    let neighbour_code_map_pred := Ndimage.correlate cropmask_pred kernel in
    let borders_gt := ufunc1 is_border neighbour_code_map_gt in
    let borders_pred := ufunc1 is_border neighbour_code_map_pred in
    distmap_gt <- distmap borders_gt spacing ;;
    distmap_pred <- distmap borders_pred spacing ;;
    let area_of := fun code : Z =>
      nth (Z.to_nat code) neighbour_code_to_surface_area 0%float in
    let surface_area_map_gt := ufunc1 area_of neighbour_code_map_gt in
    let surface_area_map_pred := ufunc1 area_of neighbour_code_map_pred in
    let distances_gt_to_pred := boolean_index distmap_pred borders_gt in
    let distances_pred_to_gt := boolean_index distmap_gt borders_pred in
    let surfel_areas_gt := boolean_index surface_area_map_gt borders_gt in
    let surfel_areas_pred := boolean_index surface_area_map_pred borders_pred in
    let sorted_gt := sort_surfels distances_gt_to_pred surfel_areas_gt in
    let sorted_pred := sort_surfels distances_pred_to_gt surfel_areas_pred in
    Ok ({| distances_gt_to_pred := Some (fst sorted_gt);
           distances_pred_to_gt := Some (fst sorted_pred);
           surfel_areas_gt := Some (snd sorted_gt);
           surfel_areas_pred := Some (snd sorted_pred);
           _neighbour_code_to_normals := _neighbour_code_to_normals self |},
        None).

(** [Distances.__init__]: the value [_calculate] returns is dropped. *)
Definition Distances_init (prediction label : ndarray Z) (spacing : list float)
    : result Distances :=
  let self :=
    {| distances_gt_to_pred := None;
       distances_pred_to_gt := None;
       surfel_areas_gt := None;
       surfel_areas_pred := None;
       _neighbour_code_to_normals := neighbour_code_to_normals |} in
  r <- _calculate self prediction label spacing ;;
  Ok (fst r).

(* ================================================================== *)
(** ** VoxelWiseIndexing *)

Module Indexing.

Section WithIndexExpression.

(** [miapy.data.indexexpression.IndexExpression], built here from the
    list of one voxel's coordinates. *)
Variable IndexExpression : Type.
Variable new_IndexExpression : list nat -> IndexExpression.

Record VoxelWiseIndexing : Type := {
  shape : option (list nat);
  indexing : option (list IndexExpression);
  image_dimension : Z
}.

(** [VoxelWiseIndexing.__init__] *)
Definition VoxelWiseIndexing_init (image_dimension : Z) : VoxelWiseIndexing :=
  {| shape := None; indexing := None; image_dimension := image_dimension |}.

(** [shape[0:stop]] on a tuple. *)
Definition slice_to {A} (t : list A) (stop : Z) : list A :=
  if (stop <? 0)%Z then firstn (Z.to_nat (Z.of_nat (length t) + stop)) t
  else firstn (Z.to_nat stop) t.

(** [self.shape == shape] *)
Definition shape_eqb (saved : option (list nat)) (shape : list nat) : bool :=
  match saved with
  | None => false
  | Some s => if list_eq_dec Nat.eq_dec s shape then true else false
  end.

(** [np.indices(dimensions)] *)
Definition indices (dimensions : list nat) : ndarray nat :=
  tabulate (length dimensions :: dimensions)
    (fun idx => nth (hd 0 idx) (tl idx) 0).

(** [np.prod] of a shape is an integer, but of the empty tuple it is
    the float 1.0, which [reshape] refuses. *)
Definition reshape_rows (a : ndarray nat) : result (ndarray nat) :=
  match tl (Np.shape a) with
  | [] => Raise TypeError_not_integer
  | rest => Ok {| Np.shape := [hd 0 (Np.shape a); size_of rest];
                  data := data a |}
  end.

Definition transpose (a : ndarray nat) : ndarray nat :=
  tabulate (rev (Np.shape a)) (fun idx => get 0 a (rev idx)).

(** Iterating over a 2-D array: its rows, each as a list. *)
Definition rows (a : ndarray nat) : list (list nat) :=
  map (fun i => map (fun j => get 0 a [i; j])
                    (seq 0 (nth 1 (Np.shape a) 0)))
      (seq 0 (hd 0 (Np.shape a))).

(** [VoxelWiseIndexing.__call__]: what the call does (returns or
    raises) and the object afterwards. *)
Definition VoxelWiseIndexing_call (self : VoxelWiseIndexing)
    (shape_ : list nat)
    : result (option (list IndexExpression)) * VoxelWiseIndexing :=
  if shape_eqb (shape self) shape_ then (Ok (indexing self), self)
  else
    let self := {| shape := Some shape_;
                   indexing := indexing self;
                   image_dimension := image_dimension self |} in
    let shape_without_voxel := slice_to shape_ (image_dimension self) in
    let indices := indices shape_without_voxel in
    match reshape_rows indices with
    | Raise e => (Raise e, self)
    | Ok indices =>
        let indices := transpose indices in
        let self := {| shape := shape self;
                       indexing := Some (map new_IndexExpression (rows indices));
                       image_dimension := image_dimension self |} in
        (Ok (indexing self), self)
    end.

End WithIndexExpression.

(** One object called with one shape after the other: what each call
    does, and the object at the end. *)
Section Runs.

Variable IndexExpression : Type.
Variable new_IndexExpression : list nat -> IndexExpression.

Fixpoint calls (self : VoxelWiseIndexing IndexExpression)
    (shapes : list (list nat))
    : list (result (option (list IndexExpression)))
      * VoxelWiseIndexing IndexExpression :=
  match shapes with
  | [] => ([], self)
  | s :: shapes' =>
      let (r, self) := VoxelWiseIndexing_call new_IndexExpression self s in
      let (rs, self) := calls self shapes' in
      (r :: rs, self)
  end.

End Runs.

(** *** SliceIndexing *)

Section WithSliceExpression.

Variable IndexExpression : Type.
(** [IndexExpression(i, axis)]: the slice [i] along [axis]. *)
Variable new_IndexExpression_at : nat -> Z -> IndexExpression.

(** The argument of the constructor: one axis or a tuple of axes. *)
Inductive slice_axis_arg : Type :=
| Axis (axis : Z)
| Axes (axes : list Z).

Record SliceIndexing : Type := { slice_axis : list Z }.

(** [SliceIndexing.__init__] *)
Definition SliceIndexing_init (slice_axis : slice_axis_arg) : SliceIndexing :=
  match slice_axis with
  | Axis axis => {| slice_axis := [axis] |}
  | Axes axes => {| slice_axis := axes |}
  end.

(** [t[i]] on a tuple: a negative index counts from the end. *)
Definition getitem {A} (t : list A) (i : Z) : result A :=
  let i := if (i <? 0)%Z then (i + Z.of_nat (length t))%Z else i in
  if (i <? 0)%Z then Raise IndexError_tuple else tuple_get t (Z.to_nat i).

(** The loop of [__call__], from the list built so far. *)
Fixpoint SliceIndexing_loop (axes : list Z) (shape : list nat)
    (indexing : list IndexExpression) : result (list IndexExpression) :=
  match axes with
  | [] => Ok indexing
  | axis :: axes' =>
      extent <- getitem shape axis ;;
      SliceIndexing_loop axes' shape
        (indexing ++ map (fun i => new_IndexExpression_at i axis) (seq 0 extent))
  end.

(** [SliceIndexing.__call__] *)
Definition SliceIndexing_call (self : SliceIndexing) (shape : list nat)
    : result (list IndexExpression) :=
  SliceIndexing_loop (slice_axis self) shape [].

End WithSliceExpression.

End Indexing.

(* ================================================================== *)
(** ** Vocabulary of the properties *)

(** *** Volumes *)

(** A mask entry: background or foreground. *)
Definition binary (z : Z) : Prop := z = 0%Z \/ z = 1%Z.

Definition all_background (a : ndarray Z) : Prop := Forall (eq 0%Z) (data a).

Definition zeros (sh : list nat) : ndarray Z :=
  {| shape := sh; data := repeat 0%Z (size_of sh) |}.

(** A volume with one foreground voxel. *)
Definition voxel (sh at_ : list nat) : ndarray Z :=
  tabulate sh (fun idx => if list_eq_dec Nat.eq_dec idx at_ then 1%Z else 0%Z).

(** Scenario B: one ground-truth voxel in the middle of a 5x5x5 grid, no
    prediction. *)
Definition scenario_B_prediction : ndarray Z := zeros [5; 5; 5].
Definition scenario_B_label : ndarray Z := voxel [5; 5; 5] [2; 2; 2].

(** A volume without negative entries, as every boolean or unsigned mask. *)
Definition nonnegative (a : ndarray Z) : Prop :=
  Forall (fun z => (0 <= z)%Z) (data a).

(** The maximum along an axis of length [S k], read at an index. *)
Definition axis_max (a : ndarray Z) (axis k : nat) (idx : list nat) : Z :=
  fold_left Z.max
    (map (fun t => get 0%Z a (insert_at axis t idx)) (seq 1 k))
    (get 0%Z a (insert_at axis 0 idx)).

(** The number of positions where the prediction is [x] and the label [y]. *)
Definition count_pairs (x y : Z) (dp dl : list Z) : nat :=
  length (filter (fun q => (fst q =? x)%Z && (snd q =? y)%Z) (combine dp dl)).

(** *** float64 *)

Definition SFsign_is (sx : bool) (x : spec_float) : Prop :=
  match x with
  | S754_nan => False
  | S754_zero s | S754_infinity s | S754_finite s _ _ => s = sx
  end.

Definition SFnonnan (x : spec_float) : Prop := x <> S754_nan.

Definition SFfinite_nonzero (x : spec_float) : Prop :=
  match x with S754_finite _ _ _ => True | _ => False end.

(** A float that is not NaN. *)
Definition nonnan (x : float) : Prop := SFnonnan (Prim2SF x).

(** A float that is not NaN and has the sign bit clear: +0, a positive
    number or +infinity. *)
Definition nonneg (x : float) : Prop := SFsign_is false (Prim2SF x).

(** A voxel size: a positive real number. *)
Definition positive_finite (x : float) : Prop :=
  ((0 <? x) && (x <? infinity))%float = true.

(** A key in Z x Z x Z whose lexicographic order is the order of the
    floats: the class (-infinity, negative, zero, positive, +infinity),
    then exponent and mantissa, both negated for negative numbers. *)
Definition SFkey (x : spec_float) : Z * Z * Z :=
  match x with
  | S754_nan | S754_zero _ => (0, 0, 0)
  | S754_infinity s => (if s then -2 else 2, 0, 0)
  | S754_finite s m e => if s then (-1, - e, Z.neg m) else (1, e, Z.pos m)
  end%Z.

Definition key (x : float) : Z * Z * Z := SFkey (Prim2SF x).

Definition lt3 (a b : Z * Z * Z) : Prop :=
  (fst (fst a) < fst (fst b)
   \/ fst (fst a) = fst (fst b)
      /\ (snd (fst a) < snd (fst b)
          \/ snd (fst a) = snd (fst b) /\ snd a < snd b))%Z.

Definition cmp3 (a b : Z * Z * Z) : comparison :=
  match (fst (fst a) ?= fst (fst b))%Z with
  | Eq => match (snd (fst a) ?= snd (fst b))%Z with
          | Eq => (snd a ?= snd b)%Z
          | c => c
          end
  | c => c
  end.

(** *** Sequences of distances and areas *)


(** The order [sorted] puts tuples in: by the first item, and among equal
    first items by the second. *)
Definition lex_le (p q : float * float) : Prop :=
  (fst p <? fst q)%float = true
  \/ (fst p =? fst q)%float = true /\ (snd p <=? snd q)%float = true.

(** Among the entries of equal distance the areas do not decrease. *)
Definition ties_by_area (ds ars : list float) : Prop :=
  forall i j, i < j < length ds ->
    (nth i ds 0 =? nth j ds 0)%float = true ->
    (nth i ars 0 <=? nth j ars 0)%float = true.

Definition nonnan_pair (p : float * float) : Prop := nonnan (fst p) /\ nonnan (snd p).

Definition lex_key_le (p q : float * float) : Prop :=
  lt3 (key (fst p)) (key (fst q))
  \/ key (fst p) = key (fst q) /\ ~ lt3 (key (snd q)) (key (snd p)).

(** *** The stages of [_calculate] *)

(** One entry of the area table once the spacing is known to have its
    three components. *)
Definition area_of_normal (s0 s1 s2 : float) (nrm : normal) : float :=
  F64.norm [fst (fst nrm) * s1 * s2; snd (fst nrm) * s0 * s2; snd nrm * s0 * s1]%float.

Definition area_of_code (s0 s1 s2 : float) (normals : list normal) : float :=
  fold_left PrimFloat.add (map (area_of_normal s0 s1 s2) normals) 0%float.

(** No component of the normal is NaN. *)
Definition normal_ok (nrm : normal) : bool :=
  (fst (fst nrm) =? fst (fst nrm))%float
  && (snd (fst nrm) =? snd (fst nrm))%float
  && (snd nrm =? snd nrm)%float.

(** The part of [_calculate] that does not look at the spacing: from the
    two volumes to the two maps of neighbour codes, or to nothing when the
    union mask has no foreground. *)
Definition neighbour_code_maps (segmentation_arr ground_truth_arr : ndarray Z)
    : result (option (ndarray Z * ndarray Z)) :=
  mask_all <- ufunc2 0%Z 0%Z Z.lor ground_truth_arr segmentation_arr ;;
  max_2 <- amax mask_all 2 ;;
  proj_0 <- amax max_2 1 ;;
  let idx_nonzero_0 := nonzero_0 proj_0 in
  if length idx_nonzero_0 =? 0 then Ok None
  else
    bbox_min_0 <- min_1d idx_nonzero_0 ;;
    bbox_max_0 <- max_1d idx_nonzero_0 ;;
    max_2 <- amax mask_all 2 ;;
    proj_1 <- amax max_2 0 ;;
    let idx_nonzero_1 := nonzero_0 proj_1 in
    bbox_min_1 <- min_1d idx_nonzero_1 ;;
    bbox_max_1 <- max_1d idx_nonzero_1 ;;
    max_1 <- amax mask_all 1 ;;
    proj_2 <- amax max_1 0 ;;
    let idx_nonzero_2 := nonzero_0 proj_2 in
    bbox_min_2 <- min_1d idx_nonzero_2 ;;
    bbox_max_2 <- max_1d idx_nonzero_2 ;;
    let bbox_min := [bbox_min_0; bbox_min_1; bbox_min_2] in
    let bbox_max := [bbox_max_0; bbox_max_1; bbox_max_2] in
    cropmask_gt <- cropmask ground_truth_arr bbox_min bbox_max ;;
    cropmask_pred <- cropmask segmentation_arr bbox_min bbox_max ;;
    Ok (Some (Ndimage.correlate cropmask_gt kernel,
              Ndimage.correlate cropmask_pred kernel)).

(** The part after the neighbour codes: the sorted (distances, areas) of
    the ground truth and of the prediction. *)
Definition surfels (neighbour_code_to_surface_area spacing : list float)
    (neighbour_code_map_gt neighbour_code_map_pred : ndarray Z)
    : result ((list float * list float) * (list float * list float)) :=
  let borders_gt := ufunc1 is_border neighbour_code_map_gt in
  let borders_pred := ufunc1 is_border neighbour_code_map_pred in
  distmap_gt <- distmap borders_gt spacing ;;
  distmap_pred <- distmap borders_pred spacing ;;
  let area_of := fun code : Z =>
    nth (Z.to_nat code) neighbour_code_to_surface_area 0%float in
  Ok (sort_surfels (boolean_index distmap_pred borders_gt)
        (boolean_index (ufunc1 area_of neighbour_code_map_gt) borders_gt),
      sort_surfels (boolean_index distmap_gt borders_pred)
        (boolean_index (ufunc1 area_of neighbour_code_map_pred) borders_pred)).

(** *** Masks and what a constructed [Distances] holds *)

(** [binary] as a test. *)
Definition binaryb (z : Z) : bool := (z =? 0)%Z || (z =? 1)%Z.

(** A volume has foreground at [idx]. *)
Definition foreground_at (a : ndarray Z) (idx : list nat) : Prop :=
  Forall2 lt idx (shape a) /\ get 0%Z a idx <> 0%Z.

(** The surface voxels of a map of neighbour codes. *)
Definition borders (codes : ndarray Z) : ndarray bool := ufunc1 is_border codes.

(** [neighbour_code_to_surface_area[neighbour_code_map]] *)
Definition surface_area_map (area : list float) (codes : ndarray Z) : ndarray float :=
  ufunc1 (fun code : Z => nth (Z.to_nat code) area 0%float) codes.

(** One side of the result: the distances read from the distance map of
    the other side, the areas from the own area map, both at the own
    surface voxels, then sorted. *)
Definition side (area : list float) (codes : ndarray Z) (distmap_other : ndarray float)
    : list float * list float :=
  sort_surfels (boolean_index distmap_other (borders codes))
    (boolean_index (surface_area_map area codes) (borders codes)).

(** No attribute has been assigned. *)
Definition untouched (d : Distances) : Prop :=
  distances_gt_to_pred d = None /\ distances_pred_to_gt d = None
  /\ surfel_areas_gt d = None /\ surfel_areas_pred d = None.

(** What [_calculate] computed on the way to [d]: promoted inputs, area
    table, neighbour codes and the two distance maps. *)
Definition computed (prediction label : ndarray Z) (spacing : list float)
    (d : Distances) (spacing' area : list float) (codes_gt codes_pred : ndarray Z)
    (distmap_gt distmap_pred : ndarray float) : Prop :=
  spacing' = snd (promote prediction label spacing)
  /\ neighbour_code_to_surface_area neighbour_code_to_normals spacing' = Ok area
  /\ neighbour_code_maps (fst (fst (promote prediction label spacing)))
       (snd (fst (promote prediction label spacing)))
     = Ok (Some (codes_gt, codes_pred))
  /\ distmap (borders codes_gt) spacing' = Ok distmap_gt
  /\ distmap (borders codes_pred) spacing' = Ok distmap_pred
  /\ distances_gt_to_pred d = Some (fst (side area codes_gt distmap_pred))
  /\ surfel_areas_gt d = Some (snd (side area codes_gt distmap_pred))
  /\ distances_pred_to_gt d = Some (fst (side area codes_pred distmap_gt))
  /\ surfel_areas_pred d = Some (snd (side area codes_pred distmap_gt)).

(** All four attributes hold a sequence. *)
Definition all_set (d : Distances) : Prop :=
  exists ds_gt as_gt ds_pred as_pred,
    distances_gt_to_pred d = Some ds_gt /\ surfel_areas_gt d = Some as_gt
    /\ distances_pred_to_gt d = Some ds_pred /\ surfel_areas_pred d = Some as_pred.

(** The object with the roles of ground truth and prediction exchanged. *)
Definition swap_sides (d : Distances) : Distances :=
  {| distances_gt_to_pred := distances_pred_to_gt d;
     distances_pred_to_gt := distances_gt_to_pred d;
     surfel_areas_gt := surfel_areas_pred d;
     surfel_areas_pred := surfel_areas_gt d;
     _neighbour_code_to_normals := _neighbour_code_to_normals d |}.

(** *** Neighbour codes *)

(** The eight voxels that meet at the corner [idx] of a zero-padded
    volume: those at [idx - 1] and [idx] along each axis, in the order of
    the kernel. *)
Definition neighbourhood (a : ndarray Z) (idx : list nat) : list Z :=
  map (fun m =>
         Ndimage.get_constant a
           (map (fun t => (Z.of_nat (fst t) + Z.of_nat (snd t) - 1)%Z)
                (combine idx (unravel (shape kernel) m))))
      (seq 0 (size kernel)).

(** The neighbour code of eight voxels. *)
Definition code_of (neighbours : list Z) : Z :=
  Ndimage.uint8
    (fold_left Z.add (map (fun p => (fst p * snd p)%Z) (combine neighbours (data kernel)))
       0%Z).

(** *** Indexing *)

(** The voxels of an image of shape [dims], in C order. *)
Definition voxels (dims : list nat) : list (list nat) :=
  map (unravel dims) (seq 0 (size_of dims)).

(** An axis a tuple of length [n] can be indexed with. *)
Definition axis_in_range (n : nat) (axis : Z) : Prop :=
  (- Z.of_nat n <= axis < Z.of_nat n)%Z.

(** The position an axis stands for in a tuple of length [n]. *)
Definition axis_position (n : nat) (axis : Z) : nat :=
  Z.to_nat (if (axis <? 0)%Z then axis + Z.of_nat n else axis)%Z.

(** What a list of calls gives on objects that are fresh for each call. *)
Definition fresh_calls {IndexExpression : Type}
    (new_IndexExpression : list nat -> IndexExpression) (image_dimension : Z)
    (shapes : list (list nat)) : list (result (option (list IndexExpression))) :=
  map (fun s =>
         fst (Indexing.VoxelWiseIndexing_call new_IndexExpression
                (Indexing.VoxelWiseIndexing_init IndexExpression image_dimension) s))
      shapes.

(** The remembered list is the one a fresh object computes for the
    remembered shape. *)
Definition cache_valid {IndexExpression : Type}
    (new_IndexExpression : list nat -> IndexExpression)
    (self : Indexing.VoxelWiseIndexing IndexExpression) : Prop :=
  forall s, Indexing.shape self = Some s ->
            fst (Indexing.VoxelWiseIndexing_call new_IndexExpression
                   (Indexing.VoxelWiseIndexing_init IndexExpression
                      (Indexing.image_dimension self)) s)
            = Ok (Indexing.indexing self).


(* ================================================================== *)
(** * Properties *)

(** ** Arrays *)

Section ArrayFacts.
Context {A : Type}.
Implicit Types (a : ndarray A) (sh idx : list nat).

Lemma nth_map_seq (f : nat -> A) (len k : nat) (d : A) :
  k < len -> nth k (map f (seq 0 len)) d = f k.
Proof.
  intros Hk.
  rewrite (nth_indep _ d (f 0)) by now rewrite length_map, length_seq.
  now rewrite map_nth, seq_nth.
Qed.

Lemma tabulate_length sh (f : list nat -> A) :
  length (data (tabulate sh f)) = size_of sh.
Proof. unfold tabulate; simpl. now rewrite length_map, length_seq. Qed.

Lemma unravel_bounded sh : forall k, k < size_of sh -> Forall2 lt (unravel sh k) sh.
Proof.
  induction sh as [|d sh IH]; intros k Hk; simpl in *; [constructor|].
  assert (Hpos : size_of sh <> 0) by (intros E; rewrite E in Hk; lia).
  constructor.
  - apply Nat.Div0.div_lt_upper_bound. lia.
  - apply IH. now apply Nat.mod_upper_bound.
Qed.

Lemma ravel_unravel sh : forall k, k < size_of sh -> ravel sh (unravel sh k) = k.
Proof.
  induction sh as [|d sh IH]; intros k Hk; simpl in *; [lia|].
  assert (Hpos : size_of sh <> 0) by (intros E; rewrite E in Hk; lia).
  rewrite IH by now apply Nat.mod_upper_bound.
  pose proof (Nat.div_mod_eq k (size_of sh)). lia.
Qed.

Lemma stretch_bounded sh : forall idx, Forall2 lt idx sh -> stretch sh idx = idx.
Proof.
  induction sh as [|d sh IH]; intros idx H; inversion H; subst; simpl; auto.
  rewrite IH by assumption.
  destruct (d =? 1) eqn:E; [apply Nat.eqb_eq in E; f_equal; lia | reflexivity].
Qed.

Lemma broadcast_index_same sh k :
  k < size_of sh -> broadcast_index sh (unravel sh k) = unravel sh k.
Proof.
  intros Hk. unfold broadcast_index.
  pose proof (unravel_bounded sh Hk) as Hb.
  rewrite (Forall2_length Hb), Nat.sub_diag. simpl.
  now apply stretch_bounded.
Qed.

(** Broadcasting an array to its own shape leaves it as it is. *)
Lemma broadcast_to_same (d : A) a :
  wf a -> data (broadcast_to d a (shape a)) = data a.
Proof.
  unfold wf, size. intros Hwf.
  apply (nth_ext _ _ d d).
  - unfold broadcast_to. now rewrite tabulate_length.
  - intros k Hk. unfold broadcast_to in *. rewrite tabulate_length in Hk.
    unfold tabulate; simpl.
    rewrite nth_map_seq by assumption.
    unfold get. now rewrite broadcast_index_same, ravel_unravel.
Qed.

End ArrayFacts.

Lemma broadcast_rev_same r : broadcast_rev r r = Some r.
Proof.
  induction r as [|d r IH]; simpl; [reflexivity|].
  now rewrite IH, Nat.eqb_refl.
Qed.

Lemma broadcast_shapes_same sh : broadcast_shapes sh sh = Some sh.
Proof.
  unfold broadcast_shapes. rewrite broadcast_rev_same. simpl.
  now rewrite rev_involutive.
Qed.

(** On arrays of one shape a binary ufunc works element by element. *)
Lemma ufunc2_same_shape {A B C} (da : A) (db : B) (f : A -> B -> C) a b :
  wf a -> wf b -> shape a = shape b ->
  ufunc2 da db f a b =
  Ok {| shape := shape a;
        data := map (fun p => f (fst p) (snd p)) (combine (data a) (data b)) |}.
Proof.
  intros Ha Hb E. unfold ufunc2.
  rewrite <- E, broadcast_shapes_same.
  rewrite (broadcast_to_same da Ha).
  rewrite E at 2. now rewrite (broadcast_to_same db Hb).
Qed.

(** ** ConfusionMatrix *)

Lemma sum_bool_and (x y : Z) (dp : list Z) : forall dl sh,
  sum_bool {| shape := sh;
              data := map (fun q => fst q && snd q)
                        (combine (map (fun v => (v =? x)%Z) dp)
                                 (map (fun v => (v =? y)%Z) dl)) |}
  = count_pairs x y dp dl.
Proof.
  unfold sum_bool, count_pairs; simpl.
  induction dp as [|v dp IH]; intros [|w dl] sh; simpl; try reflexivity.
  specialize (IH dl sh).
  destruct ((v =? x)%Z && (w =? y)%Z); simpl; now rewrite IH.
Qed.

Lemma count_and_same_shape prediction label x y :
  wf prediction -> wf label -> shape prediction = shape label ->
  count_and prediction label x y
  = Ok (count_pairs x y (data prediction) (data label)).
Proof.
  intros Hp Hl E. unfold count_and.
  rewrite ufunc2_same_shape; simpl.
  - now rewrite sum_bool_and.
  - unfold wf, size in *; simpl. now rewrite length_map.
  - unfold wf, size in *; simpl. now rewrite length_map.
  - assumption.
Qed.

Lemma count_pairs_partition (dp : list Z) : forall dl,
  length dp = length dl -> Forall binary dp -> Forall binary dl ->
  count_pairs 1 1 dp dl + count_pairs 0 0 dp dl
  + count_pairs 1 0 dp dl + count_pairs 0 1 dp dl = length dp.
Proof.
  unfold count_pairs.
  induction dp as [|v dp IH]; intros [|w dl] Hlen Hp Hl; simpl in *;
    try reflexivity; try discriminate.
  inversion Hp as [|? ? Hv Hp']; inversion Hl as [|? ? Hw Hl']; subst.
  specialize (IH dl (eq_add_S _ _ Hlen) Hp' Hl').
  destruct Hv as [-> | ->], Hw as [-> | ->]; simpl; lia.
Qed.

(** C4, as amended: on volumes of one shape whose entries are all 0 or 1
    the constructor returns, its four counts add up to [n], and [n] is the
    number of voxels. *)
Theorem confusion_completeness (prediction label : ndarray Z) :
  wf prediction -> wf label -> shape prediction = shape label ->
  Forall binary (data prediction) -> Forall binary (data label) ->
  exists cm, ConfusionMatrix_init prediction label = Ok cm
             /\ tp cm + tn cm + fp cm + fn cm = n cm
             /\ n cm = length (data prediction).
Proof.
  intros Hp Hl E Bp Bl. unfold ConfusionMatrix_init.
  rewrite !count_and_same_shape by assumption. simpl.
  eexists; split; [reflexivity|]. simpl. split.
  - rewrite count_pairs_partition; auto.
    unfold wf, size in *. congruence.
  - symmetry. exact Hp.
Qed.

Lemma confusion_completeness_witness :
  exists cm,
    ConfusionMatrix_init {| shape := [2; 1]; data := [1; 0]%Z |}
                         {| shape := [2; 1]; data := [1; 1]%Z |} = Ok cm
    /\ tp cm + tn cm + fp cm + fn cm = n cm
    /\ n cm = 2.
Proof.
  apply (@confusion_completeness
           {| shape := [2; 1]; data := [1; 0]%Z |}
           {| shape := [2; 1]; data := [1; 1]%Z |});
    try reflexivity;
    repeat (apply Forall_cons; [unfold binary; lia|]); apply Forall_nil.
Defined.

(** C4 as stated fails: a voxel labelled 2 is counted in none of the four
    cells, but it is counted in [n]. *)
Lemma confusion_completeness_arbitrary_contents :
  let prediction := {| shape := [1]; data := [2%Z] |} in
  let label := {| shape := [1]; data := [0%Z] |} in
  wf prediction /\ wf label /\ shape prediction = shape label /\
  exists cm, ConfusionMatrix_init prediction label = Ok cm
             /\ tp cm + tn cm + fp cm + fn cm <> n cm.
Proof.
  cbv zeta. do 3 (split; [reflexivity|]).
  eexists; split; [vm_compute; reflexivity|]. simpl. lia.
Qed.

(** ** Promotion of 2-D inputs *)

(** C7: on 2-D masks with a spacing of two components the constructor does
    exactly what it does on the masks with a last axis of length 1 added
    and the spacing extended by 1.0. *)
Theorem promotion_2d_3d (prediction label : ndarray Z) (sx sy : float) :
  ndim prediction = 2 -> ndim label = 2 ->
  Distances_init prediction label [sx; sy]
  = Distances_init (expand_dims_last prediction) (expand_dims_last label)
      [sx; sy; 1%float].
Proof.
  intros Hp Hl. unfold Distances_init, _calculate, promote.
  rewrite Hp, Hl. simpl.
  unfold ndim, expand_dims_last; simpl. rewrite !length_app; simpl.
  unfold ndim in Hp, Hl. rewrite Hp, Hl. reflexivity.
Qed.

Lemma promotion_2d_3d_witness :
  Distances_init {| shape := [2; 2]; data := [0; 1; 0; 0]%Z |}
                 {| shape := [2; 2]; data := [0; 1; 1; 0]%Z |} [2; 3]%float
  = Distances_init {| shape := [2; 2; 1]; data := [0; 1; 0; 0]%Z |}
                   {| shape := [2; 2; 1]; data := [0; 1; 1; 0]%Z |}
      [2; 3; 1]%float.
Proof.
  exact (@promotion_2d_3d {| shape := [2; 2]; data := [0; 1; 0; 0]%Z |}
           {| shape := [2; 2]; data := [0; 1; 1; 0]%Z |} 2%float 3%float
           eq_refl eq_refl).
Defined.

(** ** The surface-area table *)

Lemma mapM_ok {A B} (f : A -> result B) (g : A -> B) (l : list A) :
  (forall x, f x = Ok (g x)) -> mapM f l = Ok (map g l).
Proof.
  intros H. induction l as [|x l IH]; simpl; [reflexivity|].
  now rewrite H, IH.
Qed.

Lemma neighbour_code_to_surface_area_ok table s0 s1 s2 rest :
  neighbour_code_to_surface_area table (s0 :: s1 :: s2 :: rest)
  = Ok (map (area_of_code s0 s1 s2) table).
Proof.
  unfold neighbour_code_to_surface_area. apply mapM_ok. intros normals.
  rewrite (mapM_ok _ (area_of_normal s0 s1 s2)); reflexivity.
Qed.

Lemma normal_area_short spacing nrm :
  length spacing < 3 -> normal_area spacing nrm = Raise IndexError_tuple.
Proof.
  destruct spacing as [|a [|b [|c rest]]]; simpl; intros H; try reflexivity; lia.
Qed.

Lemma neighbour_code_to_surface_area_short spacing :
  length spacing < 3 ->
  neighbour_code_to_surface_area neighbour_code_to_normals spacing
  = Raise IndexError_tuple.
Proof.
  intros H.
  assert (E : exists nrm ns rest, neighbour_code_to_normals = (nrm :: ns) :: rest)
    by (do 3 eexists; reflexivity).
  destruct E as (nrm & ns & rest & ->).
  unfold neighbour_code_to_surface_area. simpl.
  now rewrite normal_area_short.
Qed.

(** ** Shapes that do not fit *)

Lemma broadcast_rev_comm r1 : forall r2, broadcast_rev r1 r2 = broadcast_rev r2 r1.
Proof.
  induction r1 as [|d1 r1 IH]; intros [|d2 r2]; simpl; try reflexivity.
  rewrite IH. destruct (broadcast_rev r2 r1); [|reflexivity].
  rewrite (Nat.eqb_sym d2 d1).
  destruct (d1 =? d2) eqn:E; [apply Nat.eqb_eq in E; now subst|].
  destruct (d1 =? 1) eqn:E1, (d2 =? 1) eqn:E2; try reflexivity.
  apply Nat.eqb_eq in E1, E2. apply Nat.eqb_neq in E. lia.
Qed.

Lemma broadcast_shapes_comm s1 s2 : broadcast_shapes s1 s2 = broadcast_shapes s2 s1.
Proof. unfold broadcast_shapes. now rewrite broadcast_rev_comm. Qed.

Lemma broadcast_shapes_expand s1 s2 :
  broadcast_shapes s1 s2 = None -> broadcast_shapes (s1 ++ [1]) (s2 ++ [1]) = None.
Proof.
  unfold broadcast_shapes. rewrite !rev_app_distr. simpl.
  destruct (broadcast_rev (rev s1) (rev s2)); [discriminate | reflexivity].
Qed.

Lemma promote_incompatible p l sp :
  broadcast_shapes (shape p) (shape l) = None ->
  broadcast_shapes (shape (snd (fst (promote p l sp))))
                   (shape (fst (fst (promote p l sp)))) = None.
Proof.
  intros H. rewrite broadcast_shapes_comm. unfold promote.
  destruct (_ && _); simpl; [now apply broadcast_shapes_expand | assumption].
Qed.

(** C3, as amended.  Neither constructor checks shapes or the length of
    the spacing itself.  What does fail early: shapes that cannot be
    broadcast together stop [ConfusionMatrix] at its first count and
    [Distances] at the union mask, and a spacing of fewer than three
    components (after promotion) stops [Distances] in the area table;
    all of it before anything is cropped. *)
Theorem mismatch_raises (prediction label : ndarray Z) (spacing : list float) :
  (broadcast_shapes (shape prediction) (shape label) = None ->
   ConfusionMatrix_init prediction label = Raise ValueError_broadcast)
  /\ (length (snd (promote prediction label spacing)) < 3 ->
      Distances_init prediction label spacing = Raise IndexError_tuple)
  /\ (3 <= length (snd (promote prediction label spacing)) ->
      broadcast_shapes (shape prediction) (shape label) = None ->
      Distances_init prediction label spacing = Raise ValueError_broadcast).
Proof.
  split; [|split].
  - intros H. unfold ConfusionMatrix_init, count_and, ufunc2. simpl.
    now rewrite H.
  - intros H. unfold Distances_init, _calculate.
    destruct (promote prediction label spacing) as [[seg gt] sp']. simpl in *.
    now rewrite neighbour_code_to_surface_area_short.
  - intros Hlen H. unfold Distances_init, _calculate.
    pose proof (@promote_incompatible prediction label spacing H) as Hnone.
    destruct (promote prediction label spacing) as [[seg gt] sp']. simpl in *.
    destruct sp' as [|s0 [|s1 [|s2 rest]]]; simpl in Hlen; try lia.
    rewrite neighbour_code_to_surface_area_ok. simpl.
    unfold ufunc2. now rewrite Hnone.
Qed.

Lemma mismatch_raises_witness :
  ConfusionMatrix_init (zeros [2; 3]) (zeros [2; 2]) = Raise ValueError_broadcast
  /\ Distances_init (zeros [2; 2; 2]) (zeros [2; 2; 2]) [1; 1]%float
     = Raise IndexError_tuple
  /\ Distances_init (zeros [2; 3; 2]) (zeros [2; 2; 2]) [1; 1; 1]%float
     = Raise ValueError_broadcast.
Proof.
  split; [|split].
  - apply (proj1 (mismatch_raises (zeros [2; 3]) (zeros [2; 2]) [])).
    reflexivity.
  - apply (proj1 (proj2 (mismatch_raises (zeros [2; 2; 2]) (zeros [2; 2; 2])
                           [1; 1]%float))).
    simpl. lia.
  - apply (proj2 (proj2 (mismatch_raises (zeros [2; 3; 2]) (zeros [2; 2; 2])
                           [1; 1; 1]%float))).
    + simpl. lia.
    + reflexivity.
Defined.

(** C3 as stated fails: volumes of different shapes that broadcast go
    through [ConfusionMatrix], and a spacing that is too long goes through
    [Distances] when there is no foreground. *)
Lemma mismatch_not_rejected :
  (shape (zeros [1; 1]) <> shape (zeros [1; 2])
   /\ ConfusionMatrix_init (zeros [1; 1]) (zeros [1; 2])
      = Ok {| tp := 0; tn := 2; fp := 0; fn := 0; n := 1 |})
  /\ (length [1; 1; 1; 1; 1]%float <> ndim (zeros [4; 4; 4])
      /\ returns (Distances_init (zeros [4; 4; 4]) (zeros [4; 4; 4])
                    [1; 1; 1; 1; 1]%float) = true).
Proof.
  split; split; try discriminate; vm_compute; reflexivity.
Qed.

(** ** The early exit *)

Lemma nth_all_zero (l : list Z) k : Forall (eq 0%Z) l -> nth k l 0%Z = 0%Z.
Proof.
  intros H. revert k. induction H as [|x l Hx _ IH]; intros [|k]; simpl; auto.
Qed.

Lemma get_all_zero (a : ndarray Z) idx : all_background a -> get 0%Z a idx = 0%Z.
Proof. intros H. unfold get. now apply nth_all_zero. Qed.

Lemma tabulate_all_zero sh (f : list nat -> Z) :
  (forall idx, f idx = 0%Z) -> all_background (tabulate sh f).
Proof.
  intros H. unfold all_background, tabulate; simpl.
  apply Forall_forall. intros x Hx. apply in_map_iff in Hx.
  destruct Hx as [k [<- _]]. now rewrite H.
Qed.

Lemma lor_all_zero (a b : ndarray Z) m :
  all_background a -> all_background b ->
  ufunc2 0%Z 0%Z Z.lor a b = Ok m -> all_background m.
Proof.
  intros Ha Hb. unfold ufunc2.
  destruct (broadcast_shapes (shape a) (shape b)) as [sh|]; [|discriminate].
  intros [= <-]. unfold all_background; simpl.
  apply Forall_forall. intros x Hx. apply in_map_iff in Hx.
  destruct Hx as [[u v] [<- Hin]]. simpl.
  pose proof (in_combine_l _ _ _ _ Hin) as Hu.
  pose proof (in_combine_r _ _ _ _ Hin) as Hv.
  assert (Zu : all_background (broadcast_to 0%Z a sh))
    by (apply tabulate_all_zero; intros; now apply get_all_zero).
  assert (Zv : all_background (broadcast_to 0%Z b sh))
    by (apply tabulate_all_zero; intros; now apply get_all_zero).
  unfold all_background in Zu, Zv. rewrite Forall_forall in Zu, Zv.
  now rewrite <- (Zu _ Hu), <- (Zv _ Hv).
Qed.

Lemma fold_max_all_zero (l : list Z) :
  Forall (eq 0%Z) l -> fold_left Z.max l 0%Z = 0%Z.
Proof. induction 1 as [|x l <- _ IH]; simpl; auto. Qed.

Lemma amax_all_zero (a : ndarray Z) axis m :
  all_background a -> amax a axis = Ok m -> all_background m.
Proof.
  intros Ha. unfold amax.
  destruct (nth_error (shape a) axis) as [[|k]|]; try discriminate.
  intros [= <-]. apply tabulate_all_zero. intros idx.
  rewrite get_all_zero by assumption. apply fold_max_all_zero.
  apply Forall_forall. intros x Hx. apply in_map_iff in Hx.
  destruct Hx as [t [<- _]]. now rewrite get_all_zero.
Qed.

Lemma nonzero_0_all_zero (a : ndarray Z) : all_background a -> nonzero_0 a = [].
Proof.
  intros Ha. unfold nonzero_0.
  replace (filter _ _) with (@nil nat); [reflexivity|].
  symmetry. induction (seq 0 (size a)) as [|k ks IH]; simpl; [reflexivity|].
  now rewrite (nth_all_zero k Ha).
Qed.

Lemma promote_all_background p l sp :
  all_background p -> all_background l ->
  all_background (fst (fst (promote p l sp))) /\
  all_background (snd (fst (promote p l sp))).
Proof.
  intros Hp Hl. unfold promote.
  destruct (_ && _); simpl; auto.
Qed.

(** When the constructor returns on all-background inputs, it has gone
    through the early exit: [_calculate] has handed back the four empty
    sequences and has left the object as it was. *)
Lemma early_exit_drops_result (prediction label : ndarray Z)
    (spacing : list float) (d : Distances) :
  all_background prediction -> all_background label ->
  Distances_init prediction label spacing = Ok d ->
  _calculate d prediction label spacing = Ok (d, Some empty_result)
  /\ distances_gt_to_pred d = None /\ distances_pred_to_gt d = None
  /\ surfel_areas_gt d = None /\ surfel_areas_pred d = None.
Proof.
  intros Hp Hl. unfold Distances_init.
  set (self := {| distances_gt_to_pred := None |}).
  assert (Hc : forall r, _calculate self prediction label spacing = Ok r ->
                         r = (self, Some empty_result)).
  { intros r. unfold _calculate.
    destruct (promote_all_background spacing Hp Hl) as [Hs Hg].
    destruct (promote prediction label spacing) as [[seg gt] sp']; simpl in Hs, Hg.
    destruct (neighbour_code_to_surface_area _ sp'); simpl; [|discriminate].
    destruct (ufunc2 0%Z 0%Z Z.lor gt seg) as [mask_all|] eqn:Em; simpl; [|discriminate].
    pose proof (lor_all_zero Hg Hs Em) as Hm.
    destruct (amax mask_all 2) as [max_2|] eqn:E2; simpl; [|discriminate].
    pose proof (amax_all_zero _ Hm E2) as H2.
    destruct (amax max_2 1) as [proj_0|] eqn:E1; simpl; [|discriminate].
    rewrite (nonzero_0_all_zero (amax_all_zero _ H2 E1)). simpl.
    now intros [= <-]. }
  destruct (_calculate self prediction label spacing) as [r|] eqn:E; simpl;
    [|discriminate].
  pose proof (Hc _ eq_refl) as Hr. subst r. simpl.
  intros [= <-]. rewrite E. repeat split; reflexivity.
Qed.

Lemma amax_ok (a : ndarray Z) axis k :
  nth_error (shape a) axis = Some (S k) ->
  exists m, amax a axis = Ok m /\ shape m = remove_at axis (shape a).
Proof. intros H. unfold amax. rewrite H. eexists; split; reflexivity. Qed.

(** On 3-D volumes of one shape (no axis of length 0 after the first)
    and with a spacing of at least three components, the constructor gets
    to the first-axis projection. *)
Lemma first_projection_returns (self : Distances) (seg gt : ndarray Z)
    (spacing : list float) (d0 d1 d2 : nat) :
  shape seg = [d0; S d1; S d2] -> shape gt = [d0; S d1; S d2] ->
  3 <= length spacing ->
  exists area mask_all max_2 proj_0,
    promote seg gt spacing = (seg, gt, spacing)
    /\ neighbour_code_to_surface_area (_neighbour_code_to_normals self) spacing
       = Ok area
    /\ ufunc2 0%Z 0%Z Z.lor gt seg = Ok mask_all
    /\ shape mask_all = [d0; S d1; S d2]
    /\ amax mask_all 2 = Ok max_2 /\ shape max_2 = [d0; S d1]
    /\ amax max_2 1 = Ok proj_0 /\ shape proj_0 = [d0].
Proof.
  intros Hs Hg Hlen.
  destruct spacing as [|s0 [|s1 [|s2 rest]]]; simpl in Hlen; try lia.
  assert (Em : exists mask_all, ufunc2 0%Z 0%Z Z.lor gt seg = Ok mask_all
                                /\ shape mask_all = [d0; S d1; S d2]).
  { unfold ufunc2. rewrite Hs, Hg, broadcast_shapes_same.
    eexists; split; reflexivity. }
  destruct Em as (mask_all & Em & Sm).
  destruct (@amax_ok mask_all 2 d2) as (max_2 & E2 & S2);
    [now rewrite Sm|]. rewrite Sm in S2.
  destruct (@amax_ok max_2 1 d1) as (proj_0 & E1 & S1);
    [now rewrite S2|]. rewrite S2 in S1.
  exists (map (area_of_code s0 s1 s2) (_neighbour_code_to_normals self)),
         mask_all, max_2, proj_0.
  repeat split; auto.
  - unfold promote, ndim. now rewrite Hs.
  - apply neighbour_code_to_surface_area_ok.
Qed.

(** C1, what the code does: on 3-D prediction and label of one shape that
    are entirely background the constructor returns; [_calculate] has left
    after the first-axis projection and has handed back the four empty
    sequences, but [__init__] has dropped them and the four attributes are
    still [None]. *)
Theorem all_background_leaves_None (prediction label : ndarray Z)
    (spacing : list float) (d0 d1 d2 : nat) :
  shape prediction = [d0; S d1; S d2] -> shape label = [d0; S d1; S d2] ->
  all_background prediction -> all_background label ->
  3 <= length spacing ->
  exists d,
    Distances_init prediction label spacing = Ok d
    /\ _calculate d prediction label spacing = Ok (d, Some empty_result)
    /\ distances_gt_to_pred d = None /\ distances_pred_to_gt d = None
    /\ surfel_areas_gt d = None /\ surfel_areas_pred d = None.
Proof.
  intros Sp Sl Hp Hl Hlen.
  assert (R : exists d, Distances_init prediction label spacing = Ok d).
  { unfold Distances_init.
    set (self := {| distances_gt_to_pred := None |}).
    destruct (@first_projection_returns self prediction label spacing d0 d1 d2
                Sp Sl Hlen)
      as (area & mask_all & max_2 & proj_0 & Epr & Ea & Em & _ & E2 & _ & E1 & _).
    unfold _calculate. rewrite Epr, Ea. cbn [bind]. rewrite Em. cbn [bind].
    rewrite E2. cbn [bind]. rewrite E1. cbn [bind].
    rewrite (nonzero_0_all_zero
               (amax_all_zero _ (amax_all_zero _ (lor_all_zero Hl Hp Em) E2) E1)).
    simpl. eauto. }
  destruct R as [d Hd]. exists d. split; [exact Hd|].
  exact (early_exit_drops_result _ Hp Hl Hd).
Qed.

Lemma all_background_leaves_None_witness :
  exists d,
    Distances_init (zeros [4; 4; 4]) (zeros [4; 4; 4]) [1; 1; 1]%float = Ok d
    /\ _calculate d (zeros [4; 4; 4]) (zeros [4; 4; 4]) [1; 1; 1]%float
       = Ok (d, Some empty_result)
    /\ distances_gt_to_pred d = None /\ distances_pred_to_gt d = None
    /\ surfel_areas_gt d = None /\ surfel_areas_pred d = None.
Proof.
  apply (@all_background_leaves_None (zeros [4; 4; 4]) (zeros [4; 4; 4])
           [1; 1; 1]%float 4 3 3);
    [reflexivity | reflexivity | | | simpl; lia];
    apply Forall_forall; intros x Hx; symmetry; exact (repeat_spec _ _ _ Hx).
Defined.

(** ** float64: which results are not NaN *)

Lemma SFsign_is_nonnan s x : SFsign_is s x -> SFnonnan x.
Proof. destruct x; simpl; unfold SFnonnan; intros; congruence || contradiction. Qed.

Lemma nonneg_nonnan x : nonneg x -> nonnan x.
Proof. apply SFsign_is_nonnan. Qed.

Section Rounding.
Variables prec emax : Z.

Lemma shr_1_nonneg mrs : (0 <= shr_m mrs)%Z -> (0 <= shr_m (shr_1 mrs))%Z.
Proof.
  destruct mrs as [m r s]; simpl.
  destruct m as [|[p|p|]|[p|p|]]; simpl; lia.
Qed.

Lemma iter_shr_1_nonneg p : forall mrs,
  (0 <= shr_m mrs)%Z -> (0 <= shr_m (iter_pos shr_1 p mrs))%Z.
Proof.
  induction p as [p IH|p IH|]; intros mrs H; simpl.
  - apply IH, IH. now apply shr_1_nonneg.
  - apply IH, IH. assumption.
  - now apply shr_1_nonneg.
Qed.

Lemma shr_fexp_nonneg m e l :
  (0 <= m)%Z -> (0 <= shr_m (fst (shr_fexp prec emax m e l)))%Z.
Proof.
  intros H. unfold shr_fexp, shr.
  assert (H0 : (0 <= shr_m (shr_record_of_loc m l))%Z)
    by (destruct l as [|[]]; simpl; assumption).
  destruct (fexp prec emax (Zdigits2 m + e) - e)%Z; simpl; try assumption.
  now apply iter_shr_1_nonneg.
Qed.

Lemma round_nearest_even_nonneg m l :
  (0 <= m)%Z -> (0 <= round_nearest_even m l)%Z.
Proof.
  intros H. unfold round_nearest_even.
  destruct l as [|[]]; try lia. destruct (Z.even m); lia.
Qed.

(** Rounding a non-negative mantissa gives a number with the requested
    sign, never a NaN. *)
Lemma binary_round_aux_sign sx mx ex lx :
  (0 <= mx)%Z -> SFsign_is sx (binary_round_aux prec emax sx mx ex lx).
Proof.
  intros H. unfold binary_round_aux.
  pose proof (shr_fexp_nonneg ex lx H) as H1.
  destruct (shr_fexp prec emax mx ex lx) as [mrs' e']. simpl in H1.
  pose proof (shr_fexp_nonneg e' loc_Exact
                (round_nearest_even_nonneg (loc_of_shr_record mrs') H1)) as H2.
  destruct (shr_fexp prec emax _ e' loc_Exact) as [mrs'' e'']. simpl in H2.
  destruct (shr_m mrs''); simpl; try reflexivity; try lia.
  destruct (_ <=? _)%Z; reflexivity.
Qed.

Lemma binary_round_sign sx mx ex : SFsign_is sx (binary_round prec emax sx mx ex).
Proof.
  unfold binary_round. destruct (shl_align _ _ _) as [mz ez].
  apply binary_round_aux_sign. lia.
Qed.

Lemma binary_normalize_nonnan m e szero :
  SFnonnan (binary_normalize prec emax m e szero).
Proof.
  unfold binary_normalize. destruct m.
  - discriminate.
  - exact (@SFsign_is_nonnan _ _ (binary_round_sign false p e)).
  - exact (@SFsign_is_nonnan _ _ (binary_round_sign true p e)).
Qed.

Lemma SFmul_nonnan x y :
  SFnonnan x -> SFfinite_nonzero y -> SFnonnan (SFmul prec emax x y).
Proof.
  unfold SFnonnan. destruct x, y; simpl; try congruence; try contradiction.
  intros _ _. apply (@SFsign_is_nonnan (xorb s s0)), binary_round_aux_sign. lia.
Qed.

Lemma SFmul_square x : SFnonnan x -> SFsign_is false (SFmul prec emax x x).
Proof.
  unfold SFnonnan. destruct x; simpl; try congruence; intros _;
    try apply xorb_nilpotent.
  rewrite xorb_nilpotent. apply binary_round_aux_sign. lia.
Qed.

Lemma SFadd_nonneg x y :
  SFsign_is false x -> SFsign_is false y -> SFsign_is false (SFadd prec emax x y).
Proof.
  destruct x, y; simpl; try contradiction; intros -> ->; simpl; try reflexivity.
  apply binary_round_sign.
Qed.

Lemma SFsqrt_nonneg x : SFsign_is false x -> SFsign_is false (SFsqrt prec emax x).
Proof.
  destruct x; simpl; try contradiction; intros ->; try reflexivity.
  unfold SFsqrt_core_binary.
  set (m' := match _ with 0%Z => _ | Z.pos _ => _ | Z.neg _ => _ end).
  destruct (Z.sqrtrem m') as [q r] eqn:E.
  apply binary_round_aux_sign.
  unfold Z.sqrtrem in E. destruct m'; try (injection E as <- <-; lia).
  destruct (Pos.sqrtrem p) as [s0 [ | | ]]; injection E as <- <-; lia.
Qed.

End Rounding.

Lemma mul_nonnan (x y : float) : nonnan x -> positive_finite y -> nonnan (x * y).
Proof.
  unfold nonnan, positive_finite. intros Hx Hy. rewrite mul_spec.
  apply SFmul_nonnan; [assumption|].
  rewrite !ltb_spec in Hy. apply andb_prop in Hy. destruct Hy as [H0 Hinf].
  change (Prim2SF infinity) with (S754_infinity false) in Hinf.
  destruct (Prim2SF y); simpl; auto; try discriminate.
  destruct s; discriminate.
Qed.

Lemma square_nonneg (x : float) : nonnan x -> nonneg (x * x).
Proof. unfold nonneg. rewrite mul_spec. apply SFmul_square. Qed.

Lemma add_nonneg (x y : float) : nonneg x -> nonneg y -> nonneg (x + y).
Proof. unfold nonneg. rewrite add_spec. apply SFadd_nonneg. Qed.

Lemma sqrt_nonneg (x : float) : nonneg x -> nonneg (sqrt x).
Proof. unfold nonneg. rewrite sqrt_spec. apply SFsqrt_nonneg. Qed.

Lemma zero_nonneg : nonneg 0.
Proof. reflexivity. Qed.

Lemma infinity_nonneg : nonneg infinity.
Proof. reflexivity. Qed.

Lemma of_Z_nonnan (z : Z) : nonnan (F64.of_Z z).
Proof.
  unfold F64.of_Z, nonnan.
  destruct (z <? 0)%Z.
  - rewrite opp_spec, of_uint63_spec.
    pose proof (binary_normalize_nonnan prec emax
                  (Uint63Axioms.to_Z (Uint63.of_Z (- z))) 0 false) as H.
    unfold SFnonnan in *. destruct (binary_normalize _ _ _ _ _); simpl; congruence.
  - rewrite of_uint63_spec. apply binary_normalize_nonnan.
Qed.

Lemma add_reduce_nonneg (l : list float) :
  Forall nonneg l -> nonneg (F64.add_reduce l).
Proof.
  unfold F64.add_reduce. destruct 1 as [|x l Hx Hl]; [exact zero_nonneg|].
  revert x Hx. induction Hl as [|y l Hy _ IH]; intros x Hx; simpl; [assumption|].
  apply IH. now apply add_nonneg.
Qed.

Lemma fold_add_nonneg (l : list float) (x : float) :
  nonneg x -> Forall nonneg l -> nonneg (fold_left PrimFloat.add l x).
Proof.
  intros Hx Hl. revert x Hx.
  induction Hl as [|y l Hy _ IH]; intros x Hx; simpl; [assumption|].
  apply IH. now apply add_nonneg.
Qed.

Lemma norm_nonneg (v : list float) : Forall nonnan v -> nonneg (F64.norm v).
Proof.
  intros H. unfold F64.norm. apply sqrt_nonneg, add_reduce_nonneg.
  induction H; simpl; constructor; auto using square_nonneg.
Qed.

(** ** float64: the order of the numbers that are not NaN *)

Lemma cmp3_spec a b : CompareSpec (a = b) (lt3 a b) (lt3 b a) (cmp3 a b).
Proof.
  destruct a as [[a1 a2] a3], b as [[b1 b2] b3]. unfold cmp3, lt3; simpl.
  destruct (Z.compare_spec a1 b1); [|constructor; lia ..].
  destruct (Z.compare_spec a2 b2); [|constructor; lia ..].
  destruct (Z.compare_spec a3 b3); constructor; try lia. congruence.
Qed.

Lemma SFcompare_key x y :
  SFnonnan x -> SFnonnan y -> SFcompare x y = Some (cmp3 (SFkey x) (SFkey y)).
Proof.
  unfold SFnonnan.
  destruct x as [sx|sx| |sx mx ex], y as [sy|sy| |sy my ey]; try congruence;
    intros _ _; simpl;
    try (destruct sx); try (destruct sy); try reflexivity; unfold cmp3; simpl.
  rewrite Z.compare_opp, (Z.compare_antisym ex ey).
  destruct (ex ?= ey)%Z; reflexivity.
Qed.

Lemma lt3_irrefl a : ~ lt3 a a.
Proof. unfold lt3. lia. Qed.

Lemma ltb_key x y : nonnan x -> nonnan y -> ((x <? y)%float = true <-> lt3 (key x) (key y)).
Proof.
  intros Hx Hy. rewrite ltb_spec. unfold SFltb, key.
  rewrite (SFcompare_key Hx Hy).
  destruct (cmp3_spec (SFkey (Prim2SF x)) (SFkey (Prim2SF y))) as [E|L|L];
    split; try discriminate; try reflexivity; intros H.
  - rewrite E in H. now apply lt3_irrefl in H.
  - assumption.
  - unfold lt3 in *. lia.
Qed.

Lemma eqb_key x y : nonnan x -> nonnan y -> ((x =? y)%float = true <-> key x = key y).
Proof.
  intros Hx Hy. rewrite eqb_spec. unfold SFeqb, key.
  rewrite (SFcompare_key Hx Hy).
  destruct (cmp3_spec (SFkey (Prim2SF x)) (SFkey (Prim2SF y))) as [E|L|L];
    (split; [intros H | intros H]);
    try discriminate; try reflexivity; try assumption;
    rewrite H in L; now apply lt3_irrefl in L.
Qed.

Lemma leb_key x y : nonnan x -> nonnan y -> ((x <=? y)%float = true <-> ~ lt3 (key y) (key x)).
Proof.
  intros Hx Hy. rewrite leb_spec. unfold SFleb, key.
  rewrite (SFcompare_key Hx Hy).
  destruct (cmp3_spec (SFkey (Prim2SF x)) (SFkey (Prim2SF y))) as [E|L|L];
    split; try discriminate; try reflexivity; intros H.
  - rewrite E. apply lt3_irrefl.
  - unfold lt3 in *. lia.
  - contradiction.
Qed.

(** ** sorted *)

Lemma lex_le_key p q : nonnan_pair p -> nonnan_pair q -> (lex_le p q <-> lex_key_le p q).
Proof.
  intros [Hp1 Hp2] [Hq1 Hq2]. unfold lex_le, lex_key_le.
  now rewrite (ltb_key Hp1 Hq1), (eqb_key Hp1 Hq1), (leb_key Hp2 Hq2).
Qed.

Lemma key_eq_iff (a b : Z * Z * Z) :
  a = b <-> (fst (fst a) = fst (fst b) /\ snd (fst a) = snd (fst b) /\ snd a = snd b).
Proof.
  destruct a as [[a1 a2] a3], b as [[b1 b2] b3]; simpl.
  split; [intros [= -> -> ->]; auto | intros (-> & -> & ->); reflexivity].
Qed.

Ltac bool_fact H :=
  match type of H with
  | true = true <-> _ => apply proj1 in H; specialize (H eq_refl)
  | false = true <-> ?P =>
      let N := fresh "N" in
      assert (N : ~ P) by (let HP := fresh in intros HP; apply H in HP; discriminate);
      clear H
  end.

Lemma tuple_lt_key p q :
  nonnan_pair p -> nonnan_pair q ->
  (F64.tuple_lt p q = true <-> ~ lex_key_le q p).
Proof.
  intros [Hp1 Hp2] [Hq1 Hq2]. unfold F64.tuple_lt, lex_key_le.
  pose proof (eqb_key Hp1 Hq1) as E1. pose proof (ltb_key Hp1 Hq1) as L1.
  pose proof (eqb_key Hp2 Hq2) as E2. pose proof (ltb_key Hp2 Hq2) as L2.
  rewrite key_eq_iff in E1, E2. rewrite key_eq_iff. unfold lt3 in *.
  destruct (fst p =? fst q)%float, (fst p <? fst q)%float,
           (snd p =? snd q)%float, (snd p <? snd q)%float; simpl;
    bool_fact E1; bool_fact L1; bool_fact E2; bool_fact L2;
    (split; [intros H | intros H]);
    try reflexivity; try discriminate; try lia.
Qed.

Lemma lex_key_le_total p q : lex_key_le p q \/ lex_key_le q p.
Proof. unfold lex_key_le. rewrite !key_eq_iff. unfold lt3. lia. Qed.

Lemma lex_key_le_dec p q : lex_key_le p q \/ ~ lex_key_le p q.
Proof. unfold lex_key_le. rewrite !key_eq_iff. unfold lt3. lia. Qed.

Lemma lex_key_le_trans p q r : lex_key_le p q -> lex_key_le q r -> lex_key_le p r.
Proof. unfold lex_key_le. rewrite !key_eq_iff. unfold lt3. lia. Qed.

Lemma Forall_insert (P : float * float -> Prop) x l :
  P x -> Forall P l -> Forall P (F64.insert x l).
Proof.
  intros Hx Hl. induction Hl as [|y l Hy Hl IH]; simpl; [auto|].
  destruct (F64.tuple_lt y x); auto.
Qed.

Lemma Forall_sorted (P : float * float -> Prop) l :
  Forall P l -> Forall P (F64.sorted l).
Proof.
  unfold F64.sorted. induction 1; simpl; [constructor|].
  now apply Forall_insert.
Qed.

Lemma length_insert x l : length (F64.insert x l) = S (length l).
Proof.
  induction l as [|y l IH]; simpl; [reflexivity|].
  destruct (F64.tuple_lt y x); simpl; now rewrite ?IH.
Qed.

Lemma length_sorted l : length (F64.sorted l) = length l.
Proof.
  unfold F64.sorted. induction l; simpl; [reflexivity|].
  now rewrite length_insert, IHl.
Qed.

Lemma insert_sorted x l :
  nonnan_pair x -> Forall nonnan_pair l ->
  StronglySorted lex_key_le l -> StronglySorted lex_key_le (F64.insert x l).
Proof.
  intros Hx Hl Hs. induction Hs as [|y l Hs IH Hy]; simpl.
  - repeat constructor.
  - inversion Hl as [|? ? Hny Hnl]; subst.
    destruct (F64.tuple_lt y x) eqn:E.
    + constructor; [now apply IH|].
      apply Forall_insert; [|assumption].
      apply (tuple_lt_key Hny Hx) in E.
      destruct (lex_key_le_total y x); [assumption | contradiction].
    + assert (Hxy : lex_key_le x y).
      { destruct (lex_key_le_dec x y) as [H|H]; [assumption|].
        apply (tuple_lt_key Hny Hx) in H. congruence. }
      constructor; [now constructor|].
      constructor; [assumption|].
      eapply Forall_impl; [|exact Hy].
      intros z Hz. now apply lex_key_le_trans with y.
Qed.

(** On tuples without NaN, [sorted] returns a list in lexicographic
    order. *)
Lemma sorted_lex_le l :
  Forall nonnan_pair l -> StronglySorted lex_le (F64.sorted l).
Proof.
  intros Hl.
  assert (Hk : StronglySorted lex_key_le (F64.sorted l)).
  { unfold F64.sorted. induction Hl as [|x l Hx Hl IH]; simpl; [constructor|].
    apply insert_sorted; auto. now apply Forall_sorted. }
  pose proof (Forall_sorted Hl) as Hn.
  induction Hk as [|x s Hs IH Hx]; constructor.
  - apply IH. now inversion Hn.
  - inversion Hn as [|? ? Hnx Hns]; subst.
    rewrite Forall_forall in *. intros z Hz.
    apply lex_le_key; auto.
Qed.



(** ** The stages of [_calculate] *)

Lemma _calculate_stages self seg gt sp :
  _calculate self seg gt sp =
  (area <- neighbour_code_to_surface_area (_neighbour_code_to_normals self)
             (snd (promote seg gt sp)) ;;
   maps <- neighbour_code_maps (fst (fst (promote seg gt sp)))
             (snd (fst (promote seg gt sp))) ;;
   match maps with
   | None => Ok (self, Some empty_result)
   | Some (codes_gt, codes_pred) =>
       s <- surfels area (snd (promote seg gt sp)) codes_gt codes_pred ;;
       Ok ({| distances_gt_to_pred := Some (fst (fst s));
              distances_pred_to_gt := Some (fst (snd s));
              surfel_areas_gt := Some (snd (fst s));
              surfel_areas_pred := Some (snd (snd s));
              _neighbour_code_to_normals := _neighbour_code_to_normals self |},
           None)
   end).
Proof.
  unfold _calculate, neighbour_code_maps, surfels.
  destruct (promote seg gt sp) as [[seg' gt'] sp']; simpl.
  destruct (neighbour_code_to_surface_area _ sp'); simpl; [|reflexivity].
  destruct (ufunc2 0%Z 0%Z Z.lor gt' seg') as [mask_all|]; simpl; [|reflexivity].
  destruct (amax mask_all 2) as [max_2|]; simpl; [|reflexivity].
  destruct (amax max_2 1) as [proj_0|]; simpl; [|reflexivity].
  destruct (length (nonzero_0 proj_0) =? 0); [reflexivity|].
  repeat match goal with
         | |- context [bind ?c _] =>
             match c with
             | bind _ _ => fail 1
             | _ => destruct c; simpl; [|reflexivity]
             end
         end.
  reflexivity.
Qed.

Lemma bind_Ok {A B} (c : result A) (k : A -> result B) b :
  bind c k = Ok b -> exists a, c = Ok a /\ k a = Ok b.
Proof. destruct c; simpl; [eauto | discriminate]. Qed.

Lemma correlate_shape input weights :
  shape (Ndimage.correlate input weights) = shape input.
Proof. reflexivity. Qed.

Lemma correlate_wf input weights : wf (Ndimage.correlate input weights).
Proof. unfold wf, size, Ndimage.correlate. now rewrite tabulate_length. Qed.

Lemma cropmask_shape arr bbox_min bbox_max cm :
  cropmask arr bbox_min bbox_max = Ok cm ->
  shape cm = map (fun p => snd p - fst p + 2) (combine bbox_min bbox_max).
Proof.
  unfold cropmask. intros H.
  apply bind_Ok in H. destruct H as (value & _ & H).
  apply bind_Ok in H. destruct H as (view & _ & H).
  now injection H as <-.
Qed.

(** The two maps of neighbour codes are arrays of one shape. *)
Lemma neighbour_code_maps_shape seg gt codes_gt codes_pred :
  neighbour_code_maps seg gt = Ok (Some (codes_gt, codes_pred)) ->
  wf codes_gt /\ wf codes_pred /\ shape codes_gt = shape codes_pred.
Proof.
  unfold neighbour_code_maps. intros H.
  repeat (apply bind_Ok in H; destruct H as (? & _ & H)).
  destruct (length _ =? 0); [discriminate|].
  do 10 (apply bind_Ok in H; destruct H as (? & _ & H)).
  apply bind_Ok in H. destruct H as (cm_gt & Hgt & H).
  apply bind_Ok in H. destruct H as (cm_pred & Hpred & H).
  injection H as <- <-.
  repeat split; try apply correlate_wf.
  rewrite !correlate_shape.
  now rewrite (cropmask_shape _ _ _ Hgt), (cropmask_shape _ _ _ Hpred).
Qed.

(** *** Distance maps *)

Lemma positive_finite_one : positive_finite 1.
Proof. reflexivity. Qed.

Lemma promote_spacing seg gt sp :
  Forall positive_finite sp -> Forall positive_finite (snd (promote seg gt sp)).
Proof.
  intros H. unfold promote. destruct (_ && _); simpl; [|assumption].
  apply Forall_app; split; [assumption|].
  constructor; [exact positive_finite_one | constructor].
Qed.

Lemma sq_distance_nonneg sampling p q :
  Forall positive_finite sampling -> nonneg (Ndimage.sq_distance sampling p q).
Proof.
  intros Hs. unfold Ndimage.sq_distance. apply add_reduce_nonneg.
  apply Forall_forall. intros x Hx. apply in_map_iff in Hx.
  destruct Hx as [[[i j] s] [<- Hin]]. simpl.
  apply square_nonneg, mul_nonnan; [apply of_Z_nonnan|].
  rewrite Forall_forall in Hs. apply Hs.
  exact (in_combine_r _ _ _ _ Hin).
Qed.

Lemma nearest_nonneg (f : list nat -> float) background best :
  (forall q, nonneg (f q)) -> nonneg best ->
  nonneg (fold_left (fun best q => let d := f q in if (d <? best)%float then d else best)
            background best).
Proof.
  intros Hf. revert best. induction background as [|q qs IH]; intros best Hb; simpl;
    [assumption|].
  apply IH. destruct (f q <? best)%float; auto.
Qed.

Lemma distance_transform_edt_nonneg input sampling dm :
  Forall positive_finite sampling ->
  Ndimage.distance_transform_edt input sampling = Ok dm ->
  Forall nonneg (data dm).
Proof.
  intros Hs. unfold Ndimage.distance_transform_edt.
  destruct (negb _); [discriminate|]. intros [= <-].
  unfold tabulate; simpl. apply Forall_forall. intros x Hx.
  apply in_map_iff in Hx. destruct Hx as [k [<- _]].
  apply sqrt_nonneg.
  apply (nearest_nonneg (fun q => Ndimage.sq_distance sampling _ q)).
  - intros q. now apply sq_distance_nonneg.
  - exact infinity_nonneg.
Qed.

Lemma distmap_nonneg borders spacing dm :
  Forall positive_finite spacing -> distmap borders spacing = Ok dm ->
  Forall nonneg (data dm).
Proof.
  intros Hs. unfold distmap. destruct (any borders).
  - now apply distance_transform_edt_nonneg.
  - intros [= <-]. simpl. apply Forall_forall. intros x Hx.
    apply in_map_iff in Hx. destruct Hx as [b [<- _]]. reflexivity.
Qed.

Lemma distmap_length borders spacing dm :
  wf borders -> distmap borders spacing = Ok dm ->
  length (data dm) = length (data borders).
Proof.
  intros Hwf. unfold distmap. destruct (any borders).
  - unfold Ndimage.distance_transform_edt.
    destruct (negb _); [discriminate|]. intros [= <-].
    rewrite tabulate_length. simpl. symmetry. exact Hwf.
  - intros [= <-]. simpl. now rewrite length_map.
Qed.

(** *** Areas *)

Lemma eqb_refl_nonnan x : (x =? x)%float = true -> nonnan x.
Proof.
  rewrite eqb_spec. unfold SFeqb, nonnan, SFnonnan.
  destruct (Prim2SF x); simpl; congruence.
Qed.

Lemma neighbour_code_to_normals_ok :
  forallb (forallb normal_ok) neighbour_code_to_normals = true.
Proof. vm_compute. reflexivity. Qed.

Lemma area_of_normal_nonneg s0 s1 s2 nrm :
  positive_finite s0 -> positive_finite s1 -> positive_finite s2 ->
  normal_ok nrm = true -> nonneg (area_of_normal s0 s1 s2 nrm).
Proof.
  intros H0 H1 H2 Hn. unfold normal_ok in Hn.
  apply andb_prop in Hn. destruct Hn as [Hn Hc].
  apply andb_prop in Hn. destruct Hn as [Ha Hb].
  apply eqb_refl_nonnan in Ha, Hb, Hc.
  unfold area_of_normal. apply norm_nonneg.
  repeat constructor; repeat apply mul_nonnan; assumption.
Qed.

Lemma area_table_nonneg_of normals_table s0 s1 s2 rest table :
  forallb (forallb normal_ok) normals_table = true ->
  positive_finite s0 -> positive_finite s1 -> positive_finite s2 ->
  neighbour_code_to_surface_area normals_table (s0 :: s1 :: s2 :: rest) = Ok table ->
  Forall nonneg table.
Proof.
  intros Hok H0 H1 H2 H.
  rewrite neighbour_code_to_surface_area_ok in H. injection H as <-.
  rewrite forallb_forall in Hok.
  apply Forall_forall. intros x Hx. apply in_map_iff in Hx.
  destruct Hx as [normals [<- Hin]].
  specialize (Hok _ Hin). rewrite forallb_forall in Hok.
  unfold area_of_code. apply fold_add_nonneg; [exact zero_nonneg|].
  apply Forall_forall. intros a Ha. apply in_map_iff in Ha.
  destruct Ha as [nrm [<- Hn]]. apply area_of_normal_nonneg; auto.
Qed.

Lemma area_table_nonneg spacing table :
  Forall positive_finite spacing ->
  neighbour_code_to_surface_area neighbour_code_to_normals spacing = Ok table ->
  Forall nonneg table.
Proof.
  intros Hs H.
  destruct (Nat.lt_ge_cases (length spacing) 3) as [Hlt|Hge].
  - rewrite (neighbour_code_to_surface_area_short _ Hlt) in H. discriminate.
  - destruct spacing as [|s0 [|s1 [|s2 rest]]]; simpl in Hge; try lia.
    inversion Hs as [|? ? H0 Hs1]; subst.
    inversion Hs1 as [|? ? H1 Hs2]; subst.
    inversion Hs2 as [|? ? H2 _]; subst.
    exact (area_table_nonneg_of _ _ neighbour_code_to_normals_ok H0 H1 H2 H).
Qed.

Lemma nth_nonneg (l : list float) k : Forall nonneg l -> nonneg (nth k l 0%float).
Proof.
  intros H. revert k. induction H as [|x l Hx _ IH]; intros [|k]; simpl;
    auto using zero_nonneg.
Qed.

(** *** Selection and sorting *)

Section BooleanIndex.
Context {A : Type}.

Lemma boolean_index_Forall (P : A -> Prop) (a : ndarray A) mask :
  Forall P (data a) -> Forall P (boolean_index a mask).
Proof.
  intros H. unfold boolean_index. apply Forall_forall. intros x Hx.
  apply in_map_iff in Hx. destruct Hx as [[b y] [<- Hin]].
  apply filter_In in Hin. destruct Hin as [Hin _].
  rewrite Forall_forall in H. apply H. exact (in_combine_r _ _ _ _ Hin).
Qed.

Lemma selected_length {B} (m : list bool) : forall (u : list A) (v : list B),
  length u = length v ->
  length (filter fst (combine m u)) = length (filter fst (combine m v)).
Proof.
  induction m as [|b m IH]; intros [|x u] [|y v] H; simpl in *;
    try reflexivity; try discriminate.
  destruct b; simpl; auto.
Qed.

Lemma boolean_index_length {B} (a : ndarray A) (b : ndarray B) mask :
  length (data a) = length (data b) ->
  length (boolean_index a mask) = length (boolean_index b mask).
Proof.
  intros H. unfold boolean_index. rewrite !length_map.
  now apply selected_length.
Qed.
End BooleanIndex.

Lemma combine_fst_snd {A B} (l : list (A * B)) : combine (map fst l) (map snd l) = l.
Proof. induction l as [|[a b] l IH]; simpl; congruence. Qed.

Lemma combine_nonnan ds : forall ars,
  Forall nonneg ds -> Forall nonneg ars -> Forall nonnan_pair (combine ds ars).
Proof.
  induction ds as [|d ds IH]; intros [|a ars] Hd Ha; simpl; try constructor.
  - inversion Hd; inversion Ha; subst. split; now apply nonneg_nonnan.
  - inversion Hd; inversion Ha; subst. now apply IH.
Qed.

Lemma sort_surfels_length ds ars :
  length ds = length ars ->
  length (fst (sort_surfels ds ars)) = length (snd (sort_surfels ds ars)).
Proof.
  intros H. unfold sort_surfels. destruct (negb _); simpl; [|assumption].
  now rewrite !length_map.
Qed.

Lemma sort_surfels_lex ds ars :
  Forall nonneg ds -> Forall nonneg ars ->
  StronglySorted lex_le
    (combine (fst (sort_surfels ds ars)) (snd (sort_surfels ds ars))).
Proof.
  intros Hd Ha. unfold sort_surfels.
  destruct ds as [|d ds]; [simpl; constructor|].
  change (negb (length (d :: ds) =? 0)) with true. cbv iota. cbn [fst snd].
  rewrite combine_fst_snd. apply sorted_lex_le.
  now apply combine_nonnan.
Qed.


(** ** The constructor returns *)

Section IndexFacts.
Context {A : Type}.

Lemma ravel_bounded sh : forall idx,
Forall2 lt idx sh -> ravel sh idx < size_of sh.
Proof.
induction sh as [|d sh IH]; intros idx H; inversion H; subst; simpl; [lia|].
specialize (IH _ H4). nia.
Qed.

Lemma unravel_ravel sh : forall idx,
Forall2 lt idx sh -> unravel sh (ravel sh idx) = idx.
Proof.
induction sh as [|d sh IH]; intros idx H; inversion H; subst; simpl;
  [reflexivity|].
pose proof (ravel_bounded H4) as Hr.
rewrite Nat.div_add_l by lia. rewrite (Nat.div_small _ _ Hr), Nat.add_0_r.
rewrite Nat.add_comm, Nat.Div0.mod_add, (Nat.mod_small _ _ Hr).
now rewrite IH.
Qed.

Lemma get_tabulate (d : A) sh (f : list nat -> A) idx :
Forall2 lt idx sh -> get d (tabulate sh f) idx = f idx.
Proof.
intros H. unfold get, tabulate; simpl.
rewrite nth_map_seq by now apply ravel_bounded.
now rewrite unravel_ravel.
Qed.

End IndexFacts.

Lemma fold_max_ge_init (l : list Z) : forall x, (x <= fold_left Z.max l x)%Z.
Proof.
  induction l as [|y l IH]; intros x; simpl; [lia|].
  specialize (IH (Z.max x y)). lia.
Qed.

Lemma fold_max_ge_elem (l : list Z) : forall x y,
  In y l -> (y <= fold_left Z.max l x)%Z.
Proof.
  induction l as [|z l IH]; intros x y H; simpl; [contradiction|].
  destruct H as [<-|H].
  - pose proof (fold_max_ge_init l (Z.max x z)). lia.
  - now apply IH.
Qed.

Lemma fold_max_attained (l : list Z) : forall x,
  fold_left Z.max l x = x \/ In (fold_left Z.max l x) l.
Proof.
  induction l as [|y l IH]; intros x; simpl; [auto|].
  destruct (IH (Z.max x y)) as [E|E]; [|auto].
  rewrite E. destruct (Z.max_spec x y) as [[_ ->]|[_ ->]]; auto.
Qed.

Lemma amax_get (a m : ndarray Z) axis k idx :
  nth_error (shape a) axis = Some (S k) -> amax a axis = Ok m ->
  Forall2 lt idx (remove_at axis (shape a)) ->
  get 0%Z m idx = axis_max a axis k idx.
Proof.
  intros Hk. unfold amax. rewrite Hk. intros [= <-] Hidx.
  now rewrite get_tabulate.
Qed.

Lemma axis_max_ge (a : ndarray Z) axis k idx t :
  t <= k -> (get 0%Z a (insert_at axis t idx) <= axis_max a axis k idx)%Z.
Proof.
  intros Ht. unfold axis_max. destruct t as [|t].
  - apply fold_max_ge_init.
  - apply fold_max_ge_elem. apply in_map_iff. exists (S t). split; [reflexivity|].
    apply in_seq. lia.
Qed.

Lemma axis_max_attained (a : ndarray Z) axis k idx :
  exists t, t <= k /\ axis_max a axis k idx = get 0%Z a (insert_at axis t idx).
Proof.
  unfold axis_max.
  destruct (fold_max_attained
              (map (fun t => get 0%Z a (insert_at axis t idx)) (seq 1 k))
              (get 0%Z a (insert_at axis 0 idx))) as [E|E].
  - exists 0. split; [lia | exact E].
  - apply in_map_iff in E. destruct E as (t & E & Hin).
    apply in_seq in Hin. exists t. split; [lia | now symmetry].
Qed.

Lemma get_nonnegative (a : ndarray Z) idx : nonnegative a -> (0 <= get 0%Z a idx)%Z.
Proof.
  unfold nonnegative, get. intros H.
  generalize (ravel (shape a) idx). induction H as [|x l Hx _ IH]; intros [|k];
    simpl; auto; lia.
Qed.

Lemma lor_nonnegative (a b m : ndarray Z) :
  nonnegative a -> nonnegative b ->
  ufunc2 0%Z 0%Z Z.lor a b = Ok m -> nonnegative m.
Proof.
  intros Ha Hb. unfold ufunc2.
  destruct (broadcast_shapes (shape a) (shape b)) as [sh|]; [|discriminate].
  intros [= <-]. unfold nonnegative; simpl.
  apply Forall_forall. intros x Hx. apply in_map_iff in Hx.
  destruct Hx as [[u v] [<- Hin]]. simpl.
  pose proof (in_combine_l _ _ _ _ Hin) as Hu.
  pose proof (in_combine_r _ _ _ _ Hin) as Hv.
  unfold broadcast_to, tabulate in Hu, Hv; simpl in Hu, Hv.
  apply in_map_iff in Hu, Hv.
  destruct Hu as (? & <- & _), Hv as (? & <- & _).
  apply Z.lor_nonneg. split; now apply get_nonnegative.
Qed.

(** [np.nonzero(a)[0]] of a one-dimensional array. *)
Lemma nonzero_0_1d (a : ndarray Z) d i :
  shape a = [d] ->
  (In i (nonzero_0 a) <-> i < d /\ get 0%Z a [i] <> 0%Z).
Proof.
  intros Hs. unfold nonzero_0, size, get. rewrite Hs.
  cbn [unravel ravel size_of fold_right hd].
  rewrite !Nat.mul_1_r, Nat.add_0_r. split.
  - intros H. apply in_map_iff in H. destruct H as (k & <- & Hk).
    apply filter_In in Hk. destruct Hk as [Hk Hnz]. apply in_seq in Hk.
    rewrite Nat.div_1_r. split; [lia|].
    intros E. rewrite E in Hnz. discriminate.
  - intros [Hi Hnz].
    apply in_map_iff. exists i. split; [apply Nat.div_1_r|].
    apply filter_In. split; [apply in_seq; lia|].
    destruct (nth i (data a) 0 =? 0)%Z eqn:E; [|reflexivity].
    apply Z.eqb_eq in E. contradiction.
Qed.

Section Projections.
Variables (mask_all : ndarray Z) (d0 d1 d2 : nat).
Hypothesis Hshape : shape mask_all = [d0; S d1; S d2].
Hypothesis Hnonneg : nonnegative mask_all.

Variables max_2 max_1 proj_0 proj_1 proj_2 : ndarray Z.
Hypothesis E2 : amax mask_all 2 = Ok max_2.
Hypothesis E1 : amax mask_all 1 = Ok max_1.
Hypothesis P0 : amax max_2 1 = Ok proj_0.
Hypothesis P1 : amax max_2 0 = Ok proj_1.
Hypothesis P2 : amax max_1 0 = Ok proj_2.

Lemma max_2_shape : shape max_2 = [d0; S d1].
Proof.
  destruct (@amax_ok mask_all 2 d2) as (m & E & S); [now rewrite Hshape|].
  rewrite E2 in E. injection E as <-. now rewrite S, Hshape.
Qed.

Lemma max_1_shape : shape max_1 = [d0; S d2].
Proof.
  destruct (@amax_ok mask_all 1 d1) as (m & E & S); [now rewrite Hshape|].
  rewrite E1 in E. injection E as <-. now rewrite S, Hshape.
Qed.

Lemma max_2_get i j :
  i < d0 -> j <= d1 -> get 0%Z max_2 [i; j] = axis_max mask_all 2 d2 [i; j].
Proof.
  intros Hi Hj. apply amax_get; [now rewrite Hshape | assumption|].
  rewrite Hshape. unfold remove_at. simpl. repeat (apply Forall2_cons; [lia|]). constructor.
Qed.

Lemma max_1_get i k :
  i < d0 -> k <= d2 -> get 0%Z max_1 [i; k] = axis_max mask_all 1 d1 [i; k].
Proof.
  intros Hi Hk. apply amax_get; [now rewrite Hshape | assumption|].
  rewrite Hshape. unfold remove_at. simpl. repeat (apply Forall2_cons; [lia|]). constructor.
Qed.

Lemma proj_0_shape : shape proj_0 = [d0].
Proof.
  destruct (@amax_ok max_2 1 d1) as (m & E & S); [now rewrite max_2_shape|].
  rewrite P0 in E. injection E as <-. now rewrite S, max_2_shape.
Qed.

Lemma proj_0_get i :
  i < d0 -> get 0%Z proj_0 [i] = axis_max max_2 1 d1 [i].
Proof.
  intros Hi. apply amax_get; [now rewrite max_2_shape | assumption|].
  rewrite max_2_shape. unfold remove_at. simpl. repeat (apply Forall2_cons; [lia|]). constructor.
Qed.

(** A non-zero entry of the first projection comes from a foreground
    voxel. *)
Lemma foreground_voxel i :
  In i (nonzero_0 proj_0) ->
  exists j k, i < d0 /\ j <= d1 /\ k <= d2
              /\ (0 < get 0%Z mask_all [i; j; k])%Z.
Proof.
  intros H. apply (@nonzero_0_1d proj_0 d0 i proj_0_shape) in H.
  destruct H as [Hi Hnz].
  rewrite (proj_0_get Hi) in Hnz.
  destruct (axis_max_attained max_2 1 d1 [i]) as (j & Hj & Ej).
  rewrite Ej in Hnz. change (insert_at 1 j [i]) with [i; j] in Hnz.
  rewrite (max_2_get Hi Hj) in Hnz.
  destruct (axis_max_attained mask_all 2 d2 [i; j]) as (k & Hk & Ek).
  rewrite Ek in Hnz. change (insert_at 2 k [i; j]) with [i; j; k] in Hnz.
  exists j, k. repeat split; try assumption.
  pose proof (get_nonnegative [i; j; k] Hnonneg). lia.
Qed.

Lemma proj_1_nonzero i j k :
  i < d0 -> j <= d1 -> k <= d2 -> (0 < get 0%Z mask_all [i; j; k])%Z ->
  In j (nonzero_0 proj_1).
Proof.
  intros Hi Hj Hk Hpos.
  assert (Sd0 : exists e0, d0 = S e0) by (destruct d0; [lia | eauto]).
  destruct Sd0 as [e0 Ed0].
  destruct (@amax_ok max_2 0 e0) as (m & E & S);
    [now rewrite max_2_shape, Ed0|].
  rewrite P1 in E. injection E as <-. rewrite max_2_shape in S.
  apply (@nonzero_0_1d proj_1 (Datatypes.S d1)); [exact S|]. split; [lia|].
  rewrite (@amax_get max_2 proj_1 0 e0 [j]);
    [| now rewrite max_2_shape, Ed0 | assumption
     | rewrite max_2_shape; unfold remove_at; simpl; repeat (apply Forall2_cons; [lia|]); constructor].
  pose proof (@axis_max_ge max_2 0 e0 [j] i ltac:(lia)) as H1.
  change (insert_at 0 i [j]) with [i; j] in H1.
  rewrite (max_2_get Hi Hj) in H1.
  pose proof (@axis_max_ge mask_all 2 d2 [i; j] k Hk) as H2.
  change (insert_at 2 k [i; j]) with [i; j; k] in H2. lia.
Qed.

Lemma proj_2_nonzero i j k :
  i < d0 -> j <= d1 -> k <= d2 -> (0 < get 0%Z mask_all [i; j; k])%Z ->
  In k (nonzero_0 proj_2).
Proof.
  intros Hi Hj Hk Hpos.
  assert (Sd0 : exists e0, d0 = S e0) by (destruct d0; [lia | eauto]).
  destruct Sd0 as [e0 Ed0].
  destruct (@amax_ok max_1 0 e0) as (m & E & S);
    [now rewrite max_1_shape, Ed0|].
  rewrite P2 in E. injection E as <-. rewrite max_1_shape in S.
  apply (@nonzero_0_1d proj_2 (Datatypes.S d2)); [exact S|]. split; [lia|].
  rewrite (@amax_get max_1 proj_2 0 e0 [k]);
    [| now rewrite max_1_shape, Ed0 | assumption
     | rewrite max_1_shape; unfold remove_at; simpl; repeat (apply Forall2_cons; [lia|]); constructor].
  pose proof (@axis_max_ge max_1 0 e0 [k] i ltac:(lia)) as H1.
  change (insert_at 0 i [k]) with [i; k] in H1.
  rewrite (max_1_get Hi Hk) in H1.
  pose proof (@axis_max_ge mask_all 1 d1 [i; k] j Hj) as H2.
  change (insert_at 1 j [i; k]) with [i; j; k] in H2. lia.
Qed.

End Projections.

Lemma fold_min_le (l : list nat) : forall x, fold_left Nat.min l x <= x.
Proof.
  induction l as [|y l IH]; intros x; simpl; [lia|].
  specialize (IH (Nat.min x y)). lia.
Qed.

Lemma fold_max_le (l : list nat) : forall x, x <= fold_left Nat.max l x.
Proof.
  induction l as [|y l IH]; intros x; simpl; [lia|].
  specialize (IH (Nat.max x y)). lia.
Qed.

Lemma fold_max_lt (l : list nat) d : forall x,
  x < d -> Forall (fun y => y < d) l -> fold_left Nat.max l x < d.
Proof.
  induction l as [|y l IH]; intros x Hx Hl; simpl; [assumption|].
  inversion Hl; subst. apply IH; [lia | assumption].
Qed.

(** The bounds of a non-empty list of indices below [d]. *)
Lemma bounds_1d (l : list nat) d z :
  In z l -> Forall (fun y => y < d) l ->
  exists lo hi, min_1d l = Ok lo /\ max_1d l = Ok hi /\ lo <= hi /\ hi < d.
Proof.
  intros Hin Hl. destruct l as [|x l]; [contradiction|].
  inversion Hl; subst. simpl. do 2 eexists. repeat split.
  - pose proof (fold_min_le l x). pose proof (fold_max_le l x). lia.
  - now apply fold_max_lt.
Qed.

Lemma nonzero_0_bounded (a : ndarray Z) d :
  shape a = [d] -> Forall (fun y => y < d) (nonzero_0 a).
Proof.
  intros Hs. apply Forall_forall. intros i Hi.
  now apply (@nonzero_0_1d a d i Hs) in Hi.
Qed.

Lemma fits_rev_refl sh : fits_rev sh sh = true.
Proof. induction sh as [|d sh IH]; simpl; [reflexivity|]. now rewrite Nat.eqb_refl. Qed.

(** Cropping a 3-D array to a box inside it succeeds. *)
Lemma cropmask_ok (arr : ndarray Z) e0 e1 e2 lo0 lo1 lo2 hi0 hi1 hi2 :
  shape arr = [e0; e1; e2] ->
  lo0 <= hi0 < e0 -> lo1 <= hi1 < e1 -> lo2 <= hi2 < e2 ->
  exists cm, cropmask arr [lo0; lo1; lo2] [hi0; hi1; hi2] = Ok cm.
Proof.
  intros Hs H0 H1 H2. unfold cropmask, basic_slice, assign_broadcast, ndim.
  rewrite Hs. cbn [map combine fst snd length Nat.ltb Nat.leb bind].
  cbn [ndim shape slice_shape tabulate length Nat.sub strip_units].
  replace (Nat.min (hi0 + 1) e0 - Nat.min lo0 e0) with (hi0 - lo0 + 2 - 1) by lia.
  replace (Nat.min (hi1 + 1) e1 - Nat.min lo1 e1) with (hi1 - lo1 + 2 - 1) by lia.
  replace (Nat.min (hi2 + 1) e2 - Nat.min lo2 e2) with (hi2 - lo2 + 2 - 1) by lia.
  rewrite fits_rev_refl. cbn [bind]. eauto.
Qed.

Lemma distmap_ok (borders : ndarray bool) spacing :
  length spacing = ndim borders -> exists dm, distmap borders spacing = Ok dm.
Proof.
  intros H. unfold distmap. destruct (any borders); [|eauto].
  unfold Ndimage.distance_transform_edt.
  replace (ndim (ufunc1 negb borders)) with (ndim borders) by reflexivity.
  rewrite H, Nat.eqb_refl. simpl. eauto.
Qed.

(** On 3-D volumes of one shape (no axis of length 0 after the first)
    without negative entries, and with a spacing of three components,
    the constructor returns. *)
Lemma Distances_init_returns (prediction label : ndarray Z)
    (spacing : list float) (d0 d1 d2 : nat) :
  shape prediction = [d0; S d1; S d2] -> shape label = [d0; S d1; S d2] ->
  nonnegative prediction -> nonnegative label ->
  length spacing = 3 ->
  exists d, Distances_init prediction label spacing = Ok d.
Proof.
  intros Sp Sl Np Nl Hlen. unfold Distances_init.
  set (self := {| distances_gt_to_pred := None |}).
  destruct (@first_projection_returns self prediction label spacing d0 d1 d2
              Sp Sl ltac:(lia))
    as (area & mask_all & max_2 & proj_0 & Epr & Ea & Em & Sm & E2 & S2 & P0 & S0).
  pose proof (lor_nonnegative Nl Np Em) as Nm.
  unfold _calculate. rewrite Epr, Ea. cbn [bind]. rewrite Em. cbn [bind].
  rewrite E2. cbn [bind]. rewrite P0. cbn [bind].
  destruct (nonzero_0 proj_0) as [|i rest] eqn:Enz; [simpl; eauto|].
  cbn [length Nat.eqb].
  assert (Hi : In i (nonzero_0 proj_0)) by (rewrite Enz; now left).
  destruct (@amax_ok mask_all 1 d1) as (max_1 & E1 & S1); [now rewrite Sm|].
  assert (Hd0 : exists e0, d0 = S e0).
  { apply (@nonzero_0_1d proj_0 d0 i S0) in Hi. destruct d0; [lia | eauto]. }
  destruct Hd0 as [e0 Ed0].
  destruct (@amax_ok max_2 0 e0) as (proj_1 & P1 & SP1); [now rewrite S2, Ed0|].
  rewrite Sm in S1. change (remove_at 1 [d0; S d1; S d2]) with [d0; S d2] in S1.
  destruct (@amax_ok max_1 0 e0) as (proj_2 & P2 & SP2); [now rewrite S1, Ed0|].
  rewrite S2 in SP1. rewrite S1 in SP2.
  change (remove_at 0 [d0; S d1]) with [S d1] in SP1.
  change (remove_at 0 [d0; S d2]) with [S d2] in SP2.
  assert (Hv : exists j k, i < d0 /\ j <= d1 /\ k <= d2
                           /\ (0 < get 0%Z mask_all [i; j; k])%Z)
    by (eapply foreground_voxel; eassumption).
  destruct Hv as (j & k & Hi0 & Hj & Hk & Hpos).
  assert (Hj1 : In j (nonzero_0 proj_1))
    by (eapply proj_1_nonzero with (mask_all := mask_all); eassumption).
  assert (Hk2 : In k (nonzero_0 proj_2))
    by (eapply proj_2_nonzero with (mask_all := mask_all); eassumption).
  rewrite <- Enz.
  destruct (bounds_1d i Hi (@nonzero_0_bounded _ _ S0)) as (lo0 & hi0 & -> & -> & B0).
  cbn [bind]. rewrite P1. cbn [bind].
  destruct (bounds_1d j Hj1 (@nonzero_0_bounded _ _ SP1)) as (lo1 & hi1 & -> & -> & B1).
  cbn [bind]. rewrite E1. cbn [bind]. rewrite P2. cbn [bind].
  destruct (bounds_1d k Hk2 (@nonzero_0_bounded _ _ SP2)) as (lo2 & hi2 & -> & -> & B2).
  cbn [bind].
  destruct (@cropmask_ok label d0 (S d1) (S d2) lo0 lo1 lo2 hi0 hi1 hi2 Sl)
    as (cropmask_gt & Cg); try lia.
  destruct (@cropmask_ok prediction d0 (S d1) (S d2) lo0 lo1 lo2 hi0 hi1 hi2 Sp)
    as (cropmask_pred & Cp); try lia.
  rewrite Cg. cbn [bind]. rewrite Cp. cbn [bind].
  pose proof (cropmask_shape _ _ _ Cg) as Sg.
  pose proof (cropmask_shape _ _ _ Cp) as Spd.
  destruct (@distmap_ok (ufunc1 is_border (Ndimage.correlate cropmask_gt kernel))
              spacing) as (distmap_gt & ->);
    [unfold ndim; simpl; now rewrite Sg|].
  destruct (@distmap_ok (ufunc1 is_border (Ndimage.correlate cropmask_pred kernel))
              spacing) as (distmap_pred & ->);
    [unfold ndim; simpl; now rewrite Spd|].
  cbn [bind]. eauto.
Qed.

(** ** What a returned [Distances] holds *)

(** Either [_calculate] left through the early exit and the attributes are
    untouched, or the four attributes are the two sorted sides. *)
Lemma Distances_init_inv prediction label spacing d :
  Distances_init prediction label spacing = Ok d ->
  (distances_gt_to_pred d = None /\ distances_pred_to_gt d = None
   /\ surfel_areas_gt d = None /\ surfel_areas_pred d = None)
  \/ exists ds_gt as_gt ds_pred as_pred,
       length ds_gt = length as_gt /\ length ds_pred = length as_pred
       /\ (Forall positive_finite spacing ->
           Forall nonneg ds_gt /\ Forall nonneg as_gt
           /\ Forall nonneg ds_pred /\ Forall nonneg as_pred)
       /\ distances_gt_to_pred d = Some (fst (sort_surfels ds_gt as_gt))
       /\ surfel_areas_gt d = Some (snd (sort_surfels ds_gt as_gt))
       /\ distances_pred_to_gt d = Some (fst (sort_surfels ds_pred as_pred))
       /\ surfel_areas_pred d = Some (snd (sort_surfels ds_pred as_pred)).
Proof.
  unfold Distances_init. intros H.
  apply bind_Ok in H. destruct H as (r & H & Hd). injection Hd as <-.
  rewrite _calculate_stages in H. cbn [_neighbour_code_to_normals] in H.
  apply bind_Ok in H. destruct H as (area & Harea & H).
  apply bind_Ok in H. destruct H as ([[codes_gt codes_pred]|] & Hmaps & H).
  2: { injection H as <-. left. repeat split. }
  apply bind_Ok in H. destruct H as (s & Hs & H). injection H as <-.
  right. unfold surfels in Hs.
  apply bind_Ok in Hs. destruct Hs as (distmap_gt & Hgt & Hs).
  apply bind_Ok in Hs. destruct Hs as (distmap_pred & Hpred & Hs).
  injection Hs as <-. cbn [fst snd].
  destruct (neighbour_code_maps_shape _ _ Hmaps) as (Wgt & Wpred & Hsh).
  assert (Wbg : wf (ufunc1 is_border codes_gt))
    by (unfold wf, size in *; simpl; now rewrite length_map).
  assert (Wbp : wf (ufunc1 is_border codes_pred))
    by (unfold wf, size in *; simpl; now rewrite length_map).
  assert (Hlen : length (data codes_gt) = length (data codes_pred))
    by (unfold wf, size in *; congruence).
  do 4 eexists. split; [|split; [|split; [|repeat split; reflexivity]]].
  - apply boolean_index_length.
    rewrite (@distmap_length _ _ _ Wbp Hpred). simpl. rewrite !length_map. auto.
  - apply boolean_index_length.
    rewrite (@distmap_length _ _ _ Wbg Hgt). simpl. rewrite !length_map. auto.
  - intros Hsp.
    pose proof (promote_spacing prediction label Hsp) as Hsp'.
    pose proof (area_table_nonneg Hsp' Harea) as Ht.
    assert (Hmap : forall codes : ndarray Z,
               Forall nonneg
                 (data (ufunc1 (fun code : Z => nth (Z.to_nat code) area 0%float) codes))).
    { intros codes. simpl. apply Forall_forall. intros x Hx.
      apply in_map_iff in Hx. destruct Hx as [c [<- _]]. now apply nth_nonneg. }
    repeat split; apply boolean_index_Forall; auto;
      eapply distmap_nonneg; eauto.
Qed.

(** ** Order and pairing of the four sequences *)



Lemma StronglySorted_nth {A} (R : A -> A -> Prop) (l : list A) (d : A) :
  StronglySorted R l ->
  forall i j, i < j < length l -> R (nth i l d) (nth j l d).
Proof.
  induction 1 as [|x l Hs IH Hx]; intros i j Hij; simpl in *; [lia|].
  destruct j as [|j]; [lia|]. destruct i as [|i].
  - rewrite Forall_forall in Hx. apply Hx, nth_In. lia.
  - apply IH. lia.
Qed.

Lemma lex_le_tie p q :
  lex_le p q -> (fst p =? fst q)%float = true -> (snd p <=? snd q)%float = true.
Proof.
  unfold lex_le. rewrite ltb_spec, eqb_spec. unfold SFltb, SFeqb.
  destruct (SFcompare _ _) as [[]|]; intros [H|[_ H]] E;
    try assumption; discriminate.
Qed.

Lemma lex_sorted_ties ds ars :
  length ds = length ars -> StronglySorted lex_le (combine ds ars) ->
  ties_by_area ds ars.
Proof.
  intros Hlen Hs i j Hij E.
  pose proof (@StronglySorted_nth _ _ _ (0, 0)%float Hs i j) as H.
  rewrite length_combine, <- Hlen, Nat.min_id in H. specialize (H Hij).
  rewrite !combine_nth in H by assumption.
  exact (lex_le_tie H E).
Qed.

(** C9: with a spacing of positive real numbers, the (distance, area)
    pairs of each side of a constructed [Distances] are in lexicographic
    order: by distance, and among equal distances by area. *)
Theorem surfels_lexicographic (prediction label : ndarray Z)
    (spacing : list float) (d : Distances) :
  Forall positive_finite spacing ->
  Distances_init prediction label spacing = Ok d ->
  (forall ds ars,
      distances_gt_to_pred d = Some ds -> surfel_areas_gt d = Some ars ->
      length ds = length ars /\ StronglySorted lex_le (combine ds ars)
      /\ ties_by_area ds ars)
  /\ (forall ds ars,
        distances_pred_to_gt d = Some ds -> surfel_areas_pred d = Some ars ->
        length ds = length ars /\ StronglySorted lex_le (combine ds ars)
        /\ ties_by_area ds ars).
Proof.
  intros Hsp H.
  assert (Hside : forall ds0 as0, length ds0 = length as0 ->
            Forall nonneg ds0 -> Forall nonneg as0 ->
            forall ds ars, Some (fst (sort_surfels ds0 as0)) = Some ds ->
                           Some (snd (sort_surfels ds0 as0)) = Some ars ->
            length ds = length ars /\ StronglySorted lex_le (combine ds ars)
            /\ ties_by_area ds ars).
  { intros ds0 as0 L Hd Ha ds ars [= <-] [= <-].
    pose proof (sort_surfels_length _ _ L) as L'.
    pose proof (sort_surfels_lex Hd Ha) as Hs.
    repeat split; auto. now apply lex_sorted_ties. }
  destruct (Distances_init_inv _ _ _ H)
    as [(E1 & E2 & E3 & E4)
       | (dg & ag & dp & ap & Lg & Lp & Hn & E1 & E3 & E2 & E4)].
  - split; intros ds ars Hds; congruence.
  - destruct (Hn Hsp) as (Hdg & Hag & Hdp & Hap).
    rewrite E1, E2, E3, E4. split; apply Hside; assumption.
Qed.



Lemma surfels_lexicographic_witness :
  exists d ds ars,
    Distances_init (voxel [3; 3; 3] [1; 1; 1]) (voxel [3; 3; 3] [1; 2; 0])
      [1; 2; 3]%float = Ok d
    /\ distances_gt_to_pred d = Some ds /\ surfel_areas_gt d = Some ars
    /\ ds <> []
    /\ length ds = length ars /\ StronglySorted lex_le (combine ds ars)
    /\ ties_by_area ds ars.
Proof.
  do 3 eexists. split; [vm_compute; reflexivity|].
  split; [reflexivity|]. split; [reflexivity|]. split; [discriminate|].
  refine (proj1 (@surfels_lexicographic (voxel [3; 3; 3] [1; 1; 1])
                   (voxel [3; 3; 3] [1; 2; 0]) [1; 2; 3]%float _ _ _) _ _ _ _).
  - repeat constructor.
  - vm_compute. reflexivity.
  - reflexivity.
  - reflexivity.
Defined.

(** ** The degenerate neighbour codes *)

Lemma zero_mul (s : float) : positive_finite s -> (0 * s)%float = 0%float.
Proof.
  intros H. apply Prim2SF_inj. rewrite mul_spec.
  unfold positive_finite in H. rewrite !ltb_spec in H.
  apply andb_prop in H. destruct H as [H0 Hinf].
  change (Prim2SF infinity) with (S754_infinity false) in Hinf.
  change (Prim2SF 0) with (S754_zero false) in *.
  destruct (Prim2SF s) as [sz|[]| |[] m e]; try discriminate. reflexivity.
Qed.

Lemma area_of_code_zero s0 s1 s2 :
  positive_finite s0 -> positive_finite s1 -> positive_finite s2 ->
  area_of_code s0 s1 s2 [(0, 0, 0)%float] = 0%float.
Proof.
  intros H0 H1 H2. unfold area_of_code, area_of_normal. simpl.
  now rewrite (zero_mul H0), (zero_mul H1), (zero_mul H2).
Qed.

(** C8: for a spacing of positive real numbers the area table has 256
    entries, and the ones of code 0 and of code 255 are exactly 0. *)
Theorem degenerate_codes_zero_area (spacing : list float) :
  Forall positive_finite spacing -> 3 <= length spacing ->
  exists table,
    neighbour_code_to_surface_area neighbour_code_to_normals spacing = Ok table
    /\ length table = 256
    /\ nth_error table 0 = Some 0%float
    /\ nth_error table 255 = Some 0%float.
Proof.
  intros Hs Hlen.
  destruct spacing as [|s0 [|s1 [|s2 rest]]]; simpl in Hlen; try lia.
  inversion Hs as [|? ? H0 Hs1]; subst.
  inversion Hs1 as [|? ? H1 Hs2]; subst.
  inversion Hs2 as [|? ? H2 _]; subst.
  rewrite neighbour_code_to_surface_area_ok.
  eexists. split; [reflexivity|].
  split; [rewrite length_map; reflexivity|].
  rewrite !nth_error_map.
  change (nth_error neighbour_code_to_normals 0) with (Some [(0, 0, 0)%float]).
  change (nth_error neighbour_code_to_normals 255) with (Some [(0, 0, 0)%float]).
  simpl. now rewrite area_of_code_zero.
Qed.

Lemma degenerate_codes_zero_area_witness :
  exists table,
    neighbour_code_to_surface_area neighbour_code_to_normals [0.5; 2; 3]%float
    = Ok table
    /\ length table = 256
    /\ nth_error table 0 = Some 0%float
    /\ nth_error table 255 = Some 0%float.
Proof.
  apply (@degenerate_codes_zero_area [0.5; 2; 3]%float).
  - repeat constructor.
  - simpl. lia.
Defined.

(** ** Scenario B: one ground-truth voxel, no prediction *)

Lemma scenario_B_codes :
  neighbour_code_maps scenario_B_prediction scenario_B_label
  = Ok (Some ({| shape := [2; 2; 2]; data := [1; 2; 4; 8; 16; 32; 64; 128]%Z |},
              {| shape := [2; 2; 2]; data := [0; 0; 0; 0; 0; 0; 0; 0]%Z |})).
Proof. vm_compute. reflexivity. Qed.

Lemma map_fst_constant {A B} (c : A) (l : list (A * B)) :
  Forall (fun p => fst p = c) l -> map fst l = repeat c (length l).
Proof. induction 1 as [|[a b] l Ha _ IH]; simpl in *; congruence. Qed.

Lemma sorted_constant_fst c ars :
  map fst (F64.sorted (combine (repeat c (length ars)) ars))
  = repeat c (length ars).
Proof.
  rewrite (@map_fst_constant _ _ c).
  - now rewrite length_sorted, length_combine, repeat_length, Nat.min_id.
  - apply Forall_sorted. apply Forall_forall. intros [a b] Hin. simpl.
    apply in_combine_l in Hin. now apply repeat_spec in Hin.
Qed.

(** C2, as amended: in scenario B, for every spacing of three positive
    real numbers, the constructor returns, [distances_pred_to_gt] is empty,
    and [distances_gt_to_pred] holds eight distances, each of them
    +infinity. *)
Theorem scenario_B_distances (sx sy sz : float) :
  positive_finite sx -> positive_finite sy -> positive_finite sz ->
  exists d,
    Distances_init scenario_B_prediction scenario_B_label [sx; sy; sz] = Ok d
    /\ distances_pred_to_gt d = Some []
    /\ distances_gt_to_pred d = Some (repeat infinity 8).
Proof.
  intros Hx Hy Hz. unfold Distances_init.
  rewrite _calculate_stages. cbn [_neighbour_code_to_normals].
  change (promote scenario_B_prediction scenario_B_label [sx; sy; sz])
    with (scenario_B_prediction, scenario_B_label, [sx; sy; sz]).
  cbn [fst snd].
  rewrite neighbour_code_to_surface_area_ok, scenario_B_codes.
  cbn [bind]. unfold surfels, distmap.
  set (codes_gt := {| shape := [2; 2; 2]; data := [1; 2; 4; 8; 16; 32; 64; 128]%Z |}).
  set (codes_pred := {| shape := [2; 2; 2]; data := [0; 0; 0; 0; 0; 0; 0; 0]%Z |}).
  change (any (ufunc1 is_border codes_gt)) with true.
  change (any (ufunc1 is_border codes_pred)) with false.
  cbv iota. unfold Ndimage.distance_transform_edt.
  change (negb (length [sx; sy; sz] =? ndim (ufunc1 negb (ufunc1 is_border codes_gt))))
    with false.
  cbv iota. cbn [bind fst snd].
  eexists. split; [reflexivity|]. cbn [distances_pred_to_gt distances_gt_to_pred].
  split.
  - reflexivity.
  - f_equal.
    set (ds := boolean_index (ufunc1 (fun _ : bool => (infinity * 1)%float) _) _).
    set (areas := boolean_index (ufunc1 (fun code : Z => _) codes_gt) _).
    assert (Hds : ds = repeat infinity 8) by (vm_compute; reflexivity).
    assert (Hlen : length areas = 8) by reflexivity.
    rewrite Hds. unfold sort_surfels.
    change (negb (length (repeat infinity 8) =? 0)) with true.
    cbv iota. cbn [fst]. rewrite <- Hlen.
    apply sorted_constant_fst.
Qed.

Lemma scenario_B_distances_witness :
  exists d,
    Distances_init scenario_B_prediction scenario_B_label [0.5; 1; 2]%float = Ok d
    /\ distances_pred_to_gt d = Some []
    /\ distances_gt_to_pred d = Some (repeat infinity 8).
Proof.
  apply (@scenario_B_distances 0.5%float 1%float 2%float); reflexivity.
Defined.

(** C2 as stated fails: in scenario B with spacing (1, 1, 1) the eight
    entries of [distances_gt_to_pred] are +infinity, none of them finite. *)
Lemma scenario_B_distances_not_finite :
  exists d,
    Distances_init scenario_B_prediction scenario_B_label [1; 1; 1]%float = Ok d
    /\ distances_pred_to_gt d = Some []
    /\ distances_gt_to_pred d = Some (repeat infinity 8)
    /\ ~ (forall ds, distances_gt_to_pred d = Some ds ->
                     Forall (fun x => is_finite x = true) ds).
Proof.
  eexists. split; [vm_compute; reflexivity|].
  split; [reflexivity|]. split; [reflexivity|].
  intros H. specialize (H _ eq_refl).
  inversion H as [|x l Hx _]. discriminate Hx.
Qed.

(* ================================================================== *)
(** * Further properties *)

(** ** ConfusionMatrix: what the four cells count *)

Lemma ConfusionMatrix_same_shape prediction label :
  wf prediction -> wf label -> shape prediction = shape label ->
  ConfusionMatrix_init prediction label
  = Ok {| tp := count_pairs 1 1 (data prediction) (data label);
          tn := count_pairs 0 0 (data prediction) (data label);
          fp := count_pairs 1 0 (data prediction) (data label);
          fn := count_pairs 0 1 (data prediction) (data label);
          n := size prediction |}.
Proof.
  intros Hp Hl E. unfold ConfusionMatrix_init.
  now rewrite !count_and_same_shape by assumption.
Qed.

Lemma count_pairs_diagonal x y l : x <> y -> count_pairs x y l l = 0.
Proof.
  intros H. unfold count_pairs. induction l as [|v l IH]; simpl; [reflexivity|].
  destruct (v =? x)%Z eqn:Ex, (v =? y)%Z eqn:Ey; simpl; try assumption.
  apply Z.eqb_eq in Ex, Ey. congruence.
Qed.

Lemma count_pairs_diagonal_le l :
  count_pairs 1 1 l l + count_pairs 0 0 l l <= length l.
Proof.
  unfold count_pairs. induction l as [|v l IH]; simpl; [lia|].
  destruct (Z.eqb_spec v 1), (Z.eqb_spec v 0); simpl; lia.
Qed.

(** X1: A prediction that equals the label voxel by voxel has no false
    positive and no false negative. *)
Theorem identical_volumes_no_errors (prediction label : ndarray Z) :
  wf prediction -> shape prediction = shape label ->
  data prediction = data label ->
  exists cm, ConfusionMatrix_init prediction label = Ok cm
             /\ fp cm = 0 /\ fn cm = 0 /\ tp cm + tn cm <= n cm.
Proof.
  intros Hp Es Ed.
  assert (Hl : wf label) by (unfold wf, size in *; congruence).
  rewrite (ConfusionMatrix_same_shape Hp Hl Es). eexists. split; [reflexivity|].
  simpl. rewrite <- Ed, !count_pairs_diagonal by discriminate.
  repeat split.
  unfold size. rewrite <- Hp. apply count_pairs_diagonal_le.
Qed.

Lemma identical_volumes_no_errors_witness :
  exists cm,
    ConfusionMatrix_init {| shape := [3]; data := [1; 0; 2]%Z |}
                         {| shape := [3]; data := [1; 0; 2]%Z |} = Ok cm
    /\ fp cm = 0 /\ fn cm = 0 /\ tp cm + tn cm <= n cm.
Proof.
  apply (@identical_volumes_no_errors
           {| shape := [3]; data := [1; 0; 2]%Z |}
           {| shape := [3]; data := [1; 0; 2]%Z |}); reflexivity.
Defined.

Lemma binaryb_spec z : binaryb z = true <-> binary z.
Proof. unfold binaryb, binary. destruct (Z.eqb_spec z 0), (Z.eqb_spec z 1); simpl; intuition lia. Qed.

(** The four cells together count the positions where both entries are
    0 or 1, each such position once. *)
Lemma count_pairs_cells (dp : list Z) : forall dl,
  count_pairs 1 1 dp dl + count_pairs 0 0 dp dl
  + count_pairs 1 0 dp dl + count_pairs 0 1 dp dl
  = length (filter (fun q => binaryb (fst q) && binaryb (snd q)) (combine dp dl)).
Proof.
  unfold count_pairs, binaryb.
  induction dp as [|v dp IH]; intros [|w dl]; simpl; try reflexivity.
  specialize (IH dl).
  destruct (Z.eqb_spec v 1), (Z.eqb_spec v 0), (Z.eqb_spec w 1), (Z.eqb_spec w 0);
    simpl; lia.
Qed.

Lemma filter_all {A} (f : A -> bool) (l : list A) :
  length (filter f l) = length l <-> Forall (fun x => f x = true) l.
Proof.
  induction l as [|x l IH]; simpl; [split; auto|].
  pose proof (filter_length_le f l) as Hle.
  destruct (f x) eqn:E; simpl; split; intros H.
  - constructor; [assumption | apply IH; lia].
  - inversion H; subst. f_equal. now apply IH.
  - lia.
  - inversion H; congruence.
Qed.

Lemma Forall_combine_binary (dp : list Z) : forall dl,
  length dp = length dl ->
  (Forall (fun q => binaryb (fst q) && binaryb (snd q) = true) (combine dp dl)
   <-> Forall binary dp /\ Forall binary dl).
Proof.
  induction dp as [|v dp IH]; intros [|w dl] Hlen; simpl in *; try discriminate.
  - split; auto.
  - specialize (IH dl (eq_add_S _ _ Hlen)). split.
    + intros H. inversion H as [|? ? Hq Hr]; subst. simpl in Hq.
      apply andb_prop in Hq. destruct Hq as [Hv Hw].
      apply binaryb_spec in Hv, Hw. apply IH in Hr. destruct Hr.
      split; constructor; assumption.
    + intros [Hp Hl]. inversion Hp; inversion Hl; subst.
      constructor; [|apply IH; auto]. simpl.
      apply andb_true_intro. split; now apply binaryb_spec.
Qed.

(** X2: On volumes of one shape the four cells never count a voxel twice:
    their sum is at most [n], and it is [n] exactly when every entry of
    both volumes is 0 or 1. *)
Theorem confusion_cells_partial (prediction label : ndarray Z) :
  wf prediction -> wf label -> shape prediction = shape label ->
  exists cm, ConfusionMatrix_init prediction label = Ok cm
             /\ tp cm + tn cm + fp cm + fn cm <= n cm
             /\ (tp cm + tn cm + fp cm + fn cm = n cm
                 <-> Forall binary (data prediction) /\ Forall binary (data label)).
Proof.
  intros Hp Hl Es.
  rewrite (ConfusionMatrix_same_shape Hp Hl Es). eexists. split; [reflexivity|].
  simpl. rewrite count_pairs_cells.
  assert (Hlen : length (data prediction) = length (data label))
    by (unfold wf, size in *; congruence).
  assert (Hc : length (combine (data prediction) (data label)) = size prediction)
    by (rewrite length_combine, <- Hlen, Nat.min_id; exact Hp).
  split.
  - rewrite <- Hc. apply filter_length_le.
  - rewrite <- Hc, filter_all. now apply Forall_combine_binary.
Qed.

Lemma confusion_cells_partial_witness :
  exists cm,
    ConfusionMatrix_init {| shape := [3]; data := [1; 0; 2]%Z |}
                         {| shape := [3]; data := [1; 1; 0]%Z |} = Ok cm
    /\ tp cm + tn cm + fp cm + fn cm <= n cm
    /\ (tp cm + tn cm + fp cm + fn cm = n cm
        <-> Forall binary [1; 0; 2]%Z /\ Forall binary [1; 1; 0]%Z).
Proof.
  apply (@confusion_cells_partial
           {| shape := [3]; data := [1; 0; 2]%Z |}
           {| shape := [3]; data := [1; 1; 0]%Z |}); reflexivity.
Defined.

Lemma count_pairs_swap x y (dp : list Z) : forall dl,
  count_pairs x y dp dl = count_pairs y x dl dp.
Proof.
  unfold count_pairs. induction dp as [|v dp IH]; intros [|w dl]; simpl;
    try reflexivity.
  rewrite (andb_comm (v =? x)%Z). destruct ((w =? y)%Z && (v =? x)%Z); simpl;
    now rewrite IH.
Qed.

(** X3: Exchanging prediction and label exchanges false positives and false
    negatives and keeps the true positives and true negatives. *)
Theorem confusion_swap (prediction label : ndarray Z) (cm : ConfusionMatrix) :
  wf prediction -> wf label -> shape prediction = shape label ->
  ConfusionMatrix_init prediction label = Ok cm ->
  ConfusionMatrix_init label prediction
  = Ok {| tp := tp cm; tn := tn cm; fp := fn cm; fn := fp cm; n := n cm |}.
Proof.
  intros Hp Hl Es.
  rewrite (ConfusionMatrix_same_shape Hp Hl Es),
          (ConfusionMatrix_same_shape Hl Hp (eq_sym Es)).
  intros [= <-]. simpl. unfold size. rewrite Es.
  do 2 f_equal; apply count_pairs_swap.
Qed.

Lemma confusion_swap_witness :
  ConfusionMatrix_init {| shape := [4]; data := [1; 0; 0; 0]%Z |}
                       {| shape := [4]; data := [1; 1; 0; 1]%Z |}
  = Ok {| tp := 1; tn := 1; fp := 0; fn := 2; n := 4 |}.
Proof.
  apply (@confusion_swap {| shape := [4]; data := [1; 1; 0; 1]%Z |}
           {| shape := [4]; data := [1; 0; 0; 0]%Z |}
           {| tp := 1; tn := 1; fp := 2; fn := 0; n := 4 |}); reflexivity.
Defined.

(** ** Distances: the stages behind a constructed object *)

(** A constructed object: either [_calculate] left early, or it went
    through all its stages. *)
Lemma Distances_init_cases prediction label spacing d :
  Distances_init prediction label spacing = Ok d ->
  (neighbour_code_maps (fst (fst (promote prediction label spacing)))
     (snd (fst (promote prediction label spacing))) = Ok None /\ untouched d)
  \/ exists spacing' area codes_gt codes_pred distmap_gt distmap_pred,
       computed prediction label spacing d spacing' area codes_gt codes_pred
         distmap_gt distmap_pred.
Proof.
  unfold Distances_init. intros H.
  apply bind_Ok in H. destruct H as (r & H & Hd). injection Hd as <-.
  rewrite _calculate_stages in H. cbn [_neighbour_code_to_normals] in H.
  apply bind_Ok in H. destruct H as (area & Harea & H).
  apply bind_Ok in H. destruct H as ([[cg cp]|] & Hmaps & H).
  2: { injection H as <-. left. repeat split. exact Hmaps. }
  apply bind_Ok in H. destruct H as (s & Hs & H). injection H as <-.
  right. unfold surfels in Hs.
  apply bind_Ok in Hs. destruct Hs as (dg & Hgt & Hs).
  apply bind_Ok in Hs. destruct Hs as (dp & Hpred & Hs).
  injection Hs as <-. cbn [fst snd].
  exists (snd (promote prediction label spacing)), area, cg, cp, dg, dp.
  unfold computed. repeat split; assumption.
Qed.

(** ** Distances: the values of the four sequences *)

Lemma Forall_combine {A B} (P : A -> Prop) (Q : B -> Prop) (u : list A) :
  forall v, Forall P u -> Forall Q v ->
            Forall (fun p => P (fst p) /\ Q (snd p)) (combine u v).
Proof.
  induction u as [|x u IH]; intros [|y v] Hu Hv; simpl; try constructor.
  - inversion Hu; inversion Hv; subst. split; assumption.
  - inversion Hu; inversion Hv; subst. now apply IH.
Qed.

Lemma sort_surfels_Forall (P Q : float -> Prop) ds ars :
  Forall P ds -> Forall Q ars ->
  Forall P (fst (sort_surfels ds ars)) /\ Forall Q (snd (sort_surfels ds ars)).
Proof.
  intros Hd Ha. unfold sort_surfels. destruct (negb _); [|auto].
  cbn [fst snd].
  pose proof (Forall_sorted (Forall_combine Hd Ha)) as H.
  split; apply Forall_map; eapply Forall_impl; try exact H;
    intros p [Hp Hq]; assumption.
Qed.

Lemma nonneg_leb x : nonneg x -> (0 <=? x)%float = true.
Proof.
  unfold nonneg. rewrite leb_spec.
  change (Prim2SF 0) with (S754_zero false).
  destruct (Prim2SF x) as [s|s| |s m e]; simpl; try contradiction;
    intros ->; reflexivity.
Qed.

(** X4: With a spacing of positive real numbers every distance and every
    area of a constructed [Distances] is a number [>= 0] or +infinity,
    never NaN. *)
Theorem entries_not_negative (prediction label : ndarray Z)
    (spacing : list float) (d : Distances) (l : list float) :
  Forall positive_finite spacing ->
  Distances_init prediction label spacing = Ok d ->
  In (Some l) [distances_gt_to_pred d; distances_pred_to_gt d;
               surfel_areas_gt d; surfel_areas_pred d] ->
  Forall (fun x => (0 <=? x)%float = true) l.
Proof.
  intros Hsp H Hin.
  assert (Hn : Forall nonneg l).
  { destruct (Distances_init_inv _ _ _ H)
      as [(E1 & E2 & E3 & E4)
         | (dg & ag & dp & ap & _ & _ & Hn & E1 & E3 & E2 & E4)].
    - rewrite E1, E2, E3, E4 in Hin. simpl in Hin. intuition discriminate.
    - destruct (Hn Hsp) as (Hdg & Hag & Hdp & Hap).
      destruct (sort_surfels_Forall Hdg Hag) as [G1 G2].
      destruct (sort_surfels_Forall Hdp Hap) as [P1 P2].
      rewrite E1, E2, E3, E4 in Hin. simpl in Hin.
      destruct Hin as [[= <-]|[[= <-]|[[= <-]|[[= <-]|[]]]]]; assumption. }
  eapply Forall_impl; [|exact Hn]. intros x. apply nonneg_leb.
Qed.

Lemma entries_not_negative_witness :
  exists d l,
    Distances_init (voxel [3; 3; 3] [1; 1; 1]) (voxel [3; 3; 3] [1; 2; 0])
      [1; 2; 3]%float = Ok d
    /\ distances_pred_to_gt d = Some l /\ l <> []
    /\ Forall (fun x => (0 <=? x)%float = true) l.
Proof.
  do 2 eexists. split; [vm_compute; reflexivity|].
  split; [reflexivity|]. split; [discriminate|].
  eapply (@entries_not_negative (voxel [3; 3; 3] [1; 1; 1])
            (voxel [3; 3; 3] [1; 2; 0]) [1; 2; 3]%float).
  - repeat constructor.
  - vm_compute. reflexivity.
  - right. left. reflexivity.
Defined.

(** ** The sort step *)

Lemma insert_Permutation x l : Permutation (F64.insert x l) (x :: l).
Proof.
  induction l as [|y l IH]; simpl; [reflexivity|].
  destruct (F64.tuple_lt y x); [|reflexivity].
  rewrite IH. apply perm_swap.
Qed.

Lemma sorted_Permutation l : Permutation (F64.sorted l) l.
Proof.
  unfold F64.sorted. induction l as [|x l IH]; simpl; [reflexivity|].
  rewrite insert_Permutation. now constructor.
Qed.

(** X5: The sort step only reorders: the (distance, area) pairs that come out
    are the pairs that went in, each as often as before, and every
    distance is still next to its own area. *)
Theorem sort_surfels_permutes (distances areas : list float) :
  Permutation
    (combine (fst (sort_surfels distances areas)) (snd (sort_surfels distances areas)))
    (combine distances areas).
Proof.
  unfold sort_surfels. destruct (negb _); [|reflexivity].
  cbn [fst snd]. rewrite combine_fst_snd. apply sorted_Permutation.
Qed.

(** ** A volume without foreground *)

Lemma cropmask_all_zero arr bbox_min bbox_max cm :
  all_background arr -> cropmask arr bbox_min bbox_max = Ok cm -> all_background cm.
Proof.
  intros Ha. unfold cropmask, basic_slice, assign_broadcast. intros H.
  apply bind_Ok in H. destruct H as (value & Hvalue & H).
  apply bind_Ok in H. destruct H as (view & Hview & H).
  injection H as <-. apply tabulate_all_zero. intros idx.
  destruct (forallb _ _); [|reflexivity].
  destruct (ndim arr <? _); [discriminate|]. injection Hvalue as <-.
  destruct (fits_rev _ _); [|discriminate]. injection Hview as <-.
  rewrite get_all_zero; [reflexivity|].
  apply tabulate_all_zero. intros idx'. apply get_all_zero.
  unfold all_background; simpl. apply Forall_forall. intros x Hx.
  apply in_map_iff in Hx. destruct Hx as (k & <- & _).
  symmetry. now apply get_all_zero.
Qed.

Lemma fold_add_all_zero (l : list Z) :
  Forall (eq 0%Z) l -> fold_left Z.add l 0%Z = 0%Z.
Proof. induction 1 as [|x l <- _ IH]; simpl; auto. Qed.

Lemma correlate_all_zero input weights :
  all_background input -> all_background (Ndimage.correlate input weights).
Proof.
  intros Ha. apply tabulate_all_zero. intros idx.
  rewrite fold_add_all_zero; [reflexivity|].
  apply Forall_forall. intros x Hx. apply in_map_iff in Hx.
  destruct Hx as (m & <- & _). cbv zeta.
  unfold Ndimage.get_constant. destruct (forallb _ _); [|reflexivity].
  now rewrite get_all_zero.
Qed.

Lemma neighbour_code_maps_background seg gt codes_gt codes_pred :
  neighbour_code_maps seg gt = Ok (Some (codes_gt, codes_pred)) ->
  (all_background gt -> all_background codes_gt)
  /\ (all_background seg -> all_background codes_pred).
Proof.
  unfold neighbour_code_maps. intros H.
  repeat (apply bind_Ok in H; destruct H as (? & _ & H)).
  destruct (length _ =? 0); [discriminate|].
  do 10 (apply bind_Ok in H; destruct H as (? & _ & H)).
  apply bind_Ok in H. destruct H as (cm_gt & Hgt & H).
  apply bind_Ok in H. destruct H as (cm_pred & Hpred & H).
  injection H as <- <-.
  split; intros Hb; apply correlate_all_zero; eapply cropmask_all_zero; eauto.
Qed.

Lemma promote_background_fst p l sp :
  all_background p -> all_background (fst (fst (promote p l sp))).
Proof. intros H. unfold promote. destruct (_ && _); exact H. Qed.

Lemma promote_background_snd p l sp :
  all_background l -> all_background (snd (fst (promote p l sp))).
Proof. intros H. unfold promote. destruct (_ && _); exact H. Qed.

Lemma borders_all_zero codes :
  all_background codes -> Forall (eq false) (data (borders codes)).
Proof.
  unfold all_background, borders; simpl. intros H.
  apply Forall_map. eapply Forall_impl; [|exact H]. now intros x <-.
Qed.

Lemma any_all_false (b : ndarray bool) : Forall (eq false) (data b) -> any b = false.
Proof.
  unfold any. induction 1 as [|x l <- _ IH]; simpl; auto.
Qed.

Lemma boolean_index_all_false {A} (a : ndarray A) (mask : ndarray bool) :
  Forall (eq false) (data mask) -> boolean_index a mask = [].
Proof.
  unfold boolean_index. intros H. generalize (data a).
  induction H as [|x m <- _ IH]; intros [|y u]; simpl; auto.
Qed.

Lemma distmap_no_borders (b : ndarray bool) spacing dm :
  Forall (eq false) (data b) -> distmap b spacing = Ok dm ->
  Forall (eq infinity) (data dm).
Proof.
  intros Hb. unfold distmap. rewrite (@any_all_false _ Hb). intros [= <-]. simpl.
  apply Forall_map. apply Forall_forall. intros x _. reflexivity.
Qed.

(** What one all-background side gives. *)
Lemma side_without_surface area codes other distmap_own distmap_other :
  all_background codes ->
  Forall (eq infinity) (data distmap_own) ->
  side area codes distmap_other = ([], [])
  /\ Forall (eq infinity) (fst (side area other distmap_own)).
Proof.
  intros Hc Hinf. unfold side. split.
  - rewrite !boolean_index_all_false by (apply borders_all_zero; assumption).
    reflexivity.
  - refine (proj1 (@sort_surfels_Forall (eq infinity) (fun _ => True) _ _ _ _)).
    + now apply boolean_index_Forall.
    + apply Forall_forall. auto.
Qed.

(** X6: A side that is entirely background has no surface elements, and every
    distance measured from the other side to it is +infinity. *)
Theorem side_without_foreground (prediction label : ndarray Z)
    (spacing : list float) (d : Distances) :
  Distances_init prediction label spacing = Ok d ->
  (all_background prediction ->
   (forall ds, distances_pred_to_gt d = Some ds -> ds = [])
   /\ (forall ars, surfel_areas_pred d = Some ars -> ars = [])
   /\ (forall ds, distances_gt_to_pred d = Some ds -> Forall (eq infinity) ds))
  /\ (all_background label ->
      (forall ds, distances_gt_to_pred d = Some ds -> ds = [])
      /\ (forall ars, surfel_areas_gt d = Some ars -> ars = [])
      /\ (forall ds, distances_pred_to_gt d = Some ds -> Forall (eq infinity) ds)).
Proof.
  intros H.
  destruct (@Distances_init_cases _ _ _ _ H)
    as [[_ (E1 & E2 & E3 & E4)]
       | (sp' & area & cg & cp & dg & dp & _ & _ & Hc & Hdg & Hdp
          & E1 & E3 & E2 & E4)].
  { rewrite E1, E2, E3, E4. repeat split; intros; discriminate. }
  destruct (@neighbour_code_maps_background _ _ _ _ Hc) as [Bg Bp].
  rewrite E1, E2, E3, E4. split; intros Hb.
  - specialize (Bp (@promote_background_fst _ _ _ Hb)).
    pose proof (@distmap_no_borders _ _ _ (@borders_all_zero _ Bp) Hdp) as Hinf.
    destruct (@side_without_surface area cp cg dp dg Bp Hinf) as [Es Ef].
    rewrite Es. repeat split; intros ? [= <-]; auto.
  - specialize (Bg (@promote_background_snd _ _ _ Hb)).
    pose proof (@distmap_no_borders _ _ _ (@borders_all_zero _ Bg) Hdg) as Hinf.
    destruct (@side_without_surface area cg cp dg dp Bg Hinf) as [Es Ef].
    rewrite Es. repeat split; intros ? [= <-]; auto.
Qed.

Lemma side_without_foreground_witness :
  exists d ds,
    Distances_init (zeros [3; 3; 3]) (voxel [3; 3; 3] [1; 2; 0]) [1; 2; 3]%float
    = Ok d
    /\ distances_pred_to_gt d = Some []
    /\ distances_gt_to_pred d = Some ds /\ ds <> []
    /\ Forall (eq infinity) ds.
Proof.
  do 2 eexists. split; [vm_compute; reflexivity|].
  split; [reflexivity|]. split; [reflexivity|]. split; [discriminate|].
  refine (proj2 (proj2 (proj1 (@side_without_foreground (zeros [3; 3; 3])
                          (voxel [3; 3; 3] [1; 2; 0]) [1; 2; 3]%float _ _) _)) _ _).
  - vm_compute. reflexivity.
  - apply Forall_forall. intros x Hx. symmetry. exact (repeat_spec _ _ _ Hx).
  - reflexivity.
Defined.

(** ** Identical prediction and label *)

Lemma nonneg_not_below_zero x : nonneg x -> (x <? 0)%float = false.
Proof.
  unfold nonneg. rewrite ltb_spec. change (Prim2SF 0) with (S754_zero false).
  destruct (Prim2SF x) as [s|s| |s m e]; simpl; try contradiction;
    intros ->; reflexivity.
Qed.

Lemma nonneg_not_above_zero x : nonneg x -> (0 <? x)%float = false -> x = 0%float.
Proof.
  unfold nonneg. rewrite ltb_spec. change (Prim2SF 0) with (S754_zero false).
  intros Hs Hlt. apply Prim2SF_inj. change (Prim2SF 0) with (S754_zero false).
  destruct (Prim2SF x) as [s|s| |s m e]; simpl in *; try contradiction;
    subst; try discriminate; reflexivity.
Qed.

Lemma add_reduce_zeros (l : list float) :
  Forall (eq 0%float) l -> F64.add_reduce l = 0%float.
Proof.
  unfold F64.add_reduce. destruct 1 as [|x l <- Hl]; [reflexivity|].
  induction Hl as [|y l <- _ IH]; simpl; [reflexivity|]. exact IH.
Qed.

(** A voxel is at distance 0 from itself. *)
Lemma sq_distance_self sampling p :
  Forall positive_finite sampling -> Ndimage.sq_distance sampling p p = 0%float.
Proof.
  intros Hs. unfold Ndimage.sq_distance. apply add_reduce_zeros.
  apply Forall_forall. intros x Hx. apply in_map_iff in Hx.
  destruct Hx as ([[i j] s] & <- & Hin). cbn [fst snd].
  assert (Hij : i = j).
  { apply in_combine_l in Hin. clear -Hin.
    induction p as [|a p IH]; simpl in Hin; [contradiction|].
    destruct Hin as [[= <- <-]|Hin]; auto. }
  subst j. rewrite Z.sub_diag.
  apply in_combine_r in Hin. rewrite Forall_forall in Hs.
  change (F64.of_Z 0) with 0%float. now rewrite (@zero_mul _ (Hs _ Hin)).
Qed.

Section Nearest.
Variable f : list nat -> float.
Hypothesis f_nonneg : forall q, nonneg (f q).

Lemma nearest_stays_zero background :
  fold_left (fun best q => if (f q <? best)%float then f q else best)
    background 0%float = 0%float.
Proof.
  induction background as [|q qs IH]; simpl; [reflexivity|].
  now rewrite (@nonneg_not_below_zero _ (f_nonneg q)).
Qed.

Lemma nearest_reaches_zero background p : forall best,
  nonneg best -> In p background -> f p = 0%float ->
  fold_left (fun best q => if (f q <? best)%float then f q else best)
    background best = 0%float.
Proof.
  induction background as [|q qs IH]; intros best Hb Hin Hp; simpl;
    [contradiction|].
  destruct Hin as [->|Hin].
  - assert (E : (if (f p <? best)%float then f p else best) = 0%float).
    { rewrite Hp. destruct (0 <? best)%float eqn:E; [reflexivity|].
      now apply nonneg_not_above_zero. }
    rewrite E. apply nearest_stays_zero.
  - apply IH; try assumption.
    destruct (f q <? best)%float; auto.
Qed.

End Nearest.

(** The elements a boolean mask selects from a tabulated array. *)
Lemma selected_from_seq {A} (G : nat -> A) (x : A) : forall len s (m : list bool),
  In (true, x) (combine m (map G (seq s len))) ->
  exists k, s <= k < s + len /\ nth (k - s) m false = true /\ x = G k.
Proof.
  induction len as [|len IH]; intros s [|b m] H; simpl in H; try contradiction.
  destruct H as [[= Hb Hx]|H].
  - exists s. rewrite Nat.sub_diag. simpl. repeat split; auto; lia.
  - destruct (IH _ _ H) as (k & Hk & Hn & Hx). exists k.
    replace (k - s) with (S (k - S s)) by lia. simpl. repeat split; auto; lia.
Qed.

Lemma boolean_index_tabulate {A} sh (F : list nat -> A) (mask : ndarray bool) x :
  In x (boolean_index (tabulate sh F) mask) ->
  exists k, k < size_of sh /\ nth k (data mask) false = true /\ x = F (unravel sh k).
Proof.
  unfold boolean_index, tabulate; simpl. intros H.
  apply in_map_iff in H. destruct H as ([b y] & <- & H).
  apply filter_In in H. destruct H as [H Hb]. simpl in Hb. subst b.
  destruct (@selected_from_seq _ _ _ _ _ _ H) as (k & Hk & Hn & Hx).
  exists k. rewrite Nat.sub_0_r in Hn. repeat split; auto; lia.
Qed.

(** The distance map is 0 on the surface voxels it is computed from. *)
Lemma distmap_zero_on_borders (b : ndarray bool) spacing dm :
  wf b -> Forall positive_finite spacing -> distmap b spacing = Ok dm ->
  Forall (eq 0%float) (boolean_index dm b).
Proof.
  intros Hwf Hs. unfold distmap. destruct (any b) eqn:Eany.
  - unfold Ndimage.distance_transform_edt.
    destruct (negb _); [discriminate|]. intros [= <-].
    apply Forall_forall. intros x Hx.
    apply boolean_index_tabulate in Hx. destruct Hx as (k & Hk & Hn & ->).
    cbn [shape ufunc1] in *.
    symmetry.
    rewrite (@nearest_reaches_zero
               (fun q => Ndimage.sq_distance spacing (unravel (shape b) k) q)
               (fun q => @sq_distance_nonneg _ _ _ Hs) _ (unravel (shape b) k)).
    + reflexivity.
    + exact infinity_nonneg.
    + apply in_map. apply filter_In. split.
      * apply in_seq. unfold size; simpl. lia.
      * simpl. change true with (negb false) at 1. rewrite map_nth.
        now rewrite Hn.
    + now apply sq_distance_self.
  - intros [= <-].
    assert (Hf : Forall (eq false) (data b)).
    { unfold any in Eany. apply Forall_forall. intros x Hx.
      destruct x; [|reflexivity].
      assert (existsb (fun b0 : bool => b0) (data b) = true)
        by (apply existsb_exists; exists true; auto).
      congruence. }
    now rewrite (@boolean_index_all_false _ _ _ Hf).
Qed.

Lemma neighbour_code_maps_same a codes_gt codes_pred :
  neighbour_code_maps a a = Ok (Some (codes_gt, codes_pred)) -> codes_gt = codes_pred.
Proof.
  unfold neighbour_code_maps. intros H.
  repeat (apply bind_Ok in H; destruct H as (? & _ & H)).
  destruct (length _ =? 0); [discriminate|].
  do 10 (apply bind_Ok in H; destruct H as (? & _ & H)).
  apply bind_Ok in H. destruct H as (cm_gt & Hgt & H).
  apply bind_Ok in H. destruct H as (cm_pred & Hpred & H).
  injection H as <- <-. congruence.
Qed.

Lemma promote_same a sp :
  fst (fst (promote a a sp)) = snd (fst (promote a a sp)).
Proof. unfold promote. destruct (_ && _); reflexivity. Qed.

(** X7: When prediction and label are the same volume, every surface element
    is at distance exactly 0 from the other surface, in both directions. *)
Theorem identical_volumes_zero_distance (volume : ndarray Z)
    (spacing : list float) (d : Distances) :
  Forall positive_finite spacing ->
  Distances_init volume volume spacing = Ok d ->
  (forall ds, distances_gt_to_pred d = Some ds -> Forall (eq 0%float) ds)
  /\ (forall ds, distances_pred_to_gt d = Some ds -> Forall (eq 0%float) ds).
Proof.
  intros Hsp H.
  destruct (@Distances_init_cases _ _ _ _ H)
    as [[_ (E1 & E2 & _)]
       | (sp' & area & cg & cp & dg & dp & Esp & _ & Hc & Hdg & Hdp
          & E1 & _ & E2 & _)].
  { rewrite E1, E2. split; intros; discriminate. }
  rewrite promote_same in Hc.
  pose proof (@neighbour_code_maps_same _ _ _ Hc) as <-.
  rewrite Hdg in Hdp. injection Hdp as <-.
  destruct (@neighbour_code_maps_shape _ _ _ _ Hc) as (Wc & _ & _).
  assert (Wb : wf (borders cg))
    by (unfold wf, size, borders in *; simpl; now rewrite length_map).
  assert (Hsp' : Forall positive_finite sp')
    by (rewrite Esp; now apply promote_spacing).
  pose proof (distmap_zero_on_borders Wb Hsp' Hdg) as Hz.
  assert (Hside : Forall (eq 0%float) (fst (side area cg dg))).
  { refine (proj1 (@sort_surfels_Forall (eq 0%float) (fun _ => True) _ _ Hz _)).
    apply Forall_forall. auto. }
  rewrite E1, E2. split; intros ds [= <-]; exact Hside.
Qed.

Lemma identical_volumes_zero_distance_witness :
  exists d ds,
    Distances_init (voxel [3; 3; 3] [1; 2; 0]) (voxel [3; 3; 3] [1; 2; 0])
      [1; 2; 3]%float = Ok d
    /\ distances_gt_to_pred d = Some ds /\ ds <> []
    /\ Forall (eq 0%float) ds.
Proof.
  do 2 eexists. split; [vm_compute; reflexivity|].
  split; [reflexivity|]. split; [discriminate|].
  refine (proj1 (@identical_volumes_zero_distance (voxel [3; 3; 3] [1; 2; 0])
                   [1; 2; 3]%float _ _ _) _ _).
  - repeat constructor.
  - vm_compute. reflexivity.
  - reflexivity.
Defined.

(** ** Distances: exchanging prediction and label *)

Lemma map_combine_comm {A B} (f : A -> A -> B) (u : list A) :
  (forall x y, f x y = f y x) ->
  forall v, map (fun p => f (fst p) (snd p)) (combine u v)
            = map (fun p => f (fst p) (snd p)) (combine v u).
Proof.
  intros Hf. induction u as [|x u IH]; intros [|y v]; simpl; try reflexivity.
  now rewrite Hf, IH.
Qed.

Lemma lor_comm (a b : ndarray Z) :
  ufunc2 0%Z 0%Z Z.lor a b = ufunc2 0%Z 0%Z Z.lor b a.
Proof.
  unfold ufunc2. rewrite broadcast_shapes_comm.
  destruct (broadcast_shapes (shape b) (shape a)); [|reflexivity].
  do 2 f_equal. apply map_combine_comm. apply Z.lor_comm.
Qed.

Lemma neighbour_code_maps_swap seg gt r :
  neighbour_code_maps seg gt = Ok r ->
  neighbour_code_maps gt seg
  = Ok (option_map (fun p => (snd p, fst p)) r).
Proof.
  unfold neighbour_code_maps. rewrite (lor_comm gt seg).
  destruct (ufunc2 0%Z 0%Z Z.lor seg gt) as [mask_all|]; simpl; [|discriminate].
  destruct (amax mask_all 2) as [max_2|]; simpl; [|discriminate].
  destruct (amax max_2 1) as [proj_0|]; simpl; [|discriminate].
  destruct (length (nonzero_0 proj_0) =? 0); [now intros [= <-]|].
  repeat match goal with
         | |- context [bind ?c _] =>
             match c with
             | bind _ _ => fail 1
             | _ => destruct c; simpl; [|discriminate]
             end
         end.
  now intros [= <-].
Qed.

Lemma surfels_swap area sp codes_gt codes_pred s :
  surfels area sp codes_gt codes_pred = Ok s ->
  surfels area sp codes_pred codes_gt = Ok (snd s, fst s).
Proof.
  unfold surfels.
  destruct (distmap (ufunc1 is_border codes_gt) sp); simpl; [|discriminate].
  destruct (distmap (ufunc1 is_border codes_pred) sp); simpl; [|discriminate].
  now intros [= <-].
Qed.

Lemma promote_swap p l sp :
  promote l p sp
  = (snd (fst (promote p l sp)), fst (fst (promote p l sp)), snd (promote p l sp)).
Proof.
  unfold promote. rewrite (andb_comm (ndim l =? 2)).
  destruct (_ && _); reflexivity.
Qed.

(** X8: Exchanging prediction and label exchanges the two directions: what
    was measured from the ground truth to the prediction is then measured
    from the prediction to the ground truth, areas included. *)
Theorem exchange_prediction_label (prediction label : ndarray Z)
    (spacing : list float) (d : Distances) :
  Distances_init prediction label spacing = Ok d ->
  Distances_init label prediction spacing = Ok (swap_sides d).
Proof.
  unfold Distances_init. intros H.
  apply bind_Ok in H. destruct H as (r & H & Hd). injection Hd as <-.
  rewrite _calculate_stages in *. cbn [_neighbour_code_to_normals] in *.
  rewrite (promote_swap prediction label spacing). cbn [fst snd].
  apply bind_Ok in H. destruct H as (area & -> & H). cbn [bind].
  apply bind_Ok in H. destruct H as (maps & Hmaps & H).
  rewrite (@neighbour_code_maps_swap _ _ _ Hmaps). cbn [bind].
  destruct maps as [[cg cp]|]; cbn [option_map fst snd].
  2: { injection H as <-. reflexivity. }
  apply bind_Ok in H. destruct H as (s & Hs & H). injection H as <-.
  rewrite (@surfels_swap _ _ _ _ _ Hs). reflexivity.
Qed.

Lemma exchange_prediction_label_witness :
  exists d,
    Distances_init (voxel [3; 3; 3] [0; 0; 0]) (voxel [3; 3; 3] [2; 1; 0])
      [1; 2; 3]%float = Ok d
    /\ distances_gt_to_pred d <> None
    /\ Distances_init (voxel [3; 3; 3] [2; 1; 0]) (voxel [3; 3; 3] [0; 0; 0])
         [1; 2; 3]%float = Ok (swap_sides d).
Proof.
  eexists. split; [vm_compute; reflexivity|]. split; [discriminate|].
  apply (@exchange_prediction_label (voxel [3; 3; 3] [0; 0; 0])
           (voxel [3; 3; 3] [2; 1; 0]) [1; 2; 3]%float).
  vm_compute. reflexivity.
Defined.

(** ** Distances: when the attributes are set *)

Lemma nth_map_combine {A B C} (f : A -> B -> C) (da : A) (db : B) (dc : C) :
  forall (u : list A) (v : list B) k,
    k < length u -> k < length v ->
    nth k (map (fun p => f (fst p) (snd p)) (combine u v)) dc
    = f (nth k u da) (nth k v db).
Proof.
  induction u as [|x u IH]; intros [|y v] [|k] Hu Hv; simpl in *; try lia;
    [reflexivity | apply IH; lia].
Qed.

Lemma broadcast_to_get {A} (d : A) (a : ndarray A) sh idx :
  shape a = sh -> Forall2 lt idx sh ->
  nth (ravel sh idx)
      (map (fun n => get d a (broadcast_index (shape a) (unravel sh n)))
           (seq 0 (size_of sh))) d
  = get d a idx.
Proof.
  intros Hs H.
  rewrite nth_map_seq by now apply ravel_bounded.
  rewrite unravel_ravel by assumption.
  unfold broadcast_index. rewrite Hs, (Forall2_length H), Nat.sub_diag. simpl.
  now rewrite stretch_bounded.
Qed.

(** On volumes of one shape the union mask is the bitwise or, voxel by
    voxel. *)
Lemma lor_get (a b m : ndarray Z) idx :
  shape b = shape a -> ufunc2 0%Z 0%Z Z.lor a b = Ok m ->
  Forall2 lt idx (shape a) ->
  shape m = shape a
  /\ get 0%Z m idx = Z.lor (get 0%Z a idx) (get 0%Z b idx).
Proof.
  intros Hb. unfold ufunc2. rewrite Hb, broadcast_shapes_same.
  intros [= <-] Hidx. split; [reflexivity|]. unfold get at 1. cbn [shape data].
  rewrite (@nth_map_combine _ _ _ Z.lor 0%Z 0%Z);
    try (rewrite length_map, length_seq; now apply ravel_bounded).
  now rewrite !broadcast_to_get.
Qed.

Lemma proj_0_nonzero (mask_all max_2 proj_0 : ndarray Z) d0 d1 d2 i j k :
  shape mask_all = [d0; S d1; S d2] ->
  amax mask_all 2 = Ok max_2 -> amax max_2 1 = Ok proj_0 ->
  i < d0 -> j <= d1 -> k <= d2 -> (0 < get 0%Z mask_all [i; j; k])%Z ->
  In i (nonzero_0 proj_0).
Proof.
  intros Hs E2 P0 Hi Hj Hk Hpos.
  apply (@nonzero_0_1d proj_0 d0 i (@proj_0_shape _ _ _ _ Hs _ _ E2 P0)). split; [assumption|].
  rewrite (@proj_0_get _ _ _ _ Hs _ _ E2 P0 _ Hi).
  pose proof (@axis_max_ge max_2 1 d1 [i] j Hj) as H1.
  change (insert_at 1 j [i]) with [i; j] in H1.
  rewrite (@max_2_get _ _ _ _ Hs _ E2 _ _ Hi Hj) in H1.
  pose proof (@axis_max_ge mask_all 2 d2 [i; j] k Hk) as H2.
  change (insert_at 2 k [i; j]) with [i; j; k] in H2. lia.
Qed.

Lemma neighbour_code_maps_None seg gt :
  neighbour_code_maps seg gt = Ok None ->
  exists mask_all max_2 proj_0,
    ufunc2 0%Z 0%Z Z.lor gt seg = Ok mask_all /\ amax mask_all 2 = Ok max_2
    /\ amax max_2 1 = Ok proj_0 /\ nonzero_0 proj_0 = [].
Proof.
  unfold neighbour_code_maps. intros H.
  apply bind_Ok in H. destruct H as (mask_all & Em & H).
  apply bind_Ok in H. destruct H as (max_2 & E2 & H).
  apply bind_Ok in H. destruct H as (proj_0 & P0 & H).
  exists mask_all, max_2, proj_0. repeat split; try assumption.
  destruct (nonzero_0 proj_0); [reflexivity|]. exfalso.
  cbn [length Nat.eqb] in H.
  rewrite E2 in H. cbn [bind] in H.
  repeat (apply bind_Ok in H; destruct H as (? & _ & H)). discriminate.
Qed.

(** X9: On 3-D volumes of one shape without negative entries, with a spacing
    of three components: as soon as one of the two volumes has a
    foreground voxel, the constructor returns an object whose four
    attributes are all set. *)
Theorem foreground_sets_attributes (prediction label : ndarray Z)
    (spacing : list float) (d0 d1 d2 : nat) (idx : list nat) :
  shape prediction = [d0; S d1; S d2] -> shape label = [d0; S d1; S d2] ->
  nonnegative prediction -> nonnegative label ->
  length spacing = 3 ->
  foreground_at prediction idx \/ foreground_at label idx ->
  exists d, Distances_init prediction label spacing = Ok d /\ all_set d.
Proof.
  intros Sp Sl Np Nl Hlen Hfg.
  destruct (@Distances_init_returns _ _ spacing _ _ _ Sp Sl Np Nl Hlen) as (d & Hd).
  exists d. split; [assumption|].
  destruct (@Distances_init_cases _ _ _ _ Hd)
    as [[Hnone _] | (sp' & area & cg & cp & dg & dp & Hc)].
  2: { destruct Hc as (_ & _ & _ & _ & _ & E1 & E2 & E3 & E4).
       unfold all_set. eauto 8. }
  exfalso.
  assert (Epr : promote prediction label spacing = (prediction, label, spacing)).
  { unfold promote, ndim. now rewrite Sp. }
  rewrite Epr in Hnone. cbn [fst snd] in Hnone.
  destruct (@neighbour_code_maps_None _ _ Hnone)
    as (mask_all & max_2 & proj_0 & Em & E2 & P0 & Enz).
  assert (Hidx : Forall2 lt idx (shape label)
                 /\ (get 0%Z label idx <> 0 \/ get 0%Z prediction idx <> 0)%Z).
  { destruct Hfg as [[Hb Hz]|[Hb Hz]]; [rewrite Sp in Hb; rewrite Sl|]; auto. }
  destruct Hidx as [Hb Hz].
  destruct (@lor_get label prediction mask_all idx ltac:(congruence) Em Hb)
    as [Sm Eg].
  pose proof (@lor_nonnegative _ _ _ Nl Np Em) as Nm.
  pose proof (@get_nonnegative _ idx Nm) as H0.
  assert (Hpos : (0 < get 0%Z mask_all idx)%Z).
  { assert (get 0%Z mask_all idx <> 0)%Z; [|lia].
    rewrite Eg. intros E. apply Z.lor_eq_0_iff in E. tauto. }
  rewrite Sl in Hb, Sm.
  inversion Hb as [|i ? r0 ? Hi Hb1]; subst.
  inversion Hb1 as [|j ? r1 ? Hj Hb2]; subst.
  inversion Hb2 as [|k ? r2 ? Hk Hb3]; subst.
  inversion Hb3; subst.
  assert (Hin : In i (nonzero_0 proj_0)).
  { apply (@proj_0_nonzero mask_all max_2 proj_0 d0 d1 d2 i j k); auto; lia. }
  rewrite Enz in Hin. contradiction.
Qed.

Lemma foreground_sets_attributes_witness :
  exists d,
    Distances_init (zeros [2; 2; 2]) (voxel [2; 2; 2] [1; 0; 1]) [1; 1; 1]%float
    = Ok d /\ all_set d.
Proof.
  apply (@foreground_sets_attributes (zeros [2; 2; 2]) (voxel [2; 2; 2] [1; 0; 1])
           [1; 1; 1]%float 2 1 1 [1; 0; 1]); try reflexivity.
  - repeat constructor; discriminate.
  - apply Forall_forall. intros z Hz. vm_compute in Hz.
    repeat (destruct Hz as [<-|Hz]; [lia|]). contradiction.
  - right. split; [simpl; repeat (apply Forall2_cons; [lia|]); constructor|].
    vm_compute. discriminate.
Defined.

(** ** Distances: volumes the constructor cannot work on *)

Lemma promote_long p l sp :
  3 <= length sp -> promote p l sp = (p, l, sp).
Proof.
  intros H. unfold promote.
  destruct (length sp =? 2) eqn:E; [apply Nat.eqb_eq in E; lia|].
  now rewrite andb_false_r.
Qed.

Lemma Distances_init_mask prediction label spacing mask_all :
  3 <= length spacing ->
  ufunc2 0%Z 0%Z Z.lor label prediction = Ok mask_all ->
  forall e, amax mask_all 2 = Raise e
            \/ (exists max_2, amax mask_all 2 = Ok max_2 /\ amax max_2 1 = Raise e) ->
  Distances_init prediction label spacing = Raise e.
Proof.
  intros Hlen Em e He. unfold Distances_init, _calculate.
  rewrite (@promote_long prediction label _ Hlen).
  destruct spacing as [|s0 [|s1 [|s2 rest]]]; simpl in Hlen; try lia.
  rewrite neighbour_code_to_surface_area_ok. cbn [bind]. rewrite Em. cbn [bind].
  destruct He as [->|(max_2 & -> & He)]; cbn [bind]; [reflexivity|].
  now rewrite He.
Qed.

(** X10: Volumes of one shape with fewer than three axes, given with a spacing
    of three or more components, are not promoted: the constructor
    raises numpy's [AxisError] at the first projection. *)
Theorem too_few_axes_raise (prediction label : ndarray Z) (spacing : list float) :
  ndim prediction < 3 -> shape label = shape prediction ->
  3 <= length spacing ->
  Distances_init prediction label spacing = Raise AxisError.
Proof.
  intros Hn Hs Hlen.
  destruct (ufunc2 0%Z 0%Z Z.lor label prediction) as [mask_all|] eqn:Em.
  2: { unfold ufunc2 in Em. rewrite Hs, broadcast_shapes_same in Em. discriminate. }
  apply (@Distances_init_mask _ _ _ _ Hlen Em). left.
  unfold ufunc2 in Em. rewrite Hs, broadcast_shapes_same in Em.
  injection Em as <-. unfold amax. cbn [shape].
  replace (nth_error (shape prediction) 2) with (@None nat); [reflexivity|].
  symmetry. apply nth_error_None. unfold ndim in Hn. lia.
Qed.

Lemma too_few_axes_raise_witness :
  Distances_init (voxel [3; 3] [1; 1]) (voxel [3; 3] [1; 2]) [1; 1; 1]%float
  = Raise AxisError.
Proof.
  apply too_few_axes_raise; [unfold ndim; simpl; lia | reflexivity | simpl; lia].
Defined.

(** X11: 3-D volumes of one shape with an axis of length 0.  An empty second
    or third axis makes the constructor raise numpy's [ValueError] for a
    maximum over nothing; an empty first axis takes the early exit and
    leaves the attributes as they were. *)
Theorem empty_axis (prediction label : ndarray Z) (spacing : list float)
    (d0 d1 d2 : nat) :
  shape prediction = [d0; d1; d2] -> shape label = [d0; d1; d2] ->
  3 <= length spacing ->
  (0 < d0 -> 0 < d1 -> d2 = 0 ->
   Distances_init prediction label spacing = Raise ValueError_zero_size)
  /\ (0 < d0 -> d1 = 0 -> 0 < d2 ->
      Distances_init prediction label spacing = Raise ValueError_zero_size)
  /\ (d0 = 0 -> 0 < d1 -> 0 < d2 ->
      exists d, Distances_init prediction label spacing = Ok d /\ untouched d).
Proof.
  intros Sp Sl Hlen.
  destruct (ufunc2 0%Z 0%Z Z.lor label prediction) as [mask_all|] eqn:Em.
  2: { unfold ufunc2 in Em. rewrite Sp, Sl, broadcast_shapes_same in Em.
       discriminate. }
  assert (Sm : shape mask_all = [d0; d1; d2]).
  { unfold ufunc2 in Em. rewrite Sp, Sl, broadcast_shapes_same in Em.
    now injection Em as <-. }
  split; [|split].
  - intros _ _ ->. apply (@Distances_init_mask _ _ _ _ Hlen Em). left.
    unfold amax. now rewrite Sm.
  - intros _ -> H2. destruct d2 as [|e2]; [lia|].
    apply (@Distances_init_mask _ _ _ _ Hlen Em). right.
    destruct (@amax_ok mask_all 2 e2) as (max_2 & E2 & S2); [now rewrite Sm|].
    exists max_2. split; [assumption|].
    unfold amax. rewrite S2, Sm. reflexivity.
  - intros -> H1 H2. destruct d1 as [|e1]; [lia|]. destruct d2 as [|e2]; [lia|].
    destruct (@amax_ok mask_all 2 e2) as (max_2 & E2 & S2); [now rewrite Sm|].
    rewrite Sm in S2.
    destruct (@amax_ok max_2 1 e1) as (proj_0 & P0 & S0); [now rewrite S2|].
    rewrite S2 in S0.
    unfold Distances_init, _calculate.
    rewrite (@promote_long prediction label _ Hlen).
    destruct spacing as [|s0 [|s1 [|s2 rest]]]; simpl in Hlen; try lia.
    rewrite neighbour_code_to_surface_area_ok. cbn [bind]. rewrite Em. cbn [bind].
    rewrite E2. cbn [bind]. rewrite P0. cbn [bind].
    unfold nonzero_0 at 1, size. rewrite S0. cbn.
    eexists. split; [reflexivity|]. repeat split.
Qed.

Lemma empty_axis_witness :
  Distances_init (zeros [2; 2; 0]) (zeros [2; 2; 0]) [1; 1; 1]%float
  = Raise ValueError_zero_size
  /\ Distances_init (zeros [2; 0; 2]) (zeros [2; 0; 2]) [1; 1; 1]%float
     = Raise ValueError_zero_size
  /\ exists d, Distances_init (zeros [0; 2; 2]) (zeros [0; 2; 2]) [1; 1; 1]%float
               = Ok d /\ untouched d.
Proof.
  split; [|split].
  - apply (proj1 (@empty_axis (zeros [2; 2; 0]) (zeros [2; 2; 0]) [1; 1; 1]%float
                    2 2 0 eq_refl eq_refl ltac:(simpl; lia))); lia.
  - apply (proj1 (proj2 (@empty_axis (zeros [2; 0; 2]) (zeros [2; 0; 2])
                           [1; 1; 1]%float 2 0 2 eq_refl eq_refl
                           ltac:(simpl; lia)))); lia.
  - apply (proj2 (proj2 (@empty_axis (zeros [0; 2; 2]) (zeros [0; 2; 2])
                           [1; 1; 1]%float 0 2 2 eq_refl eq_refl
                           ltac:(simpl; lia)))); lia.
Defined.

(** ** Distances: neighbour codes and surface elements *)

Lemma correlate_kernel_code (a : ndarray Z) idx :
  length (shape a) = 3 -> Forall2 lt idx (shape a) ->
  get 0%Z (Ndimage.correlate a kernel) idx = code_of (neighbourhood a idx).
Proof.
  intros Hn Hidx. unfold Ndimage.correlate. rewrite get_tabulate by assumption.
  pose proof (Forall2_length Hidx) as Hlen. rewrite Hn in Hlen.
  destruct idx as [|i [|j [|k [|]]]]; try discriminate.
  reflexivity.
Qed.

Lemma code_of_binary (neighbours : list Z) :
  length neighbours = 8 -> Forall binary neighbours ->
  is_border (code_of neighbours)
  = existsb (Z.eqb 0) neighbours && existsb (Z.eqb 1) neighbours.
Proof.
  intros Hlen Hb.
  do 8 (destruct neighbours as [|? neighbours]; [discriminate|]).
  destruct neighbours; [|discriminate].
  repeat match goal with
         | H : Forall binary (_ :: _) |- _ =>
             let Hx := fresh in
             let Hr := fresh in
             inversion H as [|? ? Hx Hr]; subst; clear H; destruct Hx; subst
         end;
    reflexivity.
Qed.

Lemma get_binary (a : ndarray Z) idx :
  Forall binary (data a) -> binary (get 0%Z a idx).
Proof.
  intros H. unfold get.
  destruct (nth_in_or_default (ravel (shape a) idx) (data a) 0%Z) as [Hin| ->].
  - rewrite Forall_forall in H. now apply H.
  - now left.
Qed.

Lemma get_constant_binary (a : ndarray Z) idx :
  Forall binary (data a) -> binary (Ndimage.get_constant a idx).
Proof.
  intros H. unfold Ndimage.get_constant.
  destruct (forallb _ _); [now apply get_binary | now left].
Qed.

Lemma neighbourhood_binary (a : ndarray Z) idx :
  Forall binary (data a) -> Forall binary (neighbourhood a idx).
Proof.
  intros H. unfold neighbourhood. apply Forall_forall. intros v Hv.
  apply in_map_iff in Hv. destruct Hv as (m & <- & _).
  now apply get_constant_binary.
Qed.

Lemma existsb_eqb_In (v : Z) (l : list Z) : existsb (Z.eqb v) l = true <-> In v l.
Proof.
  rewrite existsb_exists. split.
  - intros (x & Hin & E). apply Z.eqb_eq in E. now subst.
  - intros H. exists v. split; [assumption | apply Z.eqb_refl].
Qed.

(** X12: On a 0/1 volume a corner is a surface element exactly when the eight
    voxels that meet there are neither all background nor all
    foreground. *)
Theorem border_iff_mixed (a : ndarray Z) (idx : list nat) :
  length (shape a) = 3 -> Forall2 lt idx (shape a) -> Forall binary (data a) ->
  is_border (get 0%Z (Ndimage.correlate a kernel) idx) = true
  <-> In 0%Z (neighbourhood a idx) /\ In 1%Z (neighbourhood a idx).
Proof.
  intros Hn Hidx Hb. rewrite (correlate_kernel_code a Hn Hidx).
  rewrite code_of_binary;
    [| unfold neighbourhood; now rewrite length_map, length_seq
     | now apply neighbourhood_binary].
  now rewrite andb_true_iff, !existsb_eqb_In.
Qed.

Lemma border_iff_mixed_witness :
  is_border (get 0%Z (Ndimage.correlate (voxel [2; 2; 2] [0; 1; 1]) kernel) [1; 1; 1])
  = true.
Proof.
  apply (@border_iff_mixed (voxel [2; 2; 2] [0; 1; 1]) [1; 1; 1]).
  - reflexivity.
  - simpl. repeat (apply Forall2_cons; [lia|]); constructor.
  - apply Forall_forall. intros z Hz. vm_compute in Hz.
    repeat (destruct Hz as [<-|Hz]; [unfold binary; lia|]). contradiction.
  - split; vm_compute; auto 10.
Defined.

(** *** The cropped masks *)

Lemma Forall_map_all {A B} (P : B -> Prop) (f : A -> B) (l : list A) :
  (forall x, P (f x)) -> Forall P (map f l).
Proof.
  intros H. apply Forall_forall. intros y Hy.
  apply in_map_iff in Hy. destruct Hy as (x & <- & _). apply H.
Qed.

Lemma tabulate_Forall {A} (P : A -> Prop) sh (f : list nat -> A) :
  (forall idx, P (f idx)) -> Forall P (data (tabulate sh f)).
Proof. intros H. unfold tabulate. cbn [data]. now apply Forall_map_all. Qed.

Lemma uint8_binary z : binary z -> Ndimage.uint8 z = z.
Proof. intros [->| ->]; reflexivity. Qed.

Lemma cropmask_binary (arr : ndarray Z) bbox_min bbox_max cm :
  Forall binary (data arr) -> cropmask arr bbox_min bbox_max = Ok cm ->
  Forall binary (data cm).
Proof.
  intros Hb. unfold cropmask, basic_slice, assign_broadcast.
  destruct (ndim arr <? _); [discriminate|]. cbn [bind].
  destruct (fits_rev _ _); [|discriminate]. cbn [bind]. intros [= <-].
  apply tabulate_Forall. intros idx.
  destruct (forallb _ _); [|now left].
  rewrite uint8_binary; apply get_binary; unfold broadcast_to;
    apply tabulate_Forall; intros idx'; apply get_binary; cbn [data];
    apply Forall_map_all; intros n; now apply get_binary.
Qed.

Lemma broadcast_index_bounded sh idx :
  Forall2 lt idx sh -> broadcast_index sh idx = idx.
Proof.
  intros H. unfold broadcast_index.
  rewrite (Forall2_length H), Nat.sub_diag. simpl. now apply stretch_bounded.
Qed.

(** Inside the box the cropped mask holds the voxels of the volume. *)
Lemma cropmask_get (arr : ndarray Z) e0 e1 e2 lo0 lo1 lo2 hi0 hi1 hi2 cm a b c :
  shape arr = [e0; e1; e2] ->
  lo0 <= hi0 < e0 -> lo1 <= hi1 < e1 -> lo2 <= hi2 < e2 ->
  cropmask arr [lo0; lo1; lo2] [hi0; hi1; hi2] = Ok cm ->
  a <= hi0 - lo0 -> b <= hi1 - lo1 -> c <= hi2 - lo2 ->
  get 0%Z cm [a; b; c] = Ndimage.uint8 (get 0%Z arr [lo0 + a; lo1 + b; lo2 + c]).
Proof.
  intros Hs H0 H1 H2. unfold cropmask, basic_slice, assign_broadcast, ndim.
  rewrite Hs. cbn [map combine fst snd length Nat.ltb Nat.leb bind].
  cbn [ndim shape slice_shape tabulate length Nat.sub strip_units].
  replace (Nat.min (hi0 + 1) e0 - Nat.min lo0 e0) with (hi0 - lo0 + 2 - 1) by lia.
  replace (Nat.min (hi1 + 1) e1 - Nat.min lo1 e1) with (hi1 - lo1 + 2 - 1) by lia.
  replace (Nat.min (hi2 + 1) e2 - Nat.min lo2 e2) with (hi2 - lo2 + 2 - 1) by lia.
  rewrite fits_rev_refl. cbn [bind]. intros [= <-] Ha Hb Hc.
  set (inner := [hi0 - lo0 + 2 - 1; hi1 - lo1 + 2 - 1; hi2 - lo2 + 2 - 1]).
  assert (Hin : Forall2 lt [a; b; c] inner)
    by (repeat (apply Forall2_cons; [lia|]); constructor).
  rewrite get_tabulate by (repeat (apply Forall2_cons; [lia|]); constructor).
  replace (forallb _ _) with true.
  2: { symmetry. unfold inner. cbn [combine forallb fst snd].
       rewrite !andb_true_iff. repeat split; apply Nat.ltb_lt; lia. }
  f_equal. unfold broadcast_to. rewrite get_tabulate by assumption.
  cbn [shape]. rewrite broadcast_index_bounded by assumption.
  change (get 0%Z (tabulate inner
                     (fun idx => get 0%Z arr
                        (slice_index [(lo0, hi0 + 1); (lo1, hi1 + 1); (lo2, hi2 + 1)]
                           idx))) [a; b; c]
          = get 0%Z arr [lo0 + a; lo1 + b; lo2 + c]).
  now rewrite get_tabulate by assumption.
Qed.

(** *** A mask with foreground has surface elements *)

Lemma first_nonzero (l : list Z) : forall n,
  nth n l 0%Z <> 0%Z ->
  exists m, m <= n /\ nth m l 0%Z <> 0%Z /\ forall t, t < m -> nth t l 0%Z = 0%Z.
Proof.
  induction l as [|x l IH]; intros n Hn; [destruct n; contradiction|].
  destruct (Z.eq_dec x 0) as [->|Hx].
  - destruct n as [|n]; [contradiction|]. cbn [nth] in Hn.
    destruct (IH n Hn) as (m & Hm & Hnz & Hz).
    exists (S m). repeat split; [lia | assumption|].
    intros [|t] Ht; [reflexivity | apply Hz; lia].
  - exists 0. repeat split; [lia | assumption | intros t Ht; lia].
Qed.

Lemma get_constant_inside (a : ndarray Z) idx :
  Forall2 lt idx (shape a) ->
  Ndimage.get_constant a (map Z.of_nat idx) = get 0%Z a idx.
Proof.
  intros H. unfold Ndimage.get_constant.
  replace (forallb _ _) with true.
  - f_equal. rewrite map_map. rewrite <- (map_id idx) at 2.
    apply map_ext. intros i. apply Nat2Z.id.
  - symmetry. induction H as [|i d idx sh Hi H IH]; [reflexivity|].
    cbn [map combine forallb fst snd]. rewrite IH, andb_true_r.
    apply andb_true_iff. split; [apply Z.leb_le | apply Z.ltb_lt]; lia.
Qed.

Lemma Forall2_lt_3 idx n0 n1 n2 :
  Forall2 lt idx [n0; n1; n2] ->
  exists a b c, idx = [a; b; c] /\ a < n0 /\ b < n1 /\ c < n2.
Proof.
  intros H.
  inversion H as [|a ? r0 ? Ha H1]; subst.
  inversion H1 as [|b ? r1 ? Hb H2]; subst.
  inversion H2 as [|c ? r2 ? Hc H3]; subst.
  inversion H3; subst. eauto 8.
Qed.

(** The corner at the first foreground voxel, in C order, of a 0/1
    volume is a surface element: the voxel itself is foreground and the
    one diagonally before it is not. *)
Lemma first_foreground_is_border (cm : ndarray Z) n0 n1 n2 m :
  shape cm = [n0; n1; n2] -> Forall binary (data cm) ->
  m < size cm -> nth m (data cm) 0%Z <> 0%Z ->
  (forall t, t < m -> nth t (data cm) 0%Z = 0%Z) ->
  is_border (nth m (data (Ndimage.correlate cm kernel)) 0%Z) = true.
Proof.
  intros Hs Hb Hm Hnz Hfirst. unfold size in Hm.
  pose proof (unravel_bounded (shape cm) Hm) as Hidx.
  pose proof (ravel_unravel (shape cm) Hm) as Hr.
  rewrite <- Hr at 1.
  change (is_border (get 0%Z (Ndimage.correlate cm kernel) (unravel (shape cm) m))
          = true).
  rewrite correlate_kernel_code by (try assumption; now rewrite Hs).
  rewrite code_of_binary;
    [| unfold neighbourhood; now rewrite length_map, length_seq
     | now apply neighbourhood_binary].
  assert (Hget : get 0%Z cm (unravel (shape cm) m) = nth m (data cm) 0%Z)
    by (unfold get; now rewrite Hr).
  remember (unravel (shape cm) m) as idx eqn:Eidx.
  rewrite Hs in Hidx, Hr.
  destruct (Forall2_lt_3 Hidx) as (a & b & c & Eabc & Ha & Hb1 & Hc).
  rewrite Eabc in *. clear Eabc Eidx.
  apply andb_true_iff. split; apply existsb_eqb_In.
  - (* the voxel diagonally before *)
    unfold neighbourhood. apply in_map_iff. exists 0. split; [|apply in_seq; cbn; lia].
    cbn [shape kernel unravel combine map fst snd size_of fold_right Nat.div Nat.modulo
         Nat.divmod Nat.mul Nat.add Nat.sub Z.of_nat].
    unfold Ndimage.get_constant.
    destruct (forallb _ _) eqn:Ein; [|reflexivity].
    rewrite Hs in Ein. cbn [combine forallb fst snd] in Ein.
    rewrite !andb_true_iff in Ein.
    destruct Ein as ((Ea & _) & (Eb & _) & (Ec & _) & _).
    apply Z.leb_le in Ea, Eb, Ec.
    unfold get. rewrite Hs. cbn [map ravel size_of fold_right].
    apply Hfirst. rewrite <- Hr. cbn [ravel size_of fold_right].
    replace (Z.to_nat (Z.of_nat a + 0 - 1)) with (a - 1) by lia.
    replace (Z.to_nat (Z.of_nat b + 0 - 1)) with (b - 1) by lia.
    replace (Z.to_nat (Z.of_nat c + 0 - 1)) with (c - 1) by lia.
    pose proof (Nat.mul_le_mono_r (a - 1) a (n1 * (n2 * 1)) ltac:(lia)).
    pose proof (Nat.mul_le_mono_r (b - 1) b (n2 * 1) ltac:(lia)).
    lia.
  - (* the voxel itself *)
    unfold neighbourhood. apply in_map_iff. exists 7. split; [|apply in_seq; cbn; lia].
    replace (map _ (combine [a; b; c] (unravel (shape kernel) 7)))
      with (map Z.of_nat [a; b; c]).
    2: { cbn. repeat f_equal; lia. }
    rewrite get_constant_inside by (rewrite Hs; assumption).
    rewrite Hget. destruct (get_binary cm [a; b; c] Hb) as [E|E];
      rewrite Hget in E; [contradiction | assumption].
Qed.

Lemma foreground_has_border (cm : ndarray Z) n0 n1 n2 idx :
  shape cm = [n0; n1; n2] -> wf cm -> Forall binary (data cm) ->
  get 0%Z cm idx <> 0%Z ->
  any (borders (Ndimage.correlate cm kernel)) = true.
Proof.
  intros Hs Hwf Hb Hnz. unfold get in Hnz.
  destruct (first_nonzero _ _ Hnz) as (m & _ & Hm & Hfirst).
  assert (Hlt : m < size cm).
  { rewrite <- Hwf. destruct (Nat.lt_ge_cases m (length (data cm))); [assumption|].
    rewrite nth_overflow in Hm by assumption. contradiction. }
  pose proof (@first_foreground_is_border cm n0 n1 n2 m Hs Hb Hlt Hm Hfirst) as Hbd.
  unfold any, borders, ufunc1. cbn [data]. apply existsb_exists.
  exists true. split; [|reflexivity]. rewrite <- Hbd.
  rewrite <- (map_nth is_border). apply nth_In.
  rewrite length_map.
  pose proof (correlate_wf cm kernel) as Hw. unfold wf, size in Hw.
  rewrite Hw, correlate_shape. exact Hlt.
Qed.

Lemma boolean_index_nonempty {A} (a : ndarray A) (mask : ndarray bool) :
  length (data a) = length (data mask) -> any mask = true ->
  boolean_index a mask <> [].
Proof.
  unfold any, boolean_index. generalize (data a). generalize (data mask).
  induction l as [|b l IH]; intros [|x u] Hlen Hany; try discriminate.
  cbn [combine filter fst]. destruct b; [discriminate|].
  apply IH; [now injection Hlen | exact Hany].
Qed.

Lemma sort_surfels_nonempty ds ars :
  length ds = length ars -> ds <> [] -> fst (sort_surfels ds ars) <> [].
Proof.
  intros Hlen Hne E. apply (f_equal (@length float)) in E.
  unfold sort_surfels in E. destruct ds as [|d ds]; [contradiction|].
  destruct ars as [|a ars]; [discriminate|].
  cbn [length Nat.eqb negb fst] in E.
  rewrite length_map, length_sorted in E. discriminate.
Qed.

(** *** The bounding box *)

Lemma fold_min_le_elem (l : list nat) : forall x z,
  In z l -> fold_left Nat.min l x <= z.
Proof.
  induction l as [|y l IH]; intros x z H; [contradiction|]. cbn [fold_left].
  destruct H as [<-|H].
  - pose proof (fold_min_le l (Nat.min x y)). lia.
  - now apply IH.
Qed.

Lemma fold_max_ge_elem_nat (l : list nat) : forall x z,
  In z l -> z <= fold_left Nat.max l x.
Proof.
  induction l as [|y l IH]; intros x z H; [contradiction|]. cbn [fold_left].
  destruct H as [<-|H].
  - pose proof (fold_max_le l (Nat.max x y)). lia.
  - now apply IH.
Qed.

Lemma bounds_around (l : list nat) d z :
  In z l -> Forall (fun y => y < d) l ->
  exists lo hi, min_1d l = Ok lo /\ max_1d l = Ok hi /\ lo <= z <= hi /\ hi < d.
Proof.
  intros Hin Hl. destruct l as [|x l]; [contradiction|].
  inversion Hl; subst. cbn [min_1d max_1d]. do 2 eexists.
  split; [reflexivity|]. split; [reflexivity|]. split.
  - destruct Hin as [<-|Hin].
    + pose proof (fold_min_le l x). pose proof (fold_max_le l x). lia.
    + pose proof (fold_min_le_elem l x z Hin).
      pose proof (fold_max_ge_elem_nat l x z Hin). lia.
  - now apply fold_max_lt.
Qed.

Lemma binary_nonnegative (a : ndarray Z) : Forall binary (data a) -> nonnegative a.
Proof.
  unfold nonnegative. apply Forall_impl. intros z [->| ->]; lia.
Qed.

(** With a foreground voxel in one of two 3-D volumes of one shape, the
    neighbour codes are those of the two volumes cropped to one box, and
    the voxel lies in the box. *)
Lemma neighbour_code_maps_box (seg gt : ndarray Z) d0 d1 d2 i j k :
  shape seg = [d0; S d1; S d2] -> shape gt = [d0; S d1; S d2] ->
  nonnegative seg -> nonnegative gt ->
  i < d0 -> j <= d1 -> k <= d2 ->
  get 0%Z gt [i; j; k] <> 0%Z \/ get 0%Z seg [i; j; k] <> 0%Z ->
  exists lo0 lo1 lo2 hi0 hi1 hi2 cm_gt cm_pred,
    neighbour_code_maps seg gt
    = Ok (Some (Ndimage.correlate cm_gt kernel, Ndimage.correlate cm_pred kernel))
    /\ cropmask gt [lo0; lo1; lo2] [hi0; hi1; hi2] = Ok cm_gt
    /\ cropmask seg [lo0; lo1; lo2] [hi0; hi1; hi2] = Ok cm_pred
    /\ (lo0 <= i <= hi0 /\ hi0 < d0)
    /\ (lo1 <= j <= hi1 /\ hi1 < S d1)
    /\ (lo2 <= k <= hi2 /\ hi2 < S d2).
Proof.
  intros Ss Sg Ns Ng Hi Hj Hk Hfg.
  assert (Hd0 : exists e0, d0 = S e0) by (destruct d0; [lia | eauto]).
  destruct Hd0 as [e0 Ed0].
  destruct (ufunc2 0%Z 0%Z Z.lor gt seg) as [mask_all|] eqn:Em.
  2: { unfold ufunc2 in Em. rewrite Ss, Sg, broadcast_shapes_same in Em.
       discriminate. }
  assert (Hb : Forall2 lt [i; j; k] (shape gt))
    by (rewrite Sg; repeat (apply Forall2_cons; [lia|]); constructor).
  destruct (@lor_get gt seg mask_all [i; j; k] ltac:(congruence) Em Hb) as [Sm Eg].
  rewrite Sg in Sm.
  pose proof (@lor_nonnegative _ _ _ Ng Ns Em) as Nm.
  pose proof (@get_nonnegative _ [i; j; k] Nm) as H0.
  assert (Hpos : (0 < get 0%Z mask_all [i; j; k])%Z).
  { assert (get 0%Z mask_all [i; j; k] <> 0)%Z; [|lia].
    rewrite Eg. intros E. apply Z.lor_eq_0_iff in E. tauto. }
  destruct (@amax_ok mask_all 2 d2) as (max_2 & E2 & S2); [now rewrite Sm|].
  rewrite Sm in S2. change (remove_at 2 [d0; S d1; S d2]) with [d0; S d1] in S2.
  destruct (@amax_ok max_2 1 d1) as (proj_0 & P0 & S0); [now rewrite S2|].
  rewrite S2 in S0. change (remove_at 1 [d0; S d1]) with [d0] in S0.
  destruct (@amax_ok mask_all 1 d1) as (max_1 & E1 & S1); [now rewrite Sm|].
  rewrite Sm in S1. change (remove_at 1 [d0; S d1; S d2]) with [d0; S d2] in S1.
  destruct (@amax_ok max_2 0 e0) as (proj_1 & P1 & SP1); [now rewrite S2, Ed0|].
  destruct (@amax_ok max_1 0 e0) as (proj_2 & P2 & SP2); [now rewrite S1, Ed0|].
  rewrite S2 in SP1. rewrite S1 in SP2.
  change (remove_at 0 [d0; S d1]) with [S d1] in SP1.
  change (remove_at 0 [d0; S d2]) with [S d2] in SP2.
  assert (Hi0 : In i (nonzero_0 proj_0))
    by (apply (@proj_0_nonzero mask_all max_2 proj_0 d0 d1 d2 i j k); assumption).
  assert (Hj1 : In j (nonzero_0 proj_1))
    by (eapply proj_1_nonzero with (mask_all := mask_all); eassumption).
  assert (Hk2 : In k (nonzero_0 proj_2))
    by (eapply proj_2_nonzero with (mask_all := mask_all); eassumption).
  destruct (bounds_around i Hi0 (@nonzero_0_bounded _ _ S0))
    as (lo0 & hi0 & Emin0 & Emax0 & B0 & B0').
  destruct (bounds_around j Hj1 (@nonzero_0_bounded _ _ SP1))
    as (lo1 & hi1 & Emin1 & Emax1 & B1 & B1').
  destruct (bounds_around k Hk2 (@nonzero_0_bounded _ _ SP2))
    as (lo2 & hi2 & Emin2 & Emax2 & B2 & B2').
  destruct (@cropmask_ok gt d0 (S d1) (S d2) lo0 lo1 lo2 hi0 hi1 hi2 Sg)
    as (cm_gt & Cg); try lia.
  destruct (@cropmask_ok seg d0 (S d1) (S d2) lo0 lo1 lo2 hi0 hi1 hi2 Ss)
    as (cm_pred & Cp); try lia.
  exists lo0, lo1, lo2, hi0, hi1, hi2, cm_gt, cm_pred.
  split; [|repeat split; assumption || lia].
  unfold neighbour_code_maps. rewrite Em. cbn [bind]. rewrite E2. cbn [bind].
  rewrite P0. cbn [bind].
  destruct (nonzero_0 proj_0) as [|x rest] eqn:Enz; [contradiction|].
  cbn [length Nat.eqb]. rewrite Emin0, Emax0. cbn [bind].
  rewrite P1. cbn [bind]. rewrite Emin1, Emax1. cbn [bind].
  rewrite E1. cbn [bind]. rewrite P2. cbn [bind]. rewrite Emin2, Emax2. cbn [bind].
  rewrite Cg. cbn [bind]. rewrite Cp. reflexivity.
Qed.

Lemma cropmask_wf arr bbox_min bbox_max cm :
  cropmask arr bbox_min bbox_max = Ok cm -> wf cm.
Proof.
  unfold cropmask. intros H.
  apply bind_Ok in H. destruct H as (value & _ & H).
  apply bind_Ok in H. destruct H as (view & _ & H).
  injection H as <-. unfold wf, size. now rewrite tabulate_length.
Qed.

(** A foreground voxel inside the box gives the cropped mask a surface
    element. *)
Lemma cropped_foreground_border (arr : ndarray Z) e0 e1 e2
    lo0 lo1 lo2 hi0 hi1 hi2 cm i j k :
  shape arr = [e0; e1; e2] -> Forall binary (data arr) ->
  lo0 <= i <= hi0 /\ hi0 < e0 -> lo1 <= j <= hi1 /\ hi1 < e1 ->
  lo2 <= k <= hi2 /\ hi2 < e2 ->
  cropmask arr [lo0; lo1; lo2] [hi0; hi1; hi2] = Ok cm ->
  get 0%Z arr [i; j; k] <> 0%Z ->
  any (borders (Ndimage.correlate cm kernel)) = true.
Proof.
  intros Hs Hb B0 B1 B2 Hc Hnz.
  pose proof (cropmask_shape _ _ _ Hc) as Sc. cbn in Sc.
  apply (@foreground_has_border cm _ _ _ [i - lo0; j - lo1; k - lo2] Sc).
  - exact (cropmask_wf _ _ _ Hc).
  - exact (@cropmask_binary _ _ _ _ Hb Hc).
  - rewrite (@cropmask_get arr e0 e1 e2 lo0 lo1 lo2 hi0 hi1 hi2 cm
               (i - lo0) (j - lo1) (k - lo2) Hs); try assumption; try lia.
    replace (lo0 + (i - lo0)) with i by lia.
    replace (lo1 + (j - lo1)) with j by lia.
    replace (lo2 + (k - lo2)) with k by lia.
    now rewrite uint8_binary by now apply get_binary.
Qed.

Lemma promote_3d p l sp d0 d1 d2 :
  shape p = [d0; d1; d2] -> promote p l sp = (p, l, sp).
Proof. intros H. unfold promote, ndim. now rewrite H. Qed.

Lemma side_nonempty area codes dm :
  length (data dm) = length (data codes) -> any (borders codes) = true ->
  fst (side area codes dm) <> [].
Proof.
  intros Hdm Hany. unfold side.
  assert (Hlen : length (data dm) = length (data (borders codes))).
  { rewrite Hdm. unfold borders, ufunc1. cbn [data]. now rewrite length_map. }
  apply sort_surfels_nonempty.
  - apply boolean_index_length. rewrite Hlen.
    unfold borders, surface_area_map, ufunc1. cbn [data]. now rewrite !length_map.
  - now apply boolean_index_nonempty.
Qed.

(** What the constructor has computed for two 0/1 volumes of one 3-D
    shape when a voxel [idx] is foreground in one of them. *)
Lemma computed_with_foreground (prediction label : ndarray Z) d0 d1 d2 idx :
  shape prediction = [d0; d1; d2] -> shape label = [d0; d1; d2] ->
  Forall binary (data prediction) -> Forall binary (data label) ->
  foreground_at label idx \/ foreground_at prediction idx ->
  exists cm_gt cm_pred,
    neighbour_code_maps prediction label
    = Ok (Some (Ndimage.correlate cm_gt kernel, Ndimage.correlate cm_pred kernel))
    /\ length (shape cm_gt) = 3 /\ length (shape cm_pred) = 3
    /\ (foreground_at label idx ->
        any (borders (Ndimage.correlate cm_gt kernel)) = true)
    /\ (foreground_at prediction idx ->
        any (borders (Ndimage.correlate cm_pred kernel)) = true).
Proof.
  intros Sp Sl Bp Bl Hfg.
  assert (Hidx : Forall2 lt idx [d0; d1; d2]).
  { destruct Hfg as [[H _]|[H _]]; [rewrite Sl in H | rewrite Sp in H]; exact H. }
  destruct (Forall2_lt_3 Hidx) as (i & j & k & -> & Hi & Hj & Hk).
  destruct d1 as [|e1]; [lia|]. destruct d2 as [|e2]; [lia|].
  assert (Hnz : get 0%Z label [i; j; k] <> 0%Z \/ get 0%Z prediction [i; j; k] <> 0%Z).
  { destruct Hfg as [[_ H]|[_ H]]; auto. }
  destruct (@neighbour_code_maps_box prediction label d0 e1 e2 i j k Sp Sl
              (@binary_nonnegative _ Bp) (@binary_nonnegative _ Bl)
              Hi ltac:(lia) ltac:(lia) Hnz)
    as (lo0 & lo1 & lo2 & hi0 & hi1 & hi2 & cm_gt & cm_pred
        & Hmaps & Cg & Cp & B0 & B1 & B2).
  exists cm_gt, cm_pred. split; [exact Hmaps|].
  pose proof (cropmask_shape _ _ _ Cg) as Sg. cbn in Sg.
  pose proof (cropmask_shape _ _ _ Cp) as Spd. cbn in Spd.
  split; [now rewrite Sg|]. split; [now rewrite Spd|].
  split; intros [_ H].
  - exact (@cropped_foreground_border label _ _ _ _ _ _ _ _ _ cm_gt i j k
             Sl Bl B0 B1 B2 Cg H).
  - exact (@cropped_foreground_border prediction _ _ _ _ _ _ _ _ _ cm_pred i j k
             Sp Bp B0 B1 B2 Cp H).
Qed.

(** X13: On 0/1 volumes of one 3-D shape, a volume with a foreground voxel
    has surface elements: its sequence of distances is not empty. *)
Theorem foreground_has_surface (prediction label : ndarray Z)
    (spacing : list float) (d0 d1 d2 : nat) (d : Distances) :
  shape prediction = [d0; d1; d2] -> shape label = [d0; d1; d2] ->
  Forall binary (data prediction) -> Forall binary (data label) ->
  Distances_init prediction label spacing = Ok d ->
  (forall idx, foreground_at label idx ->
     exists ds, distances_gt_to_pred d = Some ds /\ ds <> [])
  /\ (forall idx, foreground_at prediction idx ->
        exists ds, distances_pred_to_gt d = Some ds /\ ds <> []).
Proof.
  intros Sp Sl Bp Bl H.
  assert (Hside : forall idx,
             foreground_at label idx \/ foreground_at prediction idx ->
             exists area cg cp dg dp,
               distances_gt_to_pred d = Some (fst (side area cg dp))
               /\ distances_pred_to_gt d = Some (fst (side area cp dg))
               /\ length (data dp) = length (data cg)
               /\ length (data dg) = length (data cp)
               /\ (foreground_at label idx -> any (borders cg) = true)
               /\ (foreground_at prediction idx -> any (borders cp) = true)).
  { intros idx Hfg.
    destruct (@computed_with_foreground _ _ _ _ _ _ Sp Sl Bp Bl Hfg)
      as (cm_gt & cm_pred & Hmaps & _ & _ & Hg & Hp).
    destruct (@Distances_init_cases _ _ _ _ H)
      as [[Hnone _]
         | (sp' & area & cg & cp & dg & dp & _ & _ & Hc & Hdg & Hdp
            & E1 & _ & E2 & _)];
      rewrite (@promote_3d _ label spacing _ _ _ Sp) in *; cbn [fst snd] in *.
    { rewrite Hmaps in Hnone. discriminate. }
    rewrite Hmaps in Hc. injection Hc as <- <-.
    pose proof (correlate_wf cm_gt kernel) as Wg.
    pose proof (correlate_wf cm_pred kernel) as Wp.
    destruct (@neighbour_code_maps_shape _ _ _ _ Hmaps) as (_ & _ & Hsh).
    assert (Wbg : wf (borders (Ndimage.correlate cm_gt kernel)))
      by (unfold wf, size, borders in *; simpl; now rewrite length_map).
    assert (Wbp : wf (borders (Ndimage.correlate cm_pred kernel)))
      by (unfold wf, size, borders in *; simpl; now rewrite length_map).
    pose proof (@distmap_length _ _ _ Wbg Hdg) as Lg.
    pose proof (@distmap_length _ _ _ Wbp Hdp) as Lp.
    unfold borders, ufunc1 in Lg, Lp. cbn [data] in Lg, Lp.
    rewrite length_map in Lg, Lp.
    assert (Hlen : length (data (Ndimage.correlate cm_gt kernel))
                   = length (data (Ndimage.correlate cm_pred kernel)))
      by (unfold wf, size in Wg, Wp; congruence).
    do 5 eexists. split; [exact E1|]. split; [exact E2|].
    repeat split; try assumption; congruence. }
  split; intros idx Hfg.
  - destruct (Hside idx (or_introl Hfg))
      as (area & cg & cp & dg & dp & E1 & _ & L1 & _ & Hg & _).
    eexists. split; [exact E1|]. apply side_nonempty; auto.
  - destruct (Hside idx (or_intror Hfg))
      as (area & cg & cp & dg & dp & _ & E2 & _ & L2 & _ & Hp).
    eexists. split; [exact E2|]. apply side_nonempty; auto.
Qed.

Lemma foreground_has_surface_witness :
  exists d ds,
    Distances_init (voxel [2; 2; 2] [0; 0; 0]) (voxel [2; 2; 2] [1; 0; 1])
      [1; 1; 1]%float = Ok d
    /\ distances_gt_to_pred d = Some ds /\ ds <> [].
Proof.
  eexists.
  assert (H : forall z, In z (data (voxel [2; 2; 2] [0; 0; 0])) \/
                        In z (data (voxel [2; 2; 2] [1; 0; 1])) -> binary z).
  { intros z [Hz|Hz]; vm_compute in Hz;
      repeat (destruct Hz as [<-|Hz]; [unfold binary; lia|]); contradiction. }
  destruct (proj1 (@foreground_has_surface (voxel [2; 2; 2] [0; 0; 0])
                     (voxel [2; 2; 2] [1; 0; 1]) [1; 1; 1]%float 2 2 2 _
                     eq_refl eq_refl
                     ltac:(apply Forall_forall; intros z Hz; apply H; now left)
                     ltac:(apply Forall_forall; intros z Hz; apply H; now right)
                     ltac:(vm_compute; reflexivity))
              [1; 0; 1]) as (ds & E & Hne).
  - split; [simpl; repeat (apply Forall2_cons; [lia|]); constructor|].
    vm_compute. discriminate.
  - exists ds. split; [reflexivity|]. split; assumption.
Defined.

(** X14: A spacing of more than three components is only noticed when there
    is a surface: on 0/1 volumes of one 3-D shape with a foreground voxel
    in either of them the constructor raises scipy's [RuntimeError]. *)
Theorem long_spacing_raises (prediction label : ndarray Z)
    (spacing : list float) (d0 d1 d2 : nat) (idx : list nat) :
  shape prediction = [d0; d1; d2] -> shape label = [d0; d1; d2] ->
  Forall binary (data prediction) -> Forall binary (data label) ->
  3 < length spacing ->
  foreground_at label idx \/ foreground_at prediction idx ->
  Distances_init prediction label spacing = Raise RuntimeError_sequence.
Proof.
  intros Sp Sl Bp Bl Hlen Hfg.
  destruct (@computed_with_foreground _ _ _ _ _ _ Sp Sl Bp Bl Hfg)
    as (cm_gt & cm_pred & Hmaps & Ng & Np & Hg & Hp).
  unfold Distances_init. rewrite _calculate_stages.
  rewrite (@promote_3d _ label spacing _ _ _ Sp). cbn [fst snd _neighbour_code_to_normals].
  destruct spacing as [|s0 [|s1 [|s2 rest]]]; simpl in Hlen; try lia.
  rewrite neighbour_code_to_surface_area_ok. cbn [bind].
  rewrite Hmaps. cbn [bind]. unfold surfels.
  assert (Hraise : forall cm : ndarray Z,
             length (shape cm) = 3 ->
             any (ufunc1 is_border (Ndimage.correlate cm kernel)) = true ->
             distmap (ufunc1 is_border (Ndimage.correlate cm kernel))
               (s0 :: s1 :: s2 :: rest) = Raise RuntimeError_sequence).
  { intros cm Hn Hany. unfold distmap. rewrite Hany.
    unfold Ndimage.distance_transform_edt, ndim. cbn [shape ufunc1].
    rewrite correlate_shape, Hn.
    destruct rest; [simpl in Hlen; lia | reflexivity]. }
  destruct (any (ufunc1 is_border (Ndimage.correlate cm_gt kernel))) eqn:Ag.
  - now rewrite (Hraise cm_gt Ng Ag).
  - assert (Ap : any (borders (Ndimage.correlate cm_pred kernel)) = true).
    { destruct Hfg as [Hfg|Hfg]; [|now apply Hp].
      apply Hg in Hfg. unfold borders in Hfg. congruence. }
    unfold distmap at 1. rewrite Ag. cbn [bind].
    now rewrite (Hraise cm_pred Np Ap).
Qed.

Lemma long_spacing_raises_witness :
  Distances_init (zeros [2; 2; 2]) (voxel [2; 2; 2] [1; 0; 1]) [1; 1; 1; 1]%float
  = Raise RuntimeError_sequence.
Proof.
  apply (@long_spacing_raises (zeros [2; 2; 2]) (voxel [2; 2; 2] [1; 0; 1])
           [1; 1; 1; 1]%float 2 2 2 [1; 0; 1]); try reflexivity.
  - repeat constructor; unfold binary; lia.
  - apply Forall_forall. intros z Hz. vm_compute in Hz.
    repeat (destruct Hz as [<-|Hz]; [unfold binary; lia|]). contradiction.
  - simpl. lia.
  - left. split; [simpl; repeat (apply Forall2_cons; [lia|]); constructor|].
    vm_compute. discriminate.
Defined.

(** ** VoxelWiseIndexing *)

Import Indexing.

Lemma shape_eqb_true saved s : shape_eqb saved s = true <-> saved = Some s.
Proof.
  unfold shape_eqb. destruct saved as [t|]; [|split; discriminate].
  destruct (list_eq_dec Nat.eq_dec t s); split; congruence.
Qed.



(** ** VoxelWiseIndexing: the list of index expressions *)

Lemma unravel_length sh : forall k, length (unravel sh k) = length sh.
Proof. induction sh as [|d sh IH]; intros k; simpl; auto. Qed.

Lemma map_nth_seq (l : list nat) :
  map (fun j => nth j l 0) (seq 0 (length l)) = l.
Proof.
  apply (nth_ext _ _ 0 0).
  - now rewrite length_map, length_seq.
  - intros k Hk. rewrite length_map, length_seq in Hk.
    now rewrite nth_map_seq.
Qed.

Lemma indices_data dims i j :
  i < size_of dims -> j < length dims ->
  nth (i + j * size_of dims) (data (indices dims)) 0 = nth j (unravel dims i) 0.
Proof.
  intros Hi Hj. unfold indices, tabulate. cbn [data].
  rewrite nth_map_seq by (cbn [size_of fold_right]; fold (size_of dims); nia).
  cbn [unravel hd tl].
  rewrite Nat.div_add by lia. rewrite Nat.Div0.mod_add.
  rewrite Nat.div_small, Nat.mod_small by lia. reflexivity.
Qed.

Lemma reshape_rows_indices dims r :
  reshape_rows (indices dims) = Ok r ->
  r = {| Np.shape := [length dims; size_of dims]; data := data (indices dims) |}.
Proof.
  unfold reshape_rows.
  change (Np.shape (indices dims)) with (length dims :: dims). cbn [tl hd].
  destruct dims; [discriminate | now intros [= <-]].
Qed.

(** [np.indices], reshaped to one row per axis and transposed, has one
    row per voxel: the index of the voxel. *)
Lemma rows_of_indices dims r :
  reshape_rows (indices dims) = Ok r ->
  rows (transpose r) = voxels dims.
Proof.
  intros H. apply reshape_rows_indices in H. subst r.
  unfold rows, transpose. cbn [Np.shape tabulate rev app hd nth].
  unfold voxels. apply map_ext_in. intros i Hi. apply in_seq in Hi.
  rewrite <- (map_nth_seq (unravel dims i)) at 1.
  rewrite unravel_length. apply map_ext_in. intros j Hj. apply in_seq in Hj.
  match goal with
  | |- get 0 ?t [i; j] = _ =>
      change t with (tabulate [size_of dims; length dims]
                       (fun idx => get 0 {| Np.shape := [length dims; size_of dims];
                                            data := data (indices dims) |} (rev idx)))
  end.
  rewrite get_tabulate by (repeat (apply Forall2_cons; [lia|]); constructor).
  unfold get. cbn [Np.shape data rev app ravel size_of fold_right].
  replace (j * (size_of dims * 1) + (i * 1 + 0)) with (i + j * size_of dims) by lia.
  apply indices_data; lia.
Qed.

Lemma voxels_length dims : length (voxels dims) = size_of dims.
Proof. unfold voxels. now rewrite length_map, length_seq. Qed.

Lemma voxels_In dims idx : In idx (voxels dims) <-> Forall2 lt idx dims.
Proof.
  unfold voxels. rewrite in_map_iff. split.
  - intros (k & <- & Hk). apply in_seq in Hk. apply unravel_bounded. lia.
  - intros H. exists (ravel dims idx). split; [now apply unravel_ravel|].
    apply in_seq. pose proof (ravel_bounded H). lia.
Qed.

Lemma voxels_NoDup dims : NoDup (voxels dims).
Proof.
  unfold voxels.
  assert (H : forall len, len <= size_of dims ->
                          NoDup (map (unravel dims) (seq 0 len))).
  { induction len as [|len IH]; intros Hlen; [constructor|].
    rewrite seq_S, map_app. simpl.
    apply NoDup_app; [apply IH; lia | repeat constructor; intros [] |].
    intros idx Hin [<-|[]]. apply in_map_iff in Hin.
    destruct Hin as (k & E & Hk). apply in_seq in Hk.
    apply (f_equal (ravel dims)) in E.
    rewrite !ravel_unravel in E by lia. lia. }
  now apply H.
Qed.

(** X15: A call with a shape that is not the remembered one, on an image of
    at least one axis: the list holds one index expression per voxel of
    the image, in C order, built from the voxel's index; every voxel
    occurs, and none twice. *)
Theorem one_expression_per_voxel (IndexExpression : Type)
    (new_IndexExpression : list nat -> IndexExpression)
    (self : VoxelWiseIndexing IndexExpression) (s dims : list nat) :
  shape self <> Some s ->
  slice_to s (image_dimension self) = dims -> dims <> [] ->
  fst (VoxelWiseIndexing_call new_IndexExpression self s)
  = Ok (Some (map new_IndexExpression (voxels dims)))
  /\ length (voxels dims) = size_of dims
  /\ NoDup (voxels dims)
  /\ (forall idx, In idx (voxels dims) <-> Forall2 lt idx dims).
Proof.
  intros Hne Hd Hdims.
  split; [|split; [apply voxels_length | split; [apply voxels_NoDup|]]].
  2: { intros idx. apply voxels_In. }
  unfold VoxelWiseIndexing_call.
  destruct (shape_eqb (shape self) s) eqn:E;
    [apply shape_eqb_true in E; contradiction|].
  cbn [image_dimension]. rewrite Hd.
  destruct (reshape_rows (indices dims)) as [r|e] eqn:Er.
  - cbn. now rewrite (rows_of_indices _ Er).
  - exfalso. unfold reshape_rows, indices in Er. cbn in Er.
    destruct dims; [contradiction | discriminate].
Qed.

Lemma one_expression_per_voxel_witness :
  fst (VoxelWiseIndexing_call (fun idx => idx) (VoxelWiseIndexing_init (list nat) 2)
         [2; 3; 4])
  = Ok (Some (voxels [2; 3]))
  /\ In [1; 2] (voxels [2; 3]).
Proof.
  pose proof (@one_expression_per_voxel (list nat) (fun idx => idx)
                (VoxelWiseIndexing_init (list nat) 2) [2; 3; 4] [2; 3]
                ltac:(discriminate) eq_refl ltac:(discriminate))
    as (H & _ & _ & Hin).
  rewrite map_id in H. split; [exact H|].
  apply Hin. repeat (apply Forall2_cons; [lia|]); constructor.
Defined.

(** X16: An image without axes, because the shape is empty or the image
    dimension selects nothing of it: the call raises [TypeError], as
    [np.prod] of the empty shape is the float 1.0 and [reshape] takes no
    float. *)
Theorem image_without_axes_raises (IndexExpression : Type)
    (new_IndexExpression : list nat -> IndexExpression)
    (self : VoxelWiseIndexing IndexExpression) (s : list nat) :
  shape self <> Some s ->
  slice_to s (image_dimension self) = [] ->
  fst (VoxelWiseIndexing_call new_IndexExpression self s)
  = Raise TypeError_not_integer.
Proof.
  intros Hne Hd. unfold VoxelWiseIndexing_call.
  destruct (shape_eqb (shape self) s) eqn:E;
    [apply shape_eqb_true in E; contradiction|].
  cbn [image_dimension]. rewrite Hd. reflexivity.
Qed.

Lemma image_without_axes_raises_witness :
  fst (VoxelWiseIndexing_call (fun idx => idx) (VoxelWiseIndexing_init (list nat) (-3))
         [4; 5; 6])
  = Raise TypeError_not_integer.
Proof.
  apply (@image_without_axes_raises (list nat) (fun idx => idx)
           (VoxelWiseIndexing_init (list nat) (-3)) [4; 5; 6]);
    [discriminate | reflexivity].
Defined.

(** ** VoxelWiseIndexing: the cache over many calls *)

(** X17: A call that raises has already overwritten the remembered shape but
    not the list: the same call again does not raise, it returns what
    was remembered before, the list of another shape or [None]. *)
Theorem raise_leaves_stale_cache (IndexExpression : Type)
    (new_IndexExpression : list nat -> IndexExpression)
    (self self' : VoxelWiseIndexing IndexExpression) (s : list nat) (e : exn) :
  VoxelWiseIndexing_call new_IndexExpression self s = (Raise e, self') ->
  shape self' = Some s /\ indexing self' = indexing self
  /\ VoxelWiseIndexing_call new_IndexExpression self' s
     = (Ok (indexing self), self').
Proof.
  unfold VoxelWiseIndexing_call at 1.
  destruct (shape_eqb (shape self) s); [discriminate|].
  destruct (reshape_rows _); [discriminate|].
  intros [= _ <-]. cbn [shape indexing]. repeat split.
  unfold VoxelWiseIndexing_call. cbn [shape].
  now rewrite (proj2 (shape_eqb_true (Some s) s) eq_refl).
Qed.

Lemma raise_leaves_stale_cache_witness :
  let self := VoxelWiseIndexing_init (list nat) 0 in
  let self' := {| shape := Some [3; 4]; indexing := None; image_dimension := 0%Z |} in
  VoxelWiseIndexing_call (fun idx => idx) self [3; 4]
  = (Raise TypeError_not_integer, self')
  /\ VoxelWiseIndexing_call (fun idx => idx) self' [3; 4] = (Ok None, self').
Proof.
  cbv zeta. split; [reflexivity|].
  refine (proj2 (proj2 (@raise_leaves_stale_cache (list nat) (fun idx => idx)
                          (VoxelWiseIndexing_init (list nat) 0) _ [3; 4]
                          TypeError_not_integer _))).
  reflexivity.
Defined.

Section Cache.
Variable IndexExpression : Type.
Variable new_IndexExpression : list nat -> IndexExpression.

Lemma call_image_dimension self s : image_dimension (snd (VoxelWiseIndexing_call new_IndexExpression self s)) = image_dimension self.
Proof.
  unfold VoxelWiseIndexing_call.
  destruct (shape_eqb _ _); [reflexivity|].
  cbn [image_dimension]. destruct (reshape_rows _); reflexivity.
Qed.

Lemma call_miss self s :
  shape self <> Some s ->
  fst (VoxelWiseIndexing_call new_IndexExpression self s)
  = fst (VoxelWiseIndexing_call new_IndexExpression (VoxelWiseIndexing_init IndexExpression (image_dimension self)) s).
Proof.
  intros Hne. unfold VoxelWiseIndexing_call.
  destruct (shape_eqb (shape self) s) eqn:E;
    [apply shape_eqb_true in E; contradiction|].
  cbn. destruct (reshape_rows _); reflexivity.
Qed.

Lemma call_keeps_cache_valid self s r self' :
  cache_valid new_IndexExpression self -> VoxelWiseIndexing_call new_IndexExpression self s = (Ok r, self') ->
  cache_valid new_IndexExpression self'
  /\ fst (VoxelWiseIndexing_call new_IndexExpression (VoxelWiseIndexing_init IndexExpression (image_dimension self)) s) = Ok r.
Proof.
  intros Hv H.
  destruct (list_eq_dec Nat.eq_dec) with (l := s) (l' := s) as [_|]; [|contradiction].
  assert (Hr : fst (VoxelWiseIndexing_call new_IndexExpression (VoxelWiseIndexing_init IndexExpression
                            (image_dimension self)) s) = Ok r).
  { destruct (shape_eqb (shape self) s) eqn:E.
    - pose proof E as E'. apply shape_eqb_true in E'.
      unfold VoxelWiseIndexing_call in H. rewrite E in H.
      injection H as <- <-. now apply Hv.
    - rewrite <- call_miss; [now rewrite H|].
      intros E'. apply shape_eqb_true in E'. congruence. }
  split; [|exact Hr].
  pose proof (call_image_dimension self s) as Hd. rewrite H in Hd. cbn in Hd.
  intros s' Hs'. rewrite Hd.
  assert (Hs : shape self' = Some s /\ indexing self' = r).
  { unfold VoxelWiseIndexing_call in H.
    destruct (shape_eqb (shape self) s) eqn:E.
    - apply shape_eqb_true in E. injection H as <- <-. auto.
    - destruct (reshape_rows _); [|discriminate].
      injection H as <- <-. auto. }
  destruct Hs as [Hs ->]. rewrite Hs in Hs'. injection Hs' as <-. exact Hr.
Qed.

Lemma calls_from_valid shapes : forall self,
  cache_valid new_IndexExpression self ->
  Forall (fun r => returns r = true) (fst (calls new_IndexExpression self shapes)) ->
  fst (calls new_IndexExpression self shapes)
  = fresh_calls new_IndexExpression (image_dimension self) shapes.
Proof.
  induction shapes as [|s shapes IH]; intros self Hv Hall; [reflexivity|].
  cbn [calls] in *.
  destruct (VoxelWiseIndexing_call new_IndexExpression self s) as [r self'] eqn:E.
  destruct (calls new_IndexExpression self' shapes) as [rs self''] eqn:Ers.
  cbn [fst] in *. inversion Hall as [|? ? Hr Hrs]; subst.
  destruct r as [r|e]; [|discriminate].
  destruct (@call_keeps_cache_valid _ _ _ _ Hv E) as [Hv' Hfresh].
  unfold fresh_calls. cbn [map]. rewrite Hfresh. f_equal.
  specialize (IH self' Hv'). rewrite Ers in IH. cbn [fst] in IH.
  rewrite IH by assumption.
  pose proof (call_image_dimension self s) as Hd. rewrite E in Hd. cbn in Hd.
  now rewrite Hd.
Qed.

End Cache.

(** X18: One object called with any sequence of shapes: as long as no call
    raises, every call returns what a fresh object would have returned
    for its shape, so the cache cannot be observed. *)
Theorem cache_is_transparent (IndexExpression : Type)
    (new_IndexExpression : list nat -> IndexExpression)
    (image_dimension : Z) (shapes : list (list nat)) :
  Forall (fun r => returns r = true)
    (fst (calls new_IndexExpression
            (VoxelWiseIndexing_init IndexExpression image_dimension) shapes)) ->
  fst (calls new_IndexExpression
         (VoxelWiseIndexing_init IndexExpression image_dimension) shapes)
  = fresh_calls new_IndexExpression image_dimension shapes.
Proof.
  intros H. apply calls_from_valid in H; [exact H|].
  intros s Hs. discriminate.
Qed.

Lemma cache_is_transparent_witness :
  fst (calls (fun idx => idx) (VoxelWiseIndexing_init (list nat) 2)
         [[2; 1; 5]; [2; 1; 5]; [1; 2]; [2; 1; 5]])
  = fresh_calls (fun idx => idx) 2 [[2; 1; 5]; [2; 1; 5]; [1; 2]; [2; 1; 5]].
Proof.
  apply (@cache_is_transparent (list nat) (fun idx => idx) 2
           [[2; 1; 5]; [2; 1; 5]; [1; 2]; [2; 1; 5]]).
  repeat constructor.
Defined.

(** ** SliceIndexing *)

Section Slices.
Variable IndexExpression : Type.
Variable new_IndexExpression_at : nat -> Z -> IndexExpression.

Lemma getitem_in_range {A} (t : list A) (d : A) axis :
  axis_in_range (length t) axis ->
  getitem t axis = Ok (nth (axis_position (length t) axis) t d).
Proof.
  unfold axis_in_range, getitem, axis_position, tuple_get. cbv zeta. intros H.
  destruct (axis <? 0)%Z eqn:E.
  - apply Z.ltb_lt in E.
    destruct (axis + Z.of_nat (length t) <? 0)%Z eqn:E'; [apply Z.ltb_lt in E'; lia|].
    apply Z.ltb_ge in E'.
    destruct (nth_error t _) eqn:En; [now rewrite (nth_error_nth _ _ _ En)|].
    apply nth_error_None in En. lia.
  - rewrite E. apply Z.ltb_ge in E.
    destruct (nth_error t _) eqn:En; [now rewrite (nth_error_nth _ _ _ En)|].
    apply nth_error_None in En. lia.
Qed.

Lemma getitem_out_of_range {A} (t : list A) axis :
  ~ axis_in_range (length t) axis -> getitem t axis = Raise IndexError_tuple.
Proof.
  unfold axis_in_range, getitem, tuple_get. cbv zeta. intros H.
  destruct (axis <? 0)%Z eqn:E.
  - apply Z.ltb_lt in E.
    destruct (axis + Z.of_nat (length t) <? 0)%Z eqn:E'; [reflexivity|].
    apply Z.ltb_ge in E'. lia.
  - rewrite E. apply Z.ltb_ge in E.
    destruct (nth_error t _) eqn:En; [|reflexivity].
    assert (Hlt : Z.to_nat axis < length t)
      by (apply nth_error_Some; congruence).
    lia.
Qed.


Lemma loop_out_of_range shape axes : forall indexing,
  Exists (fun axis => ~ axis_in_range (length shape) axis) axes ->
  SliceIndexing_loop new_IndexExpression_at axes shape indexing = Raise IndexError_tuple.
Proof.
  induction axes as [|axis axes IH]; intros indexing H; [inversion H|].
  cbn [SliceIndexing_loop].
  destruct (Z_le_dec (- Z.of_nat (length shape)) axis) as [Hlo|Hlo];
    [destruct (Z_lt_dec axis (Z.of_nat (length shape))) as [Hhi|Hhi]|].
  - rewrite (@getitem_in_range _ shape 0 axis) by (split; assumption).
    cbn [bind]. apply IH. inversion H; subst; [|assumption].
    exfalso. apply H1. split; assumption.
  - rewrite getitem_out_of_range; [reflexivity|]. unfold axis_in_range. lia.
  - rewrite getitem_out_of_range; [reflexivity|]. unfold axis_in_range. lia.
Qed.

End Slices.



(** X20: One axis outside the range of the shape, wherever it stands among
    the axes, makes the call raise [IndexError]; nothing of what the
    axes before it gave is returned. *)
Theorem axis_out_of_range_raises (IndexExpression : Type)
    (new_IndexExpression_at : nat -> Z -> IndexExpression)
    (slice_axis : slice_axis_arg) (shape : list nat) :
  Exists (fun axis => ~ axis_in_range (length shape) axis)
    (Indexing.slice_axis (SliceIndexing_init slice_axis)) ->
  SliceIndexing_call new_IndexExpression_at (SliceIndexing_init slice_axis) shape
  = Raise IndexError_tuple.
Proof.
  intros H. unfold SliceIndexing_call. now apply loop_out_of_range.
Qed.

Lemma axis_out_of_range_raises_witness :
  SliceIndexing_call (fun i axis => (i, axis))
    (SliceIndexing_init (Axes [0; 3]%Z)) [2; 5; 3]
  = Raise IndexError_tuple.
Proof.
  apply (@axis_out_of_range_raises (nat * Z) (fun i axis => (i, axis))
           (Axes [0; 3]%Z) [2; 5; 3]).
  apply Exists_cons_tl, Exists_cons_hd. unfold axis_in_range. simpl. lia.
Defined.
